(** * BIP32 hierarchical deterministic wallets: extended keys and derivation

    Shallow embedding of [btclib/bip32.py]: the extended-key record, its
    validation and 78-byte codec, the child-key-derivation step, multi-level
    derivation, neutering, the crack of a parent private key, the root
    key from a seed, the derivation from an account key and the master key
    of an Electrum mnemonic; then of the network constants of
    [btclib/network.py], of the Merkle root and the header flags of
    [btclib/blocks.py] and of the WIF and address functions of
    [btclib/wifaddress.py].

    The elliptic curve, the hash functions, Base58Check, the path parser and
    the version tables live in other modules of the library; they are the
    fields of the class [Collaborators] and their contracts are the fields
    of [Laws]. *)

From Stdlib Require Import ZArith List Bool Lia.
From Stdlib.Strings Require Import Byte.
Import ListNotations.
Open Scope Z_scope.

(** ** Python values *)

Definition bytes := list byte.

(** A text argument is either a [str] or a [bytes] object.  A [str] is kept
    as the list of its code points, all below 256 here. *)
Inductive String :=
| PyStr (s : list byte)
| PyBytes (b : bytes).

(** Exceptions, one constructor per raise site.  All the constructors but
    the last five are [BTClibValueError] with distinct messages. *)
Inductive error :=
| InvalidVersionLength
| InvalidDepth
| InvalidFingerprintLength
| InvalidIndex
| InvalidChainCodeLength
| InvalidKeyLength
| InvalidPrvKeyPrefix
| InvalidPrvKey
| InvalidPubKeyPrefix
| InvalidPubKey
| UnknownVersion
| ZeroDepthFingerprint
| ZeroDepthIndex
| InvalidDecodedLength
| TooFewBits
| TooManyBits
| UnknownPrvVersion
| NotAPrivateKey
| HardenedFromPublicKey
| FinalDepth
| InvalidForcedVersion
| ParentNotAPublicKey
| ChildNotAPrivateKey
| WrongDepths
| WrongFingerprint
| HardenedChild
| External (code : Z)
| IndexError
| ValueError
| OverflowError
| UnicodeDecodeError.

Inductive result (A : Type) :=
| Ok (a : A)
| Err (e : error).
Arguments Ok {A} a.
Arguments Err {A} e.

Definition bind {A B} (r : result A) (f : A -> result B) : result B :=
  match r with
  | Ok a => f a
  | Err e => Err e
  end.

Notation "x <- r ;; k" := (bind r (fun x => k))
  (at level 61, r at next level, right associativity).
Notation "r ;;; k" := (bind r (fun _ => k))
  (at level 61, right associativity).

Definition raise_if (b : bool) (e : error) : result unit :=
  if b then Err e else Ok tt.

(** ** Integers and bytes *)

Definition Z_of_byte (b : byte) : Z := Z.of_N (Byte.to_N b).

Definition byte_of_Z (z : Z) : byte :=
  match Byte.of_N (Z.to_N z) with
  | Some b => b
  | None => x00
  end.

(** [int.from_bytes(bs, byteorder="big", signed=False)] *)
Definition from_bytes (bs : bytes) : Z :=
  fold_left (fun acc b => acc * 256 + Z_of_byte b) bs 0.

Fixpoint be_bytes (len : nat) (v : Z) : bytes :=
  match len with
  | O => []
  | S l => be_bytes l (v / 256) ++ [byte_of_Z (v mod 256)]
  end.

(** [v.to_bytes(len, byteorder="big", signed=False)] *)
Definition to_bytes (len : nat) (v : Z) : result bytes :=
  if (0 <=? v) && (v <? 256 ^ Z.of_nat len)
  then Ok (be_bytes len v)
  else Err OverflowError.

Definition byte_eqb (a b : byte) : bool := Byte.eqb a b.

Fixpoint bytes_eqb (a b : bytes) : bool :=
  match a, b with
  | [], [] => true
  | x :: a', y :: b' => byte_eqb x y && bytes_eqb a' b'
  | _, _ => false
  end.

(** [v in table] *)
Definition mem (v : bytes) (table : list bytes) : bool :=
  existsb (bytes_eqb v) table.

(** [table.index(v)] *)
Fixpoint index_of (v : bytes) (table : list bytes) : option nat :=
  match table with
  | [] => None
  | x :: t => if bytes_eqb x v then Some O
              else option_map S (index_of v t)
  end.

(** [bs[0]] *)
Definition byte0 (bs : bytes) : result Z :=
  match bs with
  | [] => Err IndexError
  | b :: _ => Ok (Z_of_byte b)
  end.

(** [bs.decode("ascii")] *)
Definition decode_ascii (bs : bytes) : result (list byte) :=
  if forallb (fun b => Z_of_byte b <? 128) bs then Ok bs
  else Err UnicodeDecodeError.

(** [str.isspace] on the code points below 256 *)
Definition is_space (b : byte) : bool :=
  let c := Z_of_byte b in
  ((9 <=? c) && (c <=? 13)) || ((28 <=? c) && (c <=? 32))
  || (c =? 133) || (c =? 160).

Fixpoint lstrip (s : list byte) : list byte :=
  match s with
  | [] => []
  | c :: t => if is_space c then lstrip t else s
  end.

(** [s.strip()] *)
Definition strip (s : list byte) : list byte :=
  rev (lstrip (rev (lstrip s))).


(** [stream.read(n)] on a stream whose unread content is [s] *)
Definition read (n : nat) (s : bytes) : bytes * bytes :=
  (firstn n s, skipn n s).

(** ** The other modules of the library *)

Class Collaborators := {
  (** [alias.Point] and [alias.INF] *)
  Point : Type;
  INF : Point;
  (** [curve.secp256k1]: the order [ec.n], [mult(m)] (the multiple [m*G] of
      the generator), [ec.add] and [ec.y] (the y coordinate from x) *)
  ec_n : Z;
  mult : Z -> Point;
  ec_add : Point -> Point -> result Point;
  ec_y : Z -> result Z;
  (** [sec_point]: compressed SEC encoding of a point and its inverse *)
  bytes_from_point : Point -> result bytes;
  point_from_octets : bytes -> result Point;
  (** [hmac.new(key, msg, "sha512").digest()] and [utils.hash160] *)
  hmac_sha512 : bytes -> bytes -> bytes;
  hash160 : bytes -> bytes;
  (** [base58.b58encode] and [base58.b58decode] (Base58Check) *)
  base58_b58encode : bytes -> bytes;
  base58_b58decode : String -> result bytes;
  (** [utils.bytes_from_octets(o, out_size)] and
      [utils.bytesio_from_binarydata], the latter giving the content of the
      stream *)
  bytes_from_octets : String -> option nat -> result bytes;
  bytesio_from_binarydata : String -> result bytes;
  (** [bip32_path.indexes_from_bip32_path] over the type [BIP32DerPath] *)
  BIP32DerPath : Type;
  indexes_from_bip32_path : BIP32DerPath -> result (list Z);
  (** [network._XPRV_VERSIONS_ALL] and [network._XPUB_VERSIONS_ALL] *)
  _XPRV_VERSIONS_ALL : list bytes;
  _XPUB_VERSIONS_ALL : list bytes
}.

Definition _EXPECTED_DECODED_LENGHT : nat := 78.

(** ** The extended key *)

Record BIP32KeyData := mkBIP32KeyData {
  version : bytes;
  depth : Z;
  parent_fingerprint : bytes;
  index : Z;
  chain_code : bytes;
  key : bytes
}.

Definition zero_fingerprint : bytes := [x00; x00; x00; x00].

(** [BIP32Key = Union[BIP32KeyData, String]] *)
Inductive BIP32Key :=
| KeyData (k : BIP32KeyData)
| KeyStr (s : String).

Definition is_hardened (k : BIP32KeyData) : bool :=
  index k >=? 0x80000000.

(** Assignments to a field of a key *)
Definition with_version (k : BIP32KeyData) (v : bytes) : BIP32KeyData :=
  mkBIP32KeyData v (depth k) (parent_fingerprint k) (index k)
    (chain_code k) (key k).

Definition with_depth (k : BIP32KeyData) (d : Z) : BIP32KeyData :=
  mkBIP32KeyData (version k) d (parent_fingerprint k) (index k)
    (chain_code k) (key k).

Definition with_parent_fingerprint (k : BIP32KeyData) (fp : bytes)
  : BIP32KeyData :=
  mkBIP32KeyData (version k) (depth k) fp (index k) (chain_code k) (key k).

Definition with_index (k : BIP32KeyData) (i : Z) : BIP32KeyData :=
  mkBIP32KeyData (version k) (depth k) (parent_fingerprint k) i
    (chain_code k) (key k).

Definition with_chain_code (k : BIP32KeyData) (cc : bytes) : BIP32KeyData :=
  mkBIP32KeyData (version k) (depth k) (parent_fingerprint k) (index k)
    cc (key k).

Definition with_key (k : BIP32KeyData) (kb : bytes) : BIP32KeyData :=
  mkBIP32KeyData (version k) (depth k) (parent_fingerprint k) (index k)
    (chain_code k) kb.

(** The key read from the first 78 bytes of a stream, before validation *)
Definition parse (stream : bytes) : BIP32KeyData :=
  let '(v, stream) := read 4 stream in
  let '(d, stream) := read 1 stream in
  let '(fp, stream) := read 4 stream in
  let '(i, stream) := read 4 stream in
  let '(cc, stream) := read 32 stream in
  let '(k, stream) := read 33 stream in
  mkBIP32KeyData v (from_bytes d) fp (from_bytes i) cc k.

(** The serialization of a key whose depth and index fit their fields *)
Definition wire (k : BIP32KeyData) : bytes :=
  ((((version k ++ be_bytes 1 (depth k)) ++ parent_fingerprint k)
    ++ be_bytes 4 (index k)) ++ chain_code k) ++ key k.

(** The key data extended with the scalar [q] (private keys) or the point
    [Q] (public keys) cached between the levels of a derivation; [P] is the
    type of the points. *)
Record _ExtendedBIP32KeyData (P : Type) := mkExtended {
  xdata : BIP32KeyData;
  q : Z;
  Q : P
}.
Arguments mkExtended {P} xdata q Q.
Arguments xdata {P} _.
Arguments q {P} _.
Arguments Q {P} _.

Section Bip32.

Context {C : Collaborators}.

Definition assert_valid (k : BIP32KeyData) : result unit :=
  raise_if (negb (length (version k) =? 4)%nat) InvalidVersionLength ;;;
  raise_if ((depth k <? 0) || (depth k >? 255)) InvalidDepth ;;;
  raise_if (negb (length (parent_fingerprint k) =? 4)%nat)
    InvalidFingerprintLength ;;;
  raise_if (negb ((0 <=? index k) && (index k <=? 0xFFFFFFFF)))
    InvalidIndex ;;;
  raise_if (negb (length (chain_code k) =? 32)%nat)
    InvalidChainCodeLength ;;;
  raise_if (negb (length (key k) =? 33)%nat) InvalidKeyLength ;;;
  (if mem (version k) _XPRV_VERSIONS_ALL then
     k0 <- byte0 (key k) ;;
     raise_if (negb (k0 =? 0)) InvalidPrvKeyPrefix ;;;
     let q := from_bytes (tl (key k)) in
     raise_if (negb ((0 <? q) && (q <? ec_n))) InvalidPrvKey
   else if mem (version k) _XPUB_VERSIONS_ALL then
     k0 <- byte0 (key k) ;;
     raise_if (negb ((k0 =? 2) || (k0 =? 3))) InvalidPubKeyPrefix ;;;
     match ec_y (from_bytes (tl (key k))) with
     | Ok _ => Ok tt
     | Err _ => Err InvalidPubKey
     end
   else Err UnknownVersion) ;;;
  if depth k =? 0 then
    raise_if (negb (bytes_eqb (parent_fingerprint k) [x00; x00; x00; x00]))
      ZeroDepthFingerprint ;;;
    raise_if (negb (index k =? 0)) ZeroDepthIndex
  else Ok tt.

(** The constructor [BIP32KeyData(version=..., ..., check_validity=...)]:
    [__post_init__] validates unless told not to. *)
Definition new_BIP32KeyData (v : bytes) (d : Z) (fp : bytes) (i : Z)
    (cc k : bytes) (check_validity : bool) : result BIP32KeyData :=
  let self := mkBIP32KeyData v d fp i cc k in
  (if check_validity then assert_valid self else Ok tt) ;;;
  Ok self.

Definition serialize (self : BIP32KeyData) (av : bool) : result bytes :=
  (if av then assert_valid self else Ok tt) ;;;
  let xkey_bin := version self in
  d <- to_bytes 1 (depth self) ;;
  let xkey_bin := xkey_bin ++ d in
  let xkey_bin := xkey_bin ++ parent_fingerprint self in
  i <- to_bytes 4 (index self) ;;
  let xkey_bin := xkey_bin ++ i in
  let xkey_bin := xkey_bin ++ chain_code self in
  let xkey_bin := xkey_bin ++ key self in
  Ok xkey_bin.

Definition deserialize (xkey_bin : String) (av : bool)
  : result BIP32KeyData :=
  stream <- bytesio_from_binarydata xkey_bin ;;
  let '(v, stream) := read 4 stream in
  let '(d, stream) := read 1 stream in
  let '(fp, stream) := read 4 stream in
  let '(i, stream) := read 4 stream in
  let '(cc, stream) := read 32 stream in
  let '(k, stream) := read 33 stream in
  let xkey := mkBIP32KeyData v (from_bytes d) fp (from_bytes i) cc k in
  (if av then assert_valid xkey else Ok tt) ;;;
  Ok xkey.

Definition b58encode (self : BIP32KeyData) (av : bool) : result bytes :=
  data_binary <- serialize self av ;;
  Ok (base58_b58encode data_binary).

Definition b58decode (data_str : String) (av : bool)
  : result BIP32KeyData :=
  let data_str := match data_str with
                  | PyStr s => PyStr (strip s)
                  | PyBytes b => PyBytes b
                  end in
  data_decoded <- base58_b58decode data_str ;;
  raise_if (av && negb (length data_decoded =? _EXPECTED_DECODED_LENGHT)%nat)
    InvalidDecodedLength ;;;
  deserialize (PyBytes data_decoded) av.

(** [xkey.b58encode().decode("ascii")] *)
Definition b58encode_str (xkey : BIP32KeyData) : result (list byte) :=
  s <- b58encode xkey true ;;
  decode_ascii s.

(** [xkey] if it is a [BIP32KeyData], [BIP32KeyData.b58decode(xkey)] if not *)
Definition key_data (xkey : BIP32Key) : result BIP32KeyData :=
  match xkey with
  | KeyData k => Ok k
  | KeyStr s => b58decode s true
  end.

(** ** Root key *)

(** The bytes of [b"Bitcoin seed"] *)
Definition Bitcoin_seed : bytes :=
  [x42; x69; x74; x63; x6f; x69; x6e; x20; x73; x65; x65; x64].

Definition _rootxprv_from_seed (seed version : String)
  : result BIP32KeyData :=
  seed <- bytes_from_octets seed None ;;
  let bitlenght := Z.of_nat (length seed) * 8 in
  raise_if (bitlenght <? 128) TooFewBits ;;;
  raise_if (bitlenght >? 512) TooManyBits ;;;
  let hmac_ := hmac_sha512 Bitcoin_seed seed in
  let k := x00 :: firstn 32 hmac_ in
  v <- bytes_from_octets version (Some 4%nat) ;;
  raise_if (negb (mem v _XPRV_VERSIONS_ALL)) UnknownPrvVersion ;;;
  new_BIP32KeyData v 0 [x00; x00; x00; x00] 0 (skipn 32 hmac_) k true.

Definition rootxprv_from_seed (seed version : String)
  : result (list byte) :=
  xkey <- _rootxprv_from_seed seed version ;;
  b58encode_str xkey.

(** ** Neutering *)

Definition _xpub_from_xprv (xprv : BIP32Key) : result BIP32KeyData :=
  xkey <- key_data xprv ;;
  k0 <- byte0 (key xkey) ;;
  (if negb (k0 =? 0)
   then _ <- b58encode_str xkey ;; Err NotAPrivateKey
   else Ok tt) ;;;
  i <- match index_of (version xkey) _XPRV_VERSIONS_ALL with
       | Some i => Ok i
       | None => Err ValueError
       end ;;
  v <- match nth_error _XPUB_VERSIONS_ALL i with
       | Some v => Ok v
       | None => Err IndexError
       end ;;
  let xkey := with_version xkey v in
  let q := from_bytes (tl (key xkey)) in
  let Q := mult q in
  kb <- bytes_from_point Q ;;
  let xkey := with_key xkey kb in
  Ok xkey.

Definition xpub_from_xprv (xprv : BIP32Key) : result (list byte) :=
  xkey <- _xpub_from_xprv xprv ;;
  b58encode_str xkey.

(** ** Child key derivation *)

Definition new_ExtendedBIP32KeyData (v : bytes) (d : Z) (fp : bytes) (i : Z)
    (cc k : bytes) (q : Z) (Q : Point)
  : result (_ExtendedBIP32KeyData Point) :=
  self <- new_BIP32KeyData v d fp i cc k true ;;
  Ok (mkExtended self q Q).

Definition __ckd (xkey : _ExtendedBIP32KeyData Point) (index : Z)
  : result (_ExtendedBIP32KeyData Point) :=
  let k := xdata xkey in
  let k := with_depth k (depth k + 1) in
  let k := with_index k index in
  k0 <- byte0 (key k) ;;
  if k0 =? 0 then
    Q_bytes <- bytes_from_point (mult (q xkey)) ;;
    let k := with_parent_fingerprint k (firstn 4 (hash160 Q_bytes)) in
    hmac_ <- (if is_hardened k
              then ib <- to_bytes 4 index ;;
                   Ok (hmac_sha512 (chain_code k) (key k ++ ib))
              else ib <- to_bytes 4 index ;;
                   Ok (hmac_sha512 (chain_code k) (Q_bytes ++ ib))) ;;
    let k := with_chain_code k (skipn 32 hmac_) in
    let offset := from_bytes (firstn 32 hmac_) in
    let q' := (q xkey + offset) mod ec_n in
    qb <- to_bytes 32 q' ;;
    let k := with_key k (x00 :: qb) in
    Ok (mkExtended k q' INF)
  else
    let k := with_parent_fingerprint k (firstn 4 (hash160 (key k))) in
    if is_hardened k then Err HardenedFromPublicKey else
    ib <- to_bytes 4 index ;;
    let hmac_ := hmac_sha512 (chain_code k) (key k ++ ib) in
    let k := with_chain_code k (skipn 32 hmac_) in
    let offset := from_bytes (firstn 32 hmac_) in
    Q' <- ec_add (Q xkey) (mult offset) ;;
    kb <- bytes_from_point Q' ;;
    let k := with_key k kb in
    Ok (mkExtended k 0 Q').

(** The loop [for index in indexes: __ckd(xkey, index)] *)
Fixpoint ckd_loop (xkey : _ExtendedBIP32KeyData Point) (indexes : list Z)
  : result (_ExtendedBIP32KeyData Point) :=
  match indexes with
  | [] => Ok xkey
  | index :: rest => xkey' <- __ckd xkey index ;; ckd_loop xkey' rest
  end.

(** Truth value of an optional [Octets] argument *)
Definition truthy (o : option String) : option String :=
  match o with
  | Some (PyStr []) | Some (PyBytes []) | None => None
  | Some v => Some v
  end.

Definition _derive (xkey : BIP32Key) (der_path : BIP32DerPath)
    (forced_version : option String)
  : result (_ExtendedBIP32KeyData Point) :=
  xkey <- key_data xkey ;;
  indexes <- indexes_from_bip32_path der_path ;;
  let final_depth := depth xkey + Z.of_nat (length indexes) in
  raise_if (final_depth >? 255) FinalDepth ;;;
  k0 <- byte0 (key xkey) ;;
  let is_prv := k0 =? 0 in
  let q0 := if is_prv then from_bytes (tl (key xkey)) else 0 in
  Q0 <- (if is_prv then Ok INF else point_from_octets (key xkey)) ;;
  xkey <- new_ExtendedBIP32KeyData (version xkey) (depth xkey)
            (parent_fingerprint xkey) (index xkey) (chain_code xkey)
            (key xkey) q0 Q0 ;;
  xkey <- ckd_loop xkey indexes ;;
  match truthy forced_version with
  | Some forced_version =>
      let allowed_versions :=
        if mem (version (xdata xkey)) _XPRV_VERSIONS_ALL
        then _XPRV_VERSIONS_ALL else _XPUB_VERSIONS_ALL in
      fversion <- bytes_from_octets forced_version (Some 4%nat) ;;
      raise_if (negb (mem fversion allowed_versions)) InvalidForcedVersion ;;;
      Ok (mkExtended (with_version (xdata xkey) fversion) (q xkey) (Q xkey))
  | None => Ok xkey
  end.

Definition derive (xkey : BIP32Key) (der_path : BIP32DerPath)
    (forced_version : option String) : result (list byte) :=
  xkey <- _derive xkey der_path forced_version ;;
  b58encode_str (xdata xkey).

(** ** Cracking the parent private key *)

Definition crack_prv_key (parent_xpub child_xprv : BIP32Key)
  : result (list byte) :=
  p <- key_data parent_xpub ;;
  p0 <- byte0 (key p) ;;
  (if negb ((p0 =? 2) || (p0 =? 3))
   then _ <- b58encode_str p ;; Err ParentNotAPublicKey
   else Ok tt) ;;;
  c <- key_data child_xprv ;;
  c0 <- byte0 (key c) ;;
  (if negb (c0 =? 0)
   then _ <- b58encode_str c ;; Err ChildNotAPrivateKey
   else Ok tt) ;;;
  raise_if (negb (depth c =? depth p + 1)) WrongDepths ;;;
  raise_if (negb (bytes_eqb (parent_fingerprint c)
                    (firstn 4 (hash160 (key p))))) WrongFingerprint ;;;
  raise_if (is_hardened c) HardenedChild ;;;
  let p := with_version p (version c) in
  ib <- to_bytes 4 (index c) ;;
  let hmac_ := hmac_sha512 (chain_code p) (key p ++ ib) in
  let child_q := from_bytes (tl (key c)) in
  let offset := from_bytes (firstn 32 hmac_) in
  let parent_q := (child_q - offset) mod ec_n in
  qb <- to_bytes 32 parent_q ;;
  let p := with_key p (x00 :: qb) in
  b58encode_str p.

(** ** Parts of the derivation, named for the statements *)

(** The scalar of the private child of [k] at [index], as the private branch
    of [__ckd] computes it from the scalar in the key bytes *)
Definition prv_child_scalar (k : BIP32KeyData) (index : Z) : result Z :=
  let q := from_bytes (tl (key k)) in
  Q_bytes <- bytes_from_point (mult q) ;;
  hmac_ <- (if index >=? 0x80000000
            then ib <- to_bytes 4 index ;;
                 Ok (hmac_sha512 (chain_code k) (key k ++ ib))
            else ib <- to_bytes 4 index ;;
                 Ok (hmac_sha512 (chain_code k) (Q_bytes ++ ib))) ;;
  Ok ((q + from_bytes (firstn 32 hmac_)) mod ec_n).

(** The cache [_derive] computes from the key bytes: [(q, INF)] for a
    private key, [(0, Q)] for a public key *)
Definition cache_of (k : BIP32KeyData) : result (Z * Point) :=
  k0 <- byte0 (key k) ;;
  if k0 =? 0 then Ok (from_bytes (tl (key k)), INF)
  else Q0 <- point_from_octets (key k) ;; Ok (0, Q0).

(** The extended key [_derive] starts from *)
Definition extended_of (k : BIP32KeyData)
  : result (_ExtendedBIP32KeyData Point) :=
  c <- cache_of k ;;
  new_ExtendedBIP32KeyData (version k) (depth k) (parent_fingerprint k)
    (index k) (chain_code k) (key k) (fst c) (snd c).

(** The end of [_derive]: the forced version *)
Definition force_version (forced_version : option String)
    (xkey : _ExtendedBIP32KeyData Point)
  : result (_ExtendedBIP32KeyData Point) :=
  match truthy forced_version with
  | Some forced_version =>
      let allowed_versions :=
        if mem (version (xdata xkey)) _XPRV_VERSIONS_ALL
        then _XPRV_VERSIONS_ALL else _XPUB_VERSIONS_ALL in
      fversion <- bytes_from_octets forced_version (Some 4%nat) ;;
      raise_if (negb (mem fversion allowed_versions)) InvalidForcedVersion ;;;
      Ok (mkExtended (with_version (xdata xkey) fversion) (q xkey) (Q xkey))
  | None => Ok xkey
  end.

(** The private child of [k] at [index], [Q_bytes] being the encoding of
    the public point of [k]: the values the private branch of [__ckd]
    assigns *)
Definition prv_digest (k : BIP32KeyData) (index : Z) (Q_bytes : bytes)
  : bytes :=
  if index >=? 0x80000000
  then hmac_sha512 (chain_code k) (key k ++ be_bytes 4 index)
  else hmac_sha512 (chain_code k) (Q_bytes ++ be_bytes 4 index).

Definition prv_child (k : BIP32KeyData) (index : Z) (Q_bytes : bytes)
  : BIP32KeyData :=
  let hmac_ := prv_digest k index Q_bytes in
  let q' := (from_bytes (tl (key k)) + from_bytes (firstn 32 hmac_))
            mod ec_n in
  mkBIP32KeyData (version k) (depth k + 1) (firstn 4 (hash160 Q_bytes))
    index (skipn 32 hmac_) (x00 :: be_bytes 32 q').

(** The private descendant of [k] along [indexes]: the private child at
    each index in turn, in the order of the list, each from the encoding of
    the public point of its parent *)
Fixpoint prv_descendant (k : BIP32KeyData) (indexes : list Z)
  : result BIP32KeyData :=
  match indexes with
  | [] => Ok k
  | index :: rest =>
      Q_bytes <- bytes_from_point (mult (from_bytes (tl (key k)))) ;;
      prv_descendant (prv_child k index Q_bytes) rest
  end.

(** The key [_xpub_from_xprv] returns: version [v] and key bytes [kb] in
    place of those of [k] *)
Definition neutered (k : BIP32KeyData) (v kb : bytes) : BIP32KeyData :=
  mkBIP32KeyData v (depth k) (parent_fingerprint k) (index k)
    (chain_code k) kb.

End Bip32.

(** ** The invariants of an extended key, as the data model words them *)

Section Invariants.

Context {C : Collaborators}.

Definition private_version (v : bytes) : Prop := In v _XPRV_VERSIONS_ALL.
Definition public_version (v : bytes) : Prop := In v _XPUB_VERSIONS_ALL.

Record invariants (k : BIP32KeyData) : Prop := {
  inv_version : private_version (version k) \/ public_version (version k);
  inv_depth : 0 <= depth k <= 255;
  inv_fingerprint : length (parent_fingerprint k) = 4%nat;
  inv_index : 0 <= index k <= 0xFFFFFFFF;
  inv_chain_code : length (chain_code k) = 32%nat;
  inv_key : length (key k) = 33%nat;
  inv_private : private_version (version k) ->
    byte0 (key k) = Ok 0 /\ 0 < from_bytes (tl (key k)) < ec_n;
  inv_public : public_version (version k) ->
    (byte0 (key k) = Ok 2 \/ byte0 (key k) = Ok 3)
    /\ exists y, ec_y (from_bytes (tl (key k))) = Ok y;
  inv_root : depth k = 0 ->
    parent_fingerprint k = zero_fingerprint /\ index k = 0
}.

(** A valid private (public) extended key: one that passes [assert_valid]
    with a private (public) version. *)
Definition valid_xprv (k : BIP32KeyData) : Prop :=
  assert_valid k = Ok tt /\ private_version (version k).

Definition valid_xpub (k : BIP32KeyData) : Prop :=
  assert_valid k = Ok tt /\ public_version (version k).

End Invariants.

(** ** Contracts of the other modules

    What the derivation code relies on: the curve is a group of order
    [ec_n] generated by [G], with [mult] the scalar multiple of [G]; the
    compressed encoding of a point is 33 bytes that decode back to the
    point, and the point at infinity [mult 0] has none; the digests have
    their lengths; Base58Check decodes what it encoded and its text has
    neither blanks nor non-ASCII characters; the two version tables are
    index-aligned, hold 4-byte tags and share none. *)
Class Laws (C : Collaborators) : Prop := {
  ec_n_range : 0 < ec_n <= 2 ^ 256;
  mult_mod : forall a, mult (a mod ec_n) = mult a;
  ec_add_mult : forall a b, ec_add (mult a) (mult b) = Ok (mult (a + b));
  bytes_from_mult : forall a, 0 < a < ec_n ->
    exists bs, bytes_from_point (mult a) = Ok bs;
  bytes_from_zero : exists e, bytes_from_point (mult 0) = Err e;
  bytes_from_point_sec : forall P bs, bytes_from_point P = Ok bs ->
    length bs = 33%nat
    /\ (byte0 bs = Ok 2 \/ byte0 bs = Ok 3)
    /\ (exists y, ec_y (from_bytes (tl bs)) = Ok y)
    /\ point_from_octets bs = Ok P;
  point_from_sec : forall bs y, length bs = 33%nat ->
    byte0 bs = Ok 2 \/ byte0 bs = Ok 3 ->
    ec_y (from_bytes (tl bs)) = Ok y ->
    exists P, point_from_octets bs = Ok P;
  hmac_sha512_length : forall k m, length (hmac_sha512 k m) = 64%nat;
  hash160_length : forall m, length (hash160 m) = 20%nat;
  base58_bytes : forall x,
    base58_b58decode (PyBytes (base58_b58encode x)) = Ok x;
  base58_str : forall x,
    base58_b58decode (PyStr (base58_b58encode x)) = Ok x;
  base58_text : forall x,
    forallb (fun c => negb (is_space c) && (Z_of_byte c <? 128))
      (base58_b58encode x) = true;
  octets_bytes : forall b, bytes_from_octets (PyBytes b) None = Ok b;
  octets_sized : forall b n, length b = n ->
    bytes_from_octets (PyBytes b) (Some n) = Ok b;
  octets_size : forall o n b,
    bytes_from_octets o (Some n) = Ok b -> length b = n;
  bytesio_bytes : forall b, bytesio_from_binarydata (PyBytes b) = Ok b;
  versions_aligned :
    length _XPRV_VERSIONS_ALL = length _XPUB_VERSIONS_ALL;
  versions_length : forall v,
    In v (_XPRV_VERSIONS_ALL ++ _XPUB_VERSIONS_ALL) -> length v = 4%nat;
  versions_disjoint : forall v,
    In v _XPRV_VERSIONS_ALL -> ~ In v _XPUB_VERSIONS_ALL
}.

(** ** A model of the contracts

    The additive group of the integers modulo the order of secp256k1 stands
    for the curve ([mult m] is [m mod n], the encoding of a point is its
    residue), the digests copy a prefix of their input, and Base58Check
    writes a byte as two letters.  The version tables are those of mainnet
    and testnet (the latter twice, as regtest shares it).  The functions of
    this file run on it. *)
Module Model.

Definition n : Z :=
  0xFFFFFFFFFFFFFFFFFFFFFFFFFFFFFFFEBAAEDCE6AF48A03BBFD25E8CD0364141.

Definition on_curve (x : Z) : bool := (0 <? x) && (x <? n).

Definition pad (len : nat) (bs : bytes) : bytes :=
  firstn len (bs ++ repeat x00 len).

Definition sec_encode (P : Z) : result bytes :=
  if on_curve P then Ok (x02 :: be_bytes 32 P) else Err (External 1).

Definition sec_decode (bs : bytes) : result Z :=
  match bs with
  | b :: x =>
      if ((Z_of_byte b =? 2) || (Z_of_byte b =? 3))
         && (length x =? 32)%nat && on_curve (from_bytes x)
      then Ok (from_bytes x) else Err (External 2)
  | [] => Err (External 2)
  end.

Definition y_of_x (x : Z) : result Z :=
  if on_curve x then Ok x else Err (External 3).

(** [hmac key msg]: the key then the message, each cut or padded to 32
    bytes *)
Definition hmac (k m : bytes) : bytes := pad 32 k ++ pad 32 m.

Definition letter (v : Z) : byte := byte_of_Z (97 + v).

Definition text_encode (bs : bytes) : bytes :=
  flat_map (fun b => [letter (Z_of_byte b / 16);
                      letter (Z_of_byte b mod 16)]) bs.

Definition is_letter (c : byte) : bool :=
  (97 <=? Z_of_byte c) && (Z_of_byte c <? 113).

Fixpoint pairs (fuel : nat) (s : bytes) : result bytes :=
  match fuel, s with
  | _, [] => Ok []
  | S fuel', h :: l :: t =>
      if is_letter h && is_letter l
      then rest <- pairs fuel' t ;;
           Ok (byte_of_Z (16 * (Z_of_byte h - 97) + (Z_of_byte l - 97))
               :: rest)
      else Err (External 4)
  | _, _ => Err (External 4)
  end.

Definition text_decode (s : String) : result bytes :=
  match s with
  | PyStr s | PyBytes s => pairs (length s) s
  end.

(** Hexadecimal strings are not read by this model. *)
Definition octets (o : String) (size : option nat) : result bytes :=
  match o with
  | PyStr _ => Err (External 5)
  | PyBytes b =>
      match size with
      | None => Ok b
      | Some len => if (length b =? len)%nat then Ok b else Err (External 6)
      end
  end.

Definition xprv_versions_mainnet : list bytes :=
  [[x04; x88; xad; xe4]; [x02; x95; xb0; x05]; [x04; x9d; x78; x78];
   [x04; xb2; x43; x0c]; [x02; xaa; x7a; x99]].

Definition xpub_versions_mainnet : list bytes :=
  [[x04; x88; xb2; x1e]; [x02; x95; xb4; x3f]; [x04; x9d; x7c; xb2];
   [x04; xb2; x47; x46]; [x02; xaa; x7e; xd3]].

Definition xprv_versions_testnet : list bytes :=
  [[x04; x35; x83; x94]; [x02; x42; x85; xb5]; [x04; x4a; x4e; x28];
   [x04; x5f; x18; xbc]; [x02; x57; x50; x48]].

Definition xpub_versions_testnet : list bytes :=
  [[x04; x35; x87; xcf]; [x02; x42; x89; xef]; [x04; x4a; x52; x62];
   [x04; x5f; x1c; xf6]; [x02; x57; x54; x83]].

(** The model with [h] for HMAC-SHA512 *)
Definition with_hmac (h : bytes -> bytes -> bytes) : Collaborators := {|
  Point := Z;
  INF := 0;
  ec_n := n;
  mult := fun m => m mod n;
  ec_add := fun P1 P2 => Ok ((P1 + P2) mod n);
  ec_y := y_of_x;
  bytes_from_point := sec_encode;
  point_from_octets := sec_decode;
  hmac_sha512 := h;
  hash160 := pad 20;
  base58_b58encode := text_encode;
  base58_b58decode := text_decode;
  bytes_from_octets := octets;
  bytesio_from_binarydata := fun o => octets o None;
  BIP32DerPath := list Z;
  indexes_from_bip32_path := fun p => Ok p;
  _XPRV_VERSIONS_ALL :=
    xprv_versions_mainnet ++ xprv_versions_testnet ++ xprv_versions_testnet;
  _XPUB_VERSIONS_ALL :=
    xpub_versions_mainnet ++ xpub_versions_testnet ++ xpub_versions_testnet
|}.

(** The digest starts with the key ... *)
Definition collaborators : Collaborators := with_hmac hmac.

(** ... or with the message. *)
Definition swapped : Collaborators := with_hmac (fun k m => hmac m k).

(** *** Keys of the model *)

Definition xprv_tag : bytes := [x04; x88; xad; xe4].
Definition xpub_tag : bytes := [x04; x88; xb2; x1e].

(** A seed of 128 bits and the root key it gives in [collaborators] *)
Definition seed : bytes := repeat x01 16.

Definition root : BIP32KeyData :=
  mkBIP32KeyData xprv_tag 0 zero_fingerprint 0
    (pad 32 seed) (x00 :: pad 32 Bitcoin_seed).

(** The root key of scalar 5 and its neutered key *)
Definition five : BIP32KeyData :=
  mkBIP32KeyData xprv_tag 0 zero_fingerprint 0
    (pad 32 seed) (x00 :: be_bytes 32 5).

Definition five_pub : BIP32KeyData :=
  mkBIP32KeyData xpub_tag 0 zero_fingerprint 0
    (pad 32 seed) (x02 :: be_bytes 32 5).

(** A public key at the largest depth *)
Definition deep_pub : BIP32KeyData :=
  mkBIP32KeyData xpub_tag 255 (pad 4 seed) 7
    (pad 32 seed) (x02 :: be_bytes 32 5).

(** A private key of scalar 1 whose chain code is [n - 1]: in
    [collaborators] the left half of every digest keyed by this chain code
    is [n - 1], so that every child scalar is [(1 + (n - 1)) mod n = 0]. *)
Definition degenerate : BIP32KeyData :=
  mkBIP32KeyData xprv_tag 0 zero_fingerprint 0
    (be_bytes 32 (n - 1)) (x00 :: be_bytes 32 1).

(** A key with a private version and the key bytes of a public key, as
    [BIP32KeyData(..., check_validity=False)] lets one build *)
Definition mixed : BIP32KeyData :=
  mkBIP32KeyData xprv_tag 0 zero_fingerprint 0
    (pad 32 seed) (x02 :: be_bytes 32 5).

(** Two hardened private keys: one with the depth and the parent
    fingerprint of a child of [five_pub], one two levels down *)
Definition hardened_child : BIP32KeyData :=
  mkBIP32KeyData xprv_tag 1 (pad 4 (key five_pub)) 0x80000000
    (pad 32 seed) (x00 :: be_bytes 32 9).

Definition hardened_grandchild : BIP32KeyData :=
  mkBIP32KeyData xprv_tag 2 (pad 4 (key five_pub)) 0x80000000
    (pad 32 seed) (x00 :: be_bytes 32 9).

(** A seed of 256 bits whose digest in [swapped] has a zero left half *)
Definition zero_seed : bytes := repeat x00 32.

(** The serialization of [root] followed by two bytes *)
Definition long_data : bytes := wire root ++ [xff; xff].

End Model.


(** ** Derivation from an account key *)

(** The result of a function that raises exceptions of its own, of type [E],
    besides returning a value *)
Inductive outcome (E A : Type) :=
| Returned (a : A)
| Failed (e : E).
Arguments Returned {E A} a.
Arguments Failed {E A} e.

Definition obind {E A B} (r : outcome E A) (f : A -> outcome E B)
  : outcome E B :=
  match r with
  | Returned a => f a
  | Failed e => Failed e
  end.

Notation "x <-- r ;; k" := (obind r (fun x => k))
  (at level 61, r at next level, right associativity).

(** What [_derive_from_account] and [_mxprv_from_electrum_mnemonic] raise:
    the [UserWarning] and the three [BTClibValueError]s of the first, the
    [BTClibValueError] of the second, and what the functions they call
    raise *)
Inductive wallet_error :=
| PublicDerivationAtAccount
| PrivateDerivationAtBranch
| InvalidBranch
| PrivateDerivationAtAddressIndex
| UnmanagedElectrumVersion
| Raised (e : error).

Definition lift {A} (r : result A) : outcome wallet_error A :=
  match r with
  | Ok a => Returned a
  | Err e => Failed (Raised e)
  end.

(** The decimal digits of [v >= 0] before [acc], most significant first *)
Fixpoint digits (fuel : nat) (v : Z) (acc : list byte) : list byte :=
  match fuel with
  | O => acc
  | S fuel' =>
      let acc := byte_of_Z (48 + v mod 10) :: acc in
      if v <? 10 then acc else digits fuel' (v / 10) acc
  end.

(** [str(v)] of an [int], as an f-string writes it *)
Definition str_of_int (v : Z) : list byte :=
  if v <? 0
  then "-"%byte :: digits (S (Z.to_nat (Z.log2 (- v)))) (- v) []
  else digits (S (Z.to_nat (Z.log2 v))) v [].

(** [f"m/{branch}/{address_index}"] *)
Definition account_path (branch address_index : Z) : list byte :=
  ["m"; "/"]%byte ++ str_of_int branch ++ ["/"]%byte
  ++ str_of_int address_index.

Section Account.

Context {C : Collaborators}.

(** A [str] as a [BIP32DerPath], the union type that holds it *)
Variable str_path : list byte -> BIP32DerPath.

Definition _derive_from_account (xkey : BIP32Key)
    (branch address_index : Z) (branches_0_1_only : bool)
  : outcome wallet_error (_ExtendedBIP32KeyData Point) :=
  xkey <-- lift (key_data xkey) ;;
  if negb (is_hardened xkey) then Failed PublicDerivationAtAccount else
  if branch >=? 0x80000000 then Failed PrivateDerivationAtBranch else
  if branches_0_1_only && negb ((branch =? 0) || (branch =? 1))
  then Failed InvalidBranch else
  if address_index >=? 0x80000000
  then Failed PrivateDerivationAtAddressIndex else
  lift (_derive (KeyData xkey)
          (str_path (account_path branch address_index)) None).

Definition derive_from_account (xkey : BIP32Key)
    (branch address_index : Z) (branches_0_1_only : bool)
  : outcome wallet_error (list byte) :=
  xkey <-- _derive_from_account xkey branch address_index
             branches_0_1_only ;;
  lift (b58encode_str (xdata xkey)).

End Account.

(** ** The master key of an Electrum mnemonic *)

Section Electrum.

Context {C : Collaborators}.

(** [mnemonic.Mnemonic] and [electrum._seed_from_mnemonic], which gives
    the version of the mnemonic and its seed *)
Variable Mnemonic : Type.
Variable _seed_from_mnemonic :
  Mnemonic -> list byte -> result (list byte * bytes).

(** [network._NETWORKS], [network._XPRV_PREFIXES] and
    [network._P2WPKH_PRV_PREFIXES] *)
Variable _NETWORKS : list (list byte).
Variables _XPRV_PREFIXES _P2WPKH_PRV_PREFIXES : list bytes.

(** An [int] as a [BIP32DerPath], the union type that holds it *)
Variable int_path : Z -> BIP32DerPath.

(** [passphrase or ""] *)
Definition or_empty (passphrase : option (list byte)) : list byte :=
  match passphrase with
  | Some p => p
  | None => []
  end.

(** The key data is returned; the cache of the derivation that the
    "segwit" branch leaves on it is not modelled. *)
Definition _mxprv_from_electrum_mnemonic (mnemonic : Mnemonic)
    (passphrase : option (list byte)) (network : list byte)
  : outcome wallet_error BIP32KeyData :=
  vs <-- lift (_seed_from_mnemonic mnemonic (or_empty passphrase)) ;;
  let '(version, seed) := vs in
  network_index <-- match index_of network _NETWORKS with
                    | Some i => Returned i
                    | None => Failed (Raised ValueError)
                    end ;;
  if bytes_eqb version ["s"; "t"; "a"; "n"; "d"; "a"; "r"; "d"]%byte then
    xversion <-- match nth_error _XPRV_PREFIXES network_index with
                 | Some v => Returned v
                 | None => Failed (Raised IndexError)
                 end ;;
    lift (_rootxprv_from_seed (PyBytes seed) (PyBytes xversion))
  else if bytes_eqb version ["s"; "e"; "g"; "w"; "i"; "t"]%byte then
    xversion <-- match nth_error _P2WPKH_PRV_PREFIXES network_index with
                 | Some v => Returned v
                 | None => Failed (Raised IndexError)
                 end ;;
    rootxprv <-- lift (rootxprv_from_seed (PyBytes seed)
                         (PyBytes xversion)) ;;
    xkey <-- lift (_derive (KeyStr (PyStr rootxprv))
                     (int_path 0x80000000) None) ;;
    Returned (xdata xkey)
  else Failed UnmanagedElectrumVersion.

Definition mxprv_from_electrum_mnemonic (mnemonic : Mnemonic)
    (passphrase : option (list byte)) (network : list byte)
  : outcome wallet_error (list byte) :=
  xkey <-- _mxprv_from_electrum_mnemonic mnemonic passphrase network ;;
  lift (b58encode_str xkey).

End Electrum.

(** ** Network constants: [btclib/network.py] *)

Module network.

(** The names of the attributes of a network that hold bytes *)
Inductive attr :=
| attr_magic_bytes
| attr_genesis_block
| attr_wif
| attr_p2pkh
| attr_p2sh
| attr_bip32_prv
| attr_bip32_pub
| attr_slip132_p2wpkh_prv
| attr_slip132_p2wpkh_pub
| attr_slip132_p2wpkh_p2sh_prv
| attr_slip132_p2wpkh_p2sh_pub
| attr_slip132_p2wsh_prv
| attr_slip132_p2wsh_pub
| attr_slip132_p2wsh_p2sh_prv
| attr_slip132_p2wsh_p2sh_pub.

Definition _KEY_SIZE : list (attr * nat) :=
  [(attr_magic_bytes, 4%nat);
   (attr_genesis_block, 32%nat);
   (attr_wif, 1%nat);
   (attr_p2pkh, 1%nat);
   (attr_p2sh, 1%nat);
   (attr_bip32_prv, 4%nat);
   (attr_bip32_pub, 4%nat);
   (attr_slip132_p2wpkh_prv, 4%nat);
   (attr_slip132_p2wpkh_pub, 4%nat);
   (attr_slip132_p2wpkh_p2sh_prv, 4%nat);
   (attr_slip132_p2wpkh_p2sh_pub, 4%nat);
   (attr_slip132_p2wsh_prv, 4%nat);
   (attr_slip132_p2wsh_pub, 4%nat);
   (attr_slip132_p2wsh_p2sh_prv, 4%nat);
   (attr_slip132_p2wsh_p2sh_pub, 4%nat)].

(** The exceptions of the module: the [BTClibValueError] of [assert_valid],
    which names the attribute, the [KeyError] of [NETWORKS[name]], the
    [ValueError] of [list.index] and the [IndexError] of [list[i]] *)
Inductive exn :=
| InvalidLength (key : attr)
| KeyError
| NotInList
| OutOfRange.

Record Network (Curve : Type) := mkNetwork {
  curve : Curve;
  magic_bytes : bytes;
  genesis_block : bytes;
  wif : bytes;
  p2pkh : bytes;
  p2sh : bytes;
  hrp : list byte;
  bip32_prv : bytes;
  bip32_pub : bytes;
  slip132_p2wpkh_prv : bytes;
  slip132_p2wpkh_pub : bytes;
  slip132_p2wpkh_p2sh_prv : bytes;
  slip132_p2wpkh_p2sh_pub : bytes;
  slip132_p2wsh_prv : bytes;
  slip132_p2wsh_pub : bytes;
  slip132_p2wsh_p2sh_prv : bytes;
  slip132_p2wsh_p2sh_pub : bytes
}.
Arguments curve {Curve} _.
Arguments magic_bytes {Curve} _.
Arguments genesis_block {Curve} _.
Arguments wif {Curve} _.
Arguments p2pkh {Curve} _.
Arguments p2sh {Curve} _.
Arguments hrp {Curve} _.
Arguments bip32_prv {Curve} _.
Arguments bip32_pub {Curve} _.
Arguments slip132_p2wpkh_prv {Curve} _.
Arguments slip132_p2wpkh_pub {Curve} _.
Arguments slip132_p2wpkh_p2sh_prv {Curve} _.
Arguments slip132_p2wpkh_p2sh_pub {Curve} _.
Arguments slip132_p2wsh_prv {Curve} _.
Arguments slip132_p2wsh_pub {Curve} _.
Arguments slip132_p2wsh_p2sh_prv {Curve} _.
Arguments slip132_p2wsh_p2sh_pub {Curve} _.

(** [str.lower] on the code points below 256 *)
Definition lower_char (c : byte) : byte :=
  let z := Z_of_byte c in
  if ((65 <=? z) && (z <=? 90))
     || ((192 <=? z) && (z <=? 222) && negb (z =? 215))
  then byte_of_Z (z + 32) else c.

Definition lower (s : list byte) : list byte := map lower_char s.

(** [table[i]] *)
Definition item {A} (table : list A) (i : nat) : outcome exn A :=
  match nth_error table i with
  | Some a => Returned a
  | None => Failed OutOfRange
  end.

Section Networks.

Context {Curve : Type}.

(** [getattr(self, key)] *)
Definition getattr (self : Network Curve) (key : attr) : bytes :=
  match key with
  | attr_magic_bytes => magic_bytes self
  | attr_genesis_block => genesis_block self
  | attr_wif => wif self
  | attr_p2pkh => p2pkh self
  | attr_p2sh => p2sh self
  | attr_bip32_prv => bip32_prv self
  | attr_bip32_pub => bip32_pub self
  | attr_slip132_p2wpkh_prv => slip132_p2wpkh_prv self
  | attr_slip132_p2wpkh_pub => slip132_p2wpkh_pub self
  | attr_slip132_p2wpkh_p2sh_prv => slip132_p2wpkh_p2sh_prv self
  | attr_slip132_p2wpkh_p2sh_pub => slip132_p2wpkh_p2sh_pub self
  | attr_slip132_p2wsh_prv => slip132_p2wsh_prv self
  | attr_slip132_p2wsh_pub => slip132_p2wsh_pub self
  | attr_slip132_p2wsh_p2sh_prv => slip132_p2wsh_p2sh_prv self
  | attr_slip132_p2wsh_p2sh_pub => slip132_p2wsh_p2sh_pub self
  end.

(** The loop [for key, size in ...] of [assert_valid] *)
Fixpoint check_sizes (self : Network Curve) (sizes : list (attr * nat))
  : outcome exn unit :=
  match sizes with
  | [] => Returned tt
  | (key, size) :: rest =>
      let value := getattr self key in
      if negb (length value =? size)%nat then Failed (InvalidLength key)
      else check_sizes self rest
  end.

Definition assert_valid (self : Network Curve) : outcome exn unit :=
  check_sizes self _KEY_SIZE.

(** The networks read from the data files [mainnet.json], [testnet.json]
    and [regtest.json] when the module is imported *)
Variables mainnet testnet regtest : Network Curve.

Definition NETWORKS : list (list byte * Network Curve) :=
  [(["m"; "a"; "i"; "n"; "n"; "e"; "t"]%byte, mainnet);
   (["t"; "e"; "s"; "t"; "n"; "e"; "t"]%byte, testnet);
   (["r"; "e"; "g"; "t"; "e"; "s"; "t"]%byte, regtest)].

(** [NETWORKS[name]] *)
Fixpoint lookup (name : list byte) (d : list (list byte * Network Curve))
  : outcome exn (Network Curve) :=
  match d with
  | [] => Failed KeyError
  | (k, v) :: rest => if bytes_eqb k name then Returned v
                      else lookup name rest
  end.

Definition xpubversions_from_network (network : list byte)
  : outcome exn (list bytes) :=
  let network := lower (strip network) in
  n1 <-- lookup network NETWORKS ;;
  n2 <-- lookup network NETWORKS ;;
  n3 <-- lookup network NETWORKS ;;
  n4 <-- lookup network NETWORKS ;;
  n5 <-- lookup network NETWORKS ;;
  Returned [bip32_pub n1;
            slip132_p2wsh_p2sh_pub n2;
            slip132_p2wpkh_p2sh_pub n3;
            slip132_p2wpkh_pub n4;
            slip132_p2wsh_pub n5].

Definition xprvversions_from_network (network : list byte)
  : outcome exn (list bytes) :=
  let network := lower (strip network) in
  n1 <-- lookup network NETWORKS ;;
  n2 <-- lookup network NETWORKS ;;
  n3 <-- lookup network NETWORKS ;;
  n4 <-- lookup network NETWORKS ;;
  n5 <-- lookup network NETWORKS ;;
  Returned [bip32_prv n1;
            slip132_p2wsh_p2sh_prv n2;
            slip132_p2wpkh_p2sh_prv n3;
            slip132_p2wpkh_prv n4;
            slip132_p2wsh_prv n5].

(** The constants of the module, computed when it is imported *)
Definition XPRV_VERSIONS_ALL : outcome exn (list bytes) :=
  m <-- xprvversions_from_network ["m"; "a"; "i"; "n"; "n"; "e"; "t"]%byte ;;
  t <-- xprvversions_from_network ["t"; "e"; "s"; "t"; "n"; "e"; "t"]%byte ;;
  Returned (m ++ (t ++ t)).

Definition XPUB_VERSIONS_ALL : outcome exn (list bytes) :=
  m <-- xpubversions_from_network ["m"; "a"; "i"; "n"; "n"; "e"; "t"]%byte ;;
  t <-- xpubversions_from_network ["t"; "e"; "s"; "t"; "n"; "e"; "t"]%byte ;;
  Returned (m ++ (t ++ t)).

Definition n_versions : outcome exn nat :=
  m <-- xprvversions_from_network ["m"; "a"; "i"; "n"; "n"; "e"; "t"]%byte ;;
  Returned (length m).

Definition _NETWORKS : list (list byte) := map fst NETWORKS.

Definition _REPEATED_NETWORKS : outcome exn (list (list byte)) :=
  n <-- n_versions ;;
  n0 <-- item _NETWORKS 0 ;;
  n1 <-- item _NETWORKS 1 ;;
  n2 <-- item _NETWORKS 2 ;;
  Returned (repeat n0 n ++ repeat n1 n ++ repeat n2 n).

(** A function of the module runs once the module is imported, its
    constants computed. *)
Definition network_from_xkeyversion (xkeyversion : bytes)
  : outcome exn (list byte) :=
  xprv_versions_all <-- XPRV_VERSIONS_ALL ;;
  xpub_versions_all <-- XPUB_VERSIONS_ALL ;;
  repeated_networks <-- _REPEATED_NETWORKS ;;
  index <-- match index_of xkeyversion xprv_versions_all with
            | Some i => Returned i
            | None =>
                match index_of xkeyversion xpub_versions_all with
                | Some i => Returned i
                | None => Failed NotInList
                end
            end ;;
  item repeated_networks index.

Definition curve_from_xkeyversion (xkeyversion : bytes)
  : outcome exn Curve :=
  network <-- network_from_xkeyversion xkeyversion ;;
  n <-- lookup network NETWORKS ;;
  Returned (curve n).

End Networks.

End network.

(** ** Blocks: [btclib/blocks.py] *)

Module blocks.

(** The header of a block; [Time] is the type of [datetime] values.  The
    field [merkle_root] is written [merkle_root_], the function of the same
    name being declared below. *)
Record BlockHeader (Time : Type) := mkBlockHeader {
  version : Z;
  previous_block_hash : bytes;
  merkle_root_ : bytes;
  time : Time;
  bits : bytes;
  nonce : Z
}.
Arguments version {Time} _.
Arguments previous_block_hash {Time} _.
Arguments merkle_root_ {Time} _.
Arguments time {Time} _.
Arguments bits {Time} _.
Arguments nonce {Time} _.

Section Header.

Context {Time : Type}.

(** The properties [bip9], [bip141] and [bip91]; [>>] and [&] bind tighter
    than [==] *)
Definition bip9 (self : BlockHeader Time) : bool :=
  Z.shiftr (version self) 29 =? 1.

Definition bip141 (self : BlockHeader Time) : bool :=
  bip9 self && (Z.land (Z.shiftr (version self) 1) 1 =? 1).

Definition bip91 (self : BlockHeader Time) : bool :=
  bip141 self && (Z.land (Z.shiftr (version self) 4) 1 =? 1).

End Header.

Section Merkle.

(** [utils.hash256], and the transactions with their [txid] *)
Variable hash256 : bytes -> bytes.
Variable Tx : Type.
Variable txid : Tx -> bytes.

(** The loop [for i in range(len(hashes) // 2)]: the hashes of the pairs
    [hashes[2 * i] + hashes[2 * i + 1]] *)
Fixpoint pair_hashes (hashes : list bytes) : list bytes :=
  match hashes with
  | a :: b :: rest => hash256 (a ++ b) :: pair_hashes rest
  | _ => []
  end.

(** The loop [while len(hashes) != 1], run for at most [fuel] rounds;
    [None] when the rounds are spent before the loop ends *)
Fixpoint rounds (fuel : nat) (hashes : list bytes) : option (list bytes) :=
  match fuel with
  | O => if negb (length hashes =? 1)%nat then None else Some hashes
  | S fuel' =>
      if negb (length hashes =? 1)%nat then
        let hashes :=
          if negb (length hashes mod 2 =? 0)%nat
          then hashes ++ [last hashes []] else hashes in
        rounds fuel' (pair_hashes hashes)
      else Some hashes
  end.

Definition merkle_root (fuel : nat) (transactions : list Tx)
  : option bytes :=
  let hashes := map (fun transaction => rev (txid transaction))
                  transactions in
  match rounds fuel hashes with
  | Some hashes => Some (rev (hd [] hashes))
  | None => None
  end.

End Merkle.

End blocks.

(** ** Wallet import format and addresses: [btclib/wifaddress.py] *)

Module wifaddress.

(** What the module raises: the [ValueError] of [list.index], its own
    [ValueError]s, one constructor per message, and what the functions it
    calls raise *)
Inductive exn :=
| NotInList
| PrvKeyNotInRange
| MissingTrailing01
| WrongSize
| WifKeyNotInRange
| OtherNetwork
| OutOfRange
| Raised (e : error).

(** The functions of other modules: the curve [secp256k1] with its size
    [nsize] and order [n], [curve.mult], the functions of [utils],
    [base58.encode] and [base58.decode(v, output_size)], and
    [bytes.fromhex] *)
Class Library := {
  Point : Type;
  nsize : nat;
  n : Z;
  mult : Z -> Point;
  octets_from_point : Point -> bool -> result bytes;
  octets_from_int : Z -> nat -> result bytes;
  int_from_octets : bytes -> result Z;
  h160 : String -> result bytes;
  encode : bytes -> bytes;
  decode : String -> option nat -> result bytes;
  fromhex : list byte -> result bytes
}.

Definition _NETWORKS : list (list byte) :=
  [["m"; "a"; "i"; "n"; "n"; "e"; "t"]%byte;
   ["t"; "e"; "s"; "t"; "n"; "e"; "t"]%byte;
   ["r"; "e"; "g"; "t"; "e"; "s"; "t"]%byte].

(** The three curves are [secp256k1]. *)
Definition _CURVES : list unit := [tt; tt; tt].

Definition _WIF_PREFIXES : list bytes := [[x80]; [xef]; [xef]].
Definition _P2PKH_PREFIXES : list bytes := [[x00]; [x6f]; [x6f]].
Definition _P2SH_PREFIXES : list bytes := [[x05]; [xc4]; [xc4]].

(** [table.index(v)] *)
Definition index (v : bytes) (table : list bytes) : outcome exn nat :=
  match index_of v table with
  | Some i => Returned i
  | None => Failed NotInList
  end.

(** [table[i]] *)
Definition item {A} (table : list A) (i : nat) : outcome exn A :=
  match nth_error table i with
  | Some a => Returned a
  | None => Failed OutOfRange
  end.

Definition lift {A} (r : result A) : outcome exn A :=
  match r with
  | Ok a => Returned a
  | Err e => Failed (Raised e)
  end.

(** A private key: an [int] or [Octets] *)
Inductive PrvKey :=
| KeyInt (z : Z)
| KeyOctets (o : String).

(** [s.strip()] when [s] is a [str] *)
Definition stripped (s : String) : String :=
  match s with
  | PyStr t => PyStr (strip t)
  | PyBytes b => PyBytes b
  end.

Section Functions.

Context {lib : Library}.

Definition wif_from_prvkey (prvkey : PrvKey) (compressed : bool)
    (network : list byte) : outcome exn bytes :=
  network_index <-- index network _NETWORKS ;;
  payload <-- item _WIF_PREFIXES network_index ;;
  ec <-- item _CURVES network_index ;;
  pk <-- match prvkey with
         | KeyInt z =>
             o <-- lift (octets_from_int z nsize) ;;
             Returned (payload ++ o, z)
         | KeyOctets (PyStr s) =>
             t <-- lift (fromhex (strip s)) ;;
             Returned (payload ++ t, from_bytes t)
         | KeyOctets (PyBytes b) =>
             Returned (payload ++ b, from_bytes b)
         end ;;
  let '(payload, prvkey) := pk in
  if negb ((0 <? prvkey) && (prvkey <? n)) then Failed PrvKeyNotInRange
  else
    let payload := payload ++ (if compressed then [x01] else []) in
    Returned (encode payload).

Definition prvkey_from_wif (wif : String)
  : outcome exn (Z * bool * list byte) :=
  let wif := stripped wif in
  payload <-- lift (decode wif None) ;;
  wif_index <-- index (firstn 1 payload) _WIF_PREFIXES ;;
  ec <-- item _CURVES wif_index ;;
  cp <-- (if (length payload =? nsize + 2)%nat then
            if negb (Z_of_byte (last payload x00) =? 1)
            then Failed MissingTrailing01
            else
              prv <-- lift (int_from_octets
                              (firstn (length payload - 2)
                                 (skipn 1 payload))) ;;
              Returned (true, prv)
          else if (length payload =? nsize + 1)%nat then
            prv <-- lift (int_from_octets (skipn 1 payload)) ;;
            Returned (false, prv)
          else Failed WrongSize) ;;
  let '(compressed, prv) := cp in
  if negb ((0 <? prv) && (prv <? n)) then Failed WifKeyNotInRange
  else
    network <-- item _NETWORKS wif_index ;;
    Returned (prv, compressed, network).

Definition p2pkh_address (pubkey : String) (network : list byte)
  : outcome exn bytes :=
  i <-- index network _NETWORKS ;;
  payload <-- item _P2PKH_PREFIXES i ;;
  h <-- lift (h160 pubkey) ;;
  let payload := payload ++ h in
  Returned (encode payload).

Definition p2pkh_address_from_wif (wif : String) : outcome exn bytes :=
  let wif := stripped wif in
  r <-- prvkey_from_wif wif ;;
  let '(prv, compressed, network) := r in
  network_index <-- index network _NETWORKS ;;
  ec <-- item _CURVES network_index ;;
  let Pub := mult prv in
  o <-- lift (octets_from_point Pub compressed) ;;
  p2pkh_address (PyBytes o) network.

Definition h160_from_p2pkh_address (address : String)
    (network : list byte) : outcome exn bytes :=
  let address := stripped address in
  payload <-- lift (decode address (Some 21%nat)) ;;
  i <-- index (firstn 1 payload) _P2PKH_PREFIXES ;;
  net <-- item _NETWORKS i ;;
  if negb (bytes_eqb net network) then Failed OtherNetwork
  else Returned (skipn 1 payload).

Definition p2sh_address (redeem_script : String) (network : list byte)
  : outcome exn bytes :=
  i <-- index network _NETWORKS ;;
  payload <-- item _P2SH_PREFIXES i ;;
  h <-- lift (h160 redeem_script) ;;
  let payload := payload ++ h in
  Returned (encode payload).

Definition h160_from_p2sh_address (address : String)
    (network : list byte) : outcome exn bytes :=
  let address := stripped address in
  payload <-- lift (decode address (Some 21%nat)) ;;
  i <-- index (firstn 1 payload) _P2SH_PREFIXES ;;
  net <-- item _NETWORKS i ;;
  if negb (bytes_eqb net network) then Failed OtherNetwork
  else Returned (skipn 1 payload).

End Functions.

(** Contracts of the functions of the other modules: the order of the
    curve fits [nsize] bytes; [octets_from_int] writes an integer that fits
    on [size] bytes, big-endian, and [int_from_octets] reads bytes
    big-endian; [h160] gives 20 bytes; [base58.decode] gives back what
    [base58.encode] was given, provided it has the size asked for, if
    any. *)
Class Contracts (lib : Library) : Prop := {
  n_range : 0 < n <= 256 ^ Z.of_nat nsize;
  octets_from_int_fits : forall v size,
    0 <= v < 256 ^ Z.of_nat size ->
    octets_from_int v size = Ok (be_bytes size v);
  int_from_octets_bytes : forall b, int_from_octets b = Ok (from_bytes b);
  h160_length : forall o h, h160 o = Ok h -> length h = 20%nat;
  decode_encode : forall p,
    decode (PyBytes (encode p)) None = Ok p;
  decode_encode_size : forall p size,
    length p = size -> decode (PyBytes (encode p)) (Some size) = Ok p
}.

End wifaddress.

(** A library for the examples: the curve, the hash and the text encoding
    of the model above *)
Module WifModel.

Definition decode (s : String) (size : option nat) : result bytes :=
  p <- Model.text_decode s ;;
  match size with
  | None => Ok p
  | Some len => if (length p =? len)%nat then Ok p else Err (External 7)
  end.

Definition library : wifaddress.Library := {|
  wifaddress.Point := Z;
  wifaddress.nsize := 32;
  wifaddress.n := Model.n;
  wifaddress.mult := fun m => m mod Model.n;
  wifaddress.octets_from_point := fun P _ => Model.sec_encode P;
  wifaddress.octets_from_int := fun v size => to_bytes size v;
  wifaddress.int_from_octets := fun b => Ok (from_bytes b);
  wifaddress.h160 := fun o => b <- Model.octets o None ;; Ok (Model.pad 20 b);
  wifaddress.encode := Model.text_encode;
  wifaddress.decode := decode;
  wifaddress.fromhex := fun _ => Err (External 8)
|}.

End WifModel.

(** ** A model for the account-level functions

    Paths as texts of the form [m/<decimal>/<decimal>], read into the lists
    of indexes that are the paths of the model. *)
Module AccountModel.

Definition number (s : list byte) : Z :=
  fold_left (fun acc c => acc * 10 + (Z_of_byte c - 48)) s 0.

Fixpoint fields (s cur : list byte) : list (list byte) :=
  match s with
  | [] => [rev cur]
  | c :: t => if byte_eqb c "/"%byte then rev cur :: fields t []
              else fields t (c :: cur)
  end.

Definition str_path (s : list byte) : list Z :=
  map number (tl (fields s [])).

(** A public account key: hardened index, depth 1 *)
Definition account_pub : BIP32KeyData :=
  mkBIP32KeyData Model.xpub_tag 1 (Model.pad 4 (key Model.five_pub))
    0x80000000 (Model.pad 32 Model.seed) (x02 :: be_bytes 32 9).

(** An Electrum collaborator that knows two mnemonics, one of each
    version, with the seed of the model; the private prefixes of mainnet
    and testnet (regtest as testnet); an index as a path of one index *)
Definition _seed_from_mnemonic (mnemonic : bool) (passphrase : list byte)
  : result (list byte * bytes) :=
  if mnemonic
  then Ok (["s"; "e"; "g"; "w"; "i"; "t"]%byte, Model.seed)
  else Ok (["s"; "t"; "a"; "n"; "d"; "a"; "r"; "d"]%byte, Model.seed).

Definition _NETWORKS : list (list byte) :=
  [["m"; "a"; "i"; "n"; "n"; "e"; "t"]%byte;
   ["t"; "e"; "s"; "t"; "n"; "e"; "t"]%byte;
   ["r"; "e"; "g"; "t"; "e"; "s"; "t"]%byte].

Definition _XPRV_PREFIXES : list bytes :=
  [[x04; x88; xad; xe4]; [x04; x35; x83; x94]; [x04; x35; x83; x94]].

Definition _P2WPKH_PRV_PREFIXES : list bytes :=
  [[x04; xb2; x43; x0c]; [x04; x5f; x18; xbc]; [x04; x5f; x18; xbc]].

Definition int_path (i : Z) : list Z := [i].

End AccountModel.

(** ** Networks for the examples: the version tags of mainnet and testnet,
    regtest sharing those of testnet *)
Module NetworkModel.

Definition net (magic : bytes) (w a s : byte) (name : list byte)
    (prv pub : list bytes) : network.Network unit :=
  network.mkNetwork unit tt magic (repeat x00 32) [w] [a] [s] name
    (nth 0 prv []) (nth 0 pub [])
    (nth 3 prv []) (nth 3 pub [])
    (nth 2 prv []) (nth 2 pub [])
    (nth 4 prv []) (nth 4 pub [])
    (nth 1 prv []) (nth 1 pub []).

Definition mainnet : network.Network unit :=
  net [xf9; xbe; xb4; xd9] x80 x00 x05 ["b"; "c"]%byte
    Model.xprv_versions_mainnet Model.xpub_versions_mainnet.

Definition testnet : network.Network unit :=
  net [x0b; x11; x09; x07] xef x6f xc4 ["t"; "b"]%byte
    Model.xprv_versions_testnet Model.xpub_versions_testnet.

Definition regtest : network.Network unit :=
  net [xfa; xbf; xb5; xda] xef x6f xc4 ["b"; "c"; "r"; "t"]%byte
    Model.xprv_versions_testnet Model.xpub_versions_testnet.

End NetworkModel.

(** * Properties *)

(** ** The error monad *)

Lemma bind_Ok {A B} (r : result A) (f : A -> result B) (b : B) :
  bind r f = Ok b -> exists a, r = Ok a /\ f a = Ok b.
Proof.
  destruct r as [a|e]; simpl; intros H; [eauto | discriminate].
Qed.

Lemma raise_if_Ok (b : bool) (e : error) (u : unit) :
  raise_if b e = Ok u -> b = false.
Proof.
  destruct b; simpl; [discriminate | reflexivity].
Qed.

Lemma raise_if_false (e : error) : raise_if false e = Ok tt.
Proof. reflexivity. Qed.

Lemma Ok_inj {A} (a b : A) : Ok a = Ok b -> a = b.
Proof. congruence. Qed.

(** Split the conjunctions of the goal, and nothing else. *)
Ltac splits := repeat match goal with |- _ /\ _ => split end.

(** From [H : Ok t = Ok x], with [x] a variable, replace [x] by [t]. *)
Ltac inv_ret H := apply Ok_inj in H; subst.

(** Inversion of a successful run, one binding at a time. *)
Ltac inv_ok H :=
  let a := fresh "a" in
  let Ha := fresh "Ha" in
  apply bind_Ok in H; destruct H as (a & Ha & H).

Ltac inv_raise H :=
  let u := fresh "u" in
  let Hu := fresh "Hu" in
  apply bind_Ok in H; destruct H as (u & Hu & H);
  apply raise_if_Ok in Hu; clear u.

(** ** Bytes and integers *)

Lemma Z_of_byte_range (b : byte) : 0 <= Z_of_byte b < 256.
Proof.
  unfold Z_of_byte. pose proof (Byte.to_N_bounded b). lia.
Qed.

Lemma byte_of_Z_of_byte (b : byte) : byte_of_Z (Z_of_byte b) = b.
Proof.
  unfold byte_of_Z, Z_of_byte. rewrite N2Z.id, Byte.of_to_N. reflexivity.
Qed.

Lemma Z_of_byte_of_Z (z : Z) : 0 <= z < 256 -> Z_of_byte (byte_of_Z z) = z.
Proof.
  intros Hz. unfold byte_of_Z, Z_of_byte.
  destruct (Byte.of_N (Z.to_N z)) as [b|] eqn:E.
  - apply Byte.to_of_N in E. rewrite E. lia.
  - apply Byte.of_N_None_iff in E. lia.
Qed.

Lemma Z_of_byte_inj (a b : byte) : Z_of_byte a = Z_of_byte b -> a = b.
Proof.
  intros H. rewrite <- (byte_of_Z_of_byte a), <- (byte_of_Z_of_byte b).
  now rewrite H.
Qed.

Lemma from_bytes_snoc (bs : bytes) (b : byte) :
  from_bytes (bs ++ [b]) = from_bytes bs * 256 + Z_of_byte b.
Proof.
  unfold from_bytes. rewrite fold_left_app. reflexivity.
Qed.

Lemma from_bytes_range (bs : bytes) :
  0 <= from_bytes bs < 256 ^ Z.of_nat (length bs).
Proof.
  induction bs as [|b bs IH] using rev_ind.
  - simpl. unfold from_bytes. simpl. lia.
  - rewrite from_bytes_snoc, length_app. simpl length.
    replace (Z.of_nat (length bs + 1)) with (Z.of_nat (length bs) + 1) by lia.
    rewrite Z.pow_add_r by lia.
    pose proof (Z_of_byte_range b). lia.
Qed.

Lemma be_bytes_length (len : nat) (v : Z) : length (be_bytes len v) = len.
Proof.
  revert v. induction len as [|len IH]; intros v; simpl.
  - reflexivity.
  - rewrite length_app, IH. simpl. lia.
Qed.

Lemma from_be_bytes (len : nat) (v : Z) :
  0 <= v < 256 ^ Z.of_nat len -> from_bytes (be_bytes len v) = v.
Proof.
  revert v. induction len as [|len IH]; intros v Hv.
  - simpl in *. unfold from_bytes. simpl. lia.
  - simpl be_bytes. rewrite from_bytes_snoc.
    replace (Z.of_nat (S len)) with (Z.of_nat len + 1) in Hv by lia.
    rewrite Z.pow_add_r in Hv by lia.
    rewrite IH.
    + rewrite Z_of_byte_of_Z by (apply Z.mod_pos_bound; lia).
      pose proof (Z.div_mod v 256). lia.
    + split.
      * apply Z.div_pos; lia.
      * apply Z.div_lt_upper_bound; lia.
Qed.

Lemma be_from_bytes (bs : bytes) : be_bytes (length bs) (from_bytes bs) = bs.
Proof.
  induction bs as [|b bs IH] using rev_ind.
  - reflexivity.
  - rewrite length_app. simpl length.
    replace (length bs + 1)%nat with (S (length bs)) by lia.
    simpl be_bytes. rewrite from_bytes_snoc.
    pose proof (Z_of_byte_range b).
    replace ((from_bytes bs * 256 + Z_of_byte b) / 256) with (from_bytes bs)
      by (apply Z.div_unique with (r := Z_of_byte b); lia).
    replace ((from_bytes bs * 256 + Z_of_byte b) mod 256) with (Z_of_byte b)
      by (apply Z.mod_unique with (q := from_bytes bs); lia).
    rewrite IH, byte_of_Z_of_byte. reflexivity.
Qed.

Lemma to_bytes_Ok (len : nat) (v : Z) :
  0 <= v < 256 ^ Z.of_nat len -> to_bytes len v = Ok (be_bytes len v).
Proof.
  intros Hv. unfold to_bytes.
  destruct (0 <=? v) eqn:E1; [|lia].
  destruct (v <? 256 ^ Z.of_nat len) eqn:E2; [|lia].
  reflexivity.
Qed.

Lemma to_bytes_inv (len : nat) (v : Z) (bs : bytes) :
  to_bytes len v = Ok bs ->
  0 <= v < 256 ^ Z.of_nat len /\ bs = be_bytes len v.
Proof.
  unfold to_bytes.
  destruct (0 <=? v) eqn:E1; simpl; [|discriminate].
  destruct (v <? 256 ^ Z.of_nat len) eqn:E2; simpl; [|discriminate].
  intros H. inversion H. split; [lia | reflexivity].
Qed.

Lemma to_from_bytes (bs : bytes) :
  to_bytes (length bs) (from_bytes bs) = Ok bs.
Proof.
  rewrite to_bytes_Ok by apply from_bytes_range.
  now rewrite be_from_bytes.
Qed.

Lemma bytes_eqb_eq (a b : bytes) : bytes_eqb a b = true <-> a = b.
Proof.
  revert b. induction a as [|x a IH]; intros [|y b]; simpl;
    try (split; [discriminate | congruence]).
  - split; reflexivity.
  - unfold byte_eqb. rewrite andb_true_iff, IH. split.
    + intros [H1 H2]. apply Byte.byte_dec_bl in H1. congruence.
    + intros H. inversion H. split; [now apply Byte.byte_dec_lb | reflexivity].
Qed.

Lemma bytes_eqb_refl (a : bytes) : bytes_eqb a a = true.
Proof. now apply bytes_eqb_eq. Qed.

Lemma bytes_eqb_neq (a b : bytes) : bytes_eqb a b = false <-> a <> b.
Proof.
  rewrite <- bytes_eqb_eq. destruct (bytes_eqb a b); split; congruence.
Qed.

Lemma mem_In (v : bytes) (table : list bytes) :
  mem v table = true <-> In v table.
Proof.
  unfold mem. rewrite existsb_exists. split.
  - intros (x & Hx & E). apply bytes_eqb_eq in E. now subst.
  - intros H. exists v. split; [assumption | apply bytes_eqb_refl].
Qed.

Lemma mem_not_In (v : bytes) (table : list bytes) :
  mem v table = false <-> ~ In v table.
Proof.
  rewrite <- mem_In. destruct (mem v table); split; congruence.
Qed.

Lemma index_of_In (v : bytes) (table : list bytes) :
  In v table ->
  exists i, index_of v table = Some i /\ (i < length table)%nat.
Proof.
  induction table as [|x t IH]; simpl; [tauto|].
  intros H. destruct (bytes_eqb x v) eqn:E.
  - exists O. split; [reflexivity | lia].
  - apply bytes_eqb_neq in E.
    destruct H as [H|H]; [congruence|].
    destruct (IH H) as (i & Hi & Hlt). exists (S i).
    rewrite Hi. split; [reflexivity | lia].
Qed.

(** Booleans of the guards to propositions *)
Ltac b2p :=
  rewrite ?Z.gtb_ltb, ?Z.geb_leb in *;
  repeat match goal with
  | H : negb _ = true |- _ => apply negb_true_iff in H
  | H : negb _ = false |- _ => apply negb_false_iff in H
  | H : _ && _ = true |- _ => apply andb_true_iff in H; destruct H
  | H : _ || _ = false |- _ => apply orb_false_iff in H; destruct H
  | H : _ && _ = false |- _ => apply andb_false_iff in H
  | H : _ || _ = true |- _ => apply orb_true_iff in H
  | H : (_ =? _)%nat = true |- _ => apply Nat.eqb_eq in H
  | H : (_ =? _)%nat = false |- _ => apply Nat.eqb_neq in H
  | H : (_ =? _) = true |- _ => apply Z.eqb_eq in H
  | H : (_ =? _) = false |- _ => apply Z.eqb_neq in H
  | H : (_ <? _) = true |- _ => apply Z.ltb_lt in H
  | H : (_ <? _) = false |- _ => apply Z.ltb_ge in H
  | H : (_ <=? _) = true |- _ => apply Z.leb_le in H
  | H : (_ <=? _) = false |- _ => apply Z.leb_gt in H
  | H : bytes_eqb _ _ = true |- _ => apply bytes_eqb_eq in H
  | H : bytes_eqb _ _ = false |- _ => apply bytes_eqb_neq in H
  | H : mem _ _ = true |- _ => apply mem_In in H
  | H : mem _ _ = false |- _ => apply mem_not_In in H
  end.

(** A guard that cannot fire *)
Ltac pass_guard :=
  match goal with
  | |- context [raise_if ?b ?e] =>
      let E := fresh "E" in
      destruct b eqn:E;
      [exfalso; b2p; try tauto; try lia; try congruence
      | rewrite raise_if_false; cbn [bind]]
  end.

Lemma byte0_inv (bs : bytes) (z : Z) :
  byte0 bs = Ok z -> exists b t, bs = b :: t /\ z = Z_of_byte b.
Proof.
  destruct bs as [|b t]; simpl; [discriminate|].
  intros H. inversion H. eauto.
Qed.

(** ** Validation *)

Section Validation.

Context {C : Collaborators} (L : Laws C).

Lemma assert_valid_invariants (k : BIP32KeyData) :
  assert_valid k = Ok tt -> invariants k.
Proof.
  intros H. unfold assert_valid in H.
  do 6 inv_raise H.
  apply bind_Ok in H. destruct H as (u & Hkind & Hroot). b2p.
  assert (Hr : depth k = 0 ->
               parent_fingerprint k = zero_fingerprint /\ index k = 0).
  { intros Hd. rewrite Hd in Hroot. simpl in Hroot.
    do 1 inv_raise Hroot. apply raise_if_Ok in Hroot. b2p. auto. }
  destruct (mem (version k) _XPRV_VERSIONS_ALL) eqn:Eprv.
  - inv_ok Hkind. inv_raise Hkind. apply raise_if_Ok in Hkind. b2p.
    constructor; try assumption; try lia.
    + now left.
    + intros _. split; [congruence | lia].
    + intros Hpub. exfalso. eapply versions_disjoint; eauto.
  - destruct (mem (version k) _XPUB_VERSIONS_ALL) eqn:Epub;
      [|discriminate].
    inv_ok Hkind. inv_raise Hkind.
    destruct (ec_y (from_bytes (tl (key k)))) as [y|] eqn:Ey;
      [|discriminate].
    b2p.
    constructor; try assumption; try lia.
    + now right.
    + intros Hprv. exfalso. auto.
    + intros _. split; [|eauto].
      match goal with
      | H : _ \/ _ |- _ => destruct H; b2p; subst; [left|right]; assumption
      end.
Qed.

Lemma invariants_assert_valid (k : BIP32KeyData) :
  invariants k -> assert_valid k = Ok tt.
Proof.
  intros [Hv Hd Hfp Hi Hcc Hk Hprv Hpub Hroot].
  assert (Hlen : length (version k) = 4%nat).
  { apply versions_length. apply in_or_app. exact Hv. }
  unfold assert_valid.
  do 6 pass_guard.
  assert (Hkind :
    (if mem (version k) _XPRV_VERSIONS_ALL
     then k0 <- byte0 (key k) ;;
          raise_if (negb (k0 =? 0)) InvalidPrvKeyPrefix ;;;
          raise_if (negb ((0 <? from_bytes (tl (key k)))
                          && (from_bytes (tl (key k)) <? ec_n)))
            InvalidPrvKey
     else if mem (version k) _XPUB_VERSIONS_ALL
          then k0 <- byte0 (key k) ;;
               raise_if (negb ((k0 =? 2) || (k0 =? 3)))
                 InvalidPubKeyPrefix ;;;
               match ec_y (from_bytes (tl (key k))) with
               | Ok _ => Ok tt
               | Err _ => Err InvalidPubKey
               end
          else Err UnknownVersion) = Ok tt).
  { destruct (mem (version k) _XPRV_VERSIONS_ALL) eqn:Eprv.
    - b2p. destruct (Hprv Eprv) as [Hb0 Hq]. rewrite Hb0. cbn [bind].
      do 2 pass_guard. reflexivity.
    - destruct Hv as [Hv|Hv]; [b2p; contradiction|].
      rewrite (proj2 (mem_In _ _) Hv).
      destruct (Hpub Hv) as [Hb0 [y Hy]]. rewrite Hy.
      destruct Hb0 as [Hb0|Hb0]; rewrite Hb0; cbn [bind];
        pass_guard; reflexivity. }
  cbv zeta. rewrite Hkind. cbn [bind].
  destruct (depth k =? 0) eqn:Ed; [|reflexivity].
  b2p. destruct (Hroot Ed) as [Hz Hi0].
  do 2 pass_guard. reflexivity.
Qed.

End Validation.

(** ** The 78-byte codec *)

Lemma read_exact (n : nat) (a rest : bytes) :
  length a = n -> read n (a ++ rest) = (a, rest).
Proof.
  intros <-. unfold read. f_equal.
  - rewrite firstn_app, Nat.sub_diag, firstn_all. simpl. apply app_nil_r.
  - rewrite skipn_app, Nat.sub_diag, skipn_all. reflexivity.
Qed.

Lemma read_app (n : nat) (bs extra : bytes) :
  (n <= length bs)%nat ->
  read n (bs ++ extra) = (firstn n bs, skipn n bs ++ extra).
Proof.
  intros Hn. unfold read. f_equal.
  - rewrite firstn_app.
    replace (n - length bs)%nat with O by lia. simpl. apply app_nil_r.
  - rewrite skipn_app.
    replace (n - length bs)%nat with O by lia. reflexivity.
Qed.

Lemma read_all (n : nat) (a : bytes) : length a = n -> read n a = (a, []).
Proof.
  intros H. rewrite <- (app_nil_r a) at 1. now apply read_exact.
Qed.

Lemma parse_fields (v d fp i cc k : bytes) :
  length v = 4%nat -> length d = 1%nat -> length fp = 4%nat ->
  length i = 4%nat -> length cc = 32%nat -> length k = 33%nat ->
  parse (v ++ d ++ fp ++ i ++ cc ++ k)
  = mkBIP32KeyData v (from_bytes d) fp (from_bytes i) cc k.
Proof.
  intros Hv Hd Hfp Hi Hcc Hk. unfold parse.
  rewrite (read_exact 4 v) by assumption.
  rewrite (read_exact 1 d) by assumption.
  rewrite (read_exact 4 fp) by assumption.
  rewrite (read_exact 4 i) by assumption.
  rewrite (read_exact 32 cc) by assumption.
  rewrite (read_all 33 k) by assumption.
  reflexivity.
Qed.

Lemma parse_prefix (bs extra : bytes) :
  length bs = 78%nat -> parse (bs ++ extra) = parse bs.
Proof.
  intros Hlen. unfold parse.
  rewrite (read_app 4) by lia. cbv beta iota.
  rewrite (read_app 1) by (rewrite length_skipn; lia). cbv beta iota.
  rewrite (read_app 4) by (rewrite !length_skipn; lia). cbv beta iota.
  rewrite (read_app 4) by (rewrite !length_skipn; lia). cbv beta iota.
  rewrite (read_app 32) by (rewrite !length_skipn; lia). cbv beta iota.
  rewrite (read_app 33) by (rewrite !length_skipn; lia). cbv beta iota.
  reflexivity.
Qed.

(** The text of [str.strip] *)

Lemma lstrip_id (s : list byte) :
  (forall c, In c s -> is_space c = false) -> lstrip s = s.
Proof.
  destruct s as [|c t]; simpl; [reflexivity|].
  intros H. now rewrite (H c) by now left.
Qed.

Lemma strip_id (s : list byte) :
  (forall c, In c s -> is_space c = false) -> strip s = s.
Proof.
  intros H. unfold strip. rewrite (lstrip_id s H).
  rewrite lstrip_id.
  - apply rev_involutive.
  - intros c Hc. apply H. now apply in_rev.
Qed.

Section Codec.

Context {C : Collaborators} (L : Laws C).

Lemma deserialize_parse (bs : bytes) (av : bool) :
  deserialize (PyBytes bs) av
  = ((if av then assert_valid (parse bs) else Ok tt) ;;; Ok (parse bs)).
Proof.
  unfold deserialize. rewrite bytesio_bytes. cbn [bind]. unfold parse.
  destruct (read 4 bs) as [v s1]. destruct (read 1 s1) as [d s2].
  destruct (read 4 s2) as [fp s3]. destruct (read 4 s3) as [i s4].
  destruct (read 32 s4) as [cc s5]. destruct (read 33 s5) as [k s6].
  reflexivity.
Qed.

Lemma serialize_wire (k : BIP32KeyData) (av : bool) :
  invariants k -> serialize k av = Ok (wire k).
Proof.
  intros Hinv. unfold serialize.
  rewrite (invariants_assert_valid L k Hinv).
  destruct Hinv as [_ Hd _ Hi _ _ _ _ _].
  replace (if av then Ok tt else Ok tt) with (Ok tt) by now destruct av.
  cbn [bind].
  rewrite to_bytes_Ok by (simpl; lia). cbn [bind].
  rewrite to_bytes_Ok by (simpl; lia). reflexivity.
Qed.

Lemma wire_length (k : BIP32KeyData) :
  invariants k -> length (wire k) = 78%nat.
Proof.
  intros [Hv _ Hfp _ Hcc Hk _ _ _].
  assert (Hlen : length (version k) = 4%nat).
  { apply versions_length. apply in_or_app. exact Hv. }
  unfold wire. rewrite !length_app, !be_bytes_length. lia.
Qed.

Lemma parse_wire (k : BIP32KeyData) : invariants k -> parse (wire k) = k.
Proof.
  intros [Hv Hd Hfp Hi Hcc Hk _ _ _].
  assert (Hlen : length (version k) = 4%nat).
  { apply versions_length. apply in_or_app. exact Hv. }
  unfold wire. rewrite <- !app_assoc.
  rewrite parse_fields; try assumption; try apply be_bytes_length.
  rewrite !from_be_bytes by (simpl; lia).
  now destruct k.
Qed.

Lemma base58_no_space (x : bytes) (c : byte) :
  In c (base58_b58encode x) -> is_space c = false.
Proof.
  intros Hc. pose proof (base58_text x) as H.
  rewrite forallb_forall in H. specialize (H c Hc).
  apply andb_true_iff in H. destruct H as [H _].
  now apply negb_true_iff in H.
Qed.

Lemma base58_ascii (x : bytes) :
  decode_ascii (base58_b58encode x) = Ok (base58_b58encode x).
Proof.
  unfold decode_ascii.
  replace (forallb (fun b => Z_of_byte b <? 128) (base58_b58encode x))
    with true; [reflexivity|].
  symmetry. apply forallb_forall. intros c Hc.
  pose proof (base58_text x) as H.
  rewrite forallb_forall in H. specialize (H c Hc).
  apply andb_true_iff in H. tauto.
Qed.

Lemma b58encode_wire (k : BIP32KeyData) (av : bool) :
  invariants k -> b58encode k av = Ok (base58_b58encode (wire k)).
Proof.
  intros Hinv. unfold b58encode. now rewrite serialize_wire.
Qed.

Lemma b58encode_str_wire (k : BIP32KeyData) :
  invariants k -> b58encode_str k = Ok (base58_b58encode (wire k)).
Proof.
  intros Hinv. unfold b58encode_str. rewrite b58encode_wire by assumption.
  cbn [bind]. apply base58_ascii.
Qed.

Lemma deserialize_wire (k : BIP32KeyData) (av : bool) :
  invariants k -> deserialize (PyBytes (wire k)) av = Ok k.
Proof.
  intros Hinv. rewrite deserialize_parse, parse_wire by assumption.
  rewrite (invariants_assert_valid L k Hinv). now destruct av.
Qed.

Lemma b58decode_bytes_wire (k : BIP32KeyData) (av : bool) :
  invariants k ->
  b58decode (PyBytes (base58_b58encode (wire k))) av = Ok k.
Proof.
  intros Hinv. unfold b58decode. rewrite base58_bytes. cbn [bind].
  rewrite wire_length by assumption. simpl Nat.eqb.
  rewrite andb_false_r. cbn [raise_if bind].
  now apply deserialize_wire.
Qed.

Lemma b58decode_str_wire (k : BIP32KeyData) (av : bool) :
  invariants k ->
  b58decode (PyStr (base58_b58encode (wire k))) av = Ok k.
Proof.
  intros Hinv. unfold b58decode.
  rewrite strip_id by apply base58_no_space.
  rewrite base58_str. cbn [bind].
  rewrite wire_length by assumption. simpl Nat.eqb.
  rewrite andb_false_r. cbn [raise_if bind].
  now apply deserialize_wire.
Qed.

End Codec.

(** ** The model satisfies the contracts *)

Lemma model_n_bounds : 0 < Model.n < 256 ^ 32.
Proof. split; reflexivity. Qed.

Lemma model_pad_length (len : nat) (bs : bytes) :
  length (Model.pad len bs) = len.
Proof.
  unfold Model.pad. rewrite length_firstn, length_app, repeat_length. lia.
Qed.

Lemma model_letter (v : Z) :
  0 <= v < 16 -> Z_of_byte (Model.letter v) = 97 + v.
Proof.
  intros Hv. unfold Model.letter. apply Z_of_byte_of_Z. lia.
Qed.

Lemma model_letter_text (v : Z) :
  0 <= v < 16 ->
  Model.is_letter (Model.letter v) = true
  /\ is_space (Model.letter v) = false
  /\ (Z_of_byte (Model.letter v) <? 128) = true.
Proof.
  intros Hv. unfold Model.is_letter, is_space.
  rewrite (model_letter v Hv). repeat split.
  - apply andb_true_iff. split; [apply Z.leb_le | apply Z.ltb_lt]; lia.
  - repeat (apply orb_false_iff; split);
      try (apply andb_false_iff; right; apply Z.leb_gt; lia);
      try (apply Z.eqb_neq; lia).
  - apply Z.ltb_lt. lia.
Qed.

Lemma model_nibbles (b : byte) :
  0 <= Z_of_byte b / 16 < 16 /\ 0 <= Z_of_byte b mod 16 < 16.
Proof.
  pose proof (Z_of_byte_range b) as Hb. split.
  - split; [apply Z.div_pos; lia | apply Z.div_lt_upper_bound; lia].
  - apply Z.mod_pos_bound. lia.
Qed.

Lemma model_pairs (x : bytes) (fuel : nat) :
  (length x <= fuel)%nat -> Model.pairs fuel (Model.text_encode x) = Ok x.
Proof.
  revert fuel. induction x as [|b x IH]; intros fuel Hf.
  - destruct fuel; reflexivity.
  - destruct fuel as [|fuel]; [simpl in Hf; lia|].
    simpl in Hf. cbn [Model.text_encode flat_map app Model.pairs].
    destruct (model_nibbles b) as [Hhi Hlo].
    destruct (model_letter_text _ Hhi) as (Hh & _ & _).
    destruct (model_letter_text _ Hlo) as (Hl & _ & _).
    rewrite Hh, Hl. simpl andb. cbv iota.
    rewrite IH by lia. cbn [bind].
    rewrite !model_letter by assumption.
    replace (16 * (97 + Z_of_byte b / 16 - 97) + (97 + Z_of_byte b mod 16 - 97))
      with (Z_of_byte b)
      by (pose proof (Z.div_mod (Z_of_byte b) 16); lia).
    now rewrite byte_of_Z_of_byte.
Qed.

Lemma model_text_length (x : bytes) :
  length (Model.text_encode x) = (2 * length x)%nat.
Proof.
  induction x as [|b x IH]; simpl; [reflexivity|].
  rewrite IH. lia.
Qed.

Lemma model_text_decode (x : bytes) :
  Model.text_decode (PyBytes (Model.text_encode x)) = Ok x
  /\ Model.text_decode (PyStr (Model.text_encode x)) = Ok x.
Proof.
  split; simpl; apply model_pairs; rewrite model_text_length; lia.
Qed.

Lemma model_text (x : bytes) :
  forallb (fun c => negb (is_space c) && (Z_of_byte c <? 128))
    (Model.text_encode x) = true.
Proof.
  induction x as [|b x IH]; [reflexivity|].
  simpl. destruct (model_nibbles b) as [Hhi Hlo].
  destruct (model_letter_text _ Hhi) as (_ & Hs1 & Ha1).
  destruct (model_letter_text _ Hlo) as (_ & Hs2 & Ha2).
  rewrite Hs1, Hs2, Ha1, Ha2. exact IH.
Qed.

Lemma model_sec (P : Z) (bs : bytes) :
  Model.sec_encode P = Ok bs ->
  length bs = 33%nat
  /\ (byte0 bs = Ok 2 \/ byte0 bs = Ok 3)
  /\ (exists y, Model.y_of_x (from_bytes (tl bs)) = Ok y)
  /\ Model.sec_decode bs = Ok P.
Proof.
  unfold Model.sec_encode.
  destruct (Model.on_curve P) eqn:E; [|discriminate].
  intros H.
  assert (Hbs : bs = x02 :: be_bytes 32 P) by congruence.
  subst bs. clear H.
  assert (HP : 0 <= P < 256 ^ Z.of_nat 32).
  { unfold Model.on_curve in E. pose proof model_n_bounds.
    apply andb_true_iff in E. destruct E as [E1 E2].
    apply Z.ltb_lt in E1, E2. simpl Z.of_nat. lia. }
  split; [|split; [|split]].
  - cbn [length]. now rewrite be_bytes_length.
  - now left.
  - exists P. cbn [tl]. rewrite from_be_bytes by exact HP.
    unfold Model.y_of_x. now rewrite E.
  - unfold Model.sec_decode.
    rewrite be_bytes_length, from_be_bytes by exact HP.
    rewrite E. reflexivity.
Qed.

Lemma model_sec_decode (bs : bytes) (y : Z) :
  length bs = 33%nat ->
  byte0 bs = Ok 2 \/ byte0 bs = Ok 3 ->
  Model.y_of_x (from_bytes (tl bs)) = Ok y ->
  exists P, Model.sec_decode bs = Ok P.
Proof.
  intros Hlen Hb Hy. destruct bs as [|b x]; [discriminate|].
  cbn [tl byte0 length] in *. unfold Model.sec_decode.
  assert (Hb' : (Z_of_byte b =? 2) || (Z_of_byte b =? 3) = true).
  { apply orb_true_iff.
    destruct Hb as [Hb|Hb]; apply Ok_inj in Hb; rewrite Hb; auto. }
  rewrite Hb'.
  replace (length x =? 32)%nat with true
    by (symmetry; apply Nat.eqb_eq; lia).
  unfold Model.y_of_x in Hy.
  destruct (Model.on_curve (from_bytes x)); [|discriminate].
  simpl. eauto.
Qed.

Lemma model_versions_disjoint (v : bytes) :
  In v (@_XPRV_VERSIONS_ALL Model.collaborators) ->
  ~ In v (@_XPUB_VERSIONS_ALL Model.collaborators).
Proof.
  intros Hv.
  assert (H : forallb
                (fun v =>
                   negb (mem v (@_XPUB_VERSIONS_ALL Model.collaborators)))
                (@_XPRV_VERSIONS_ALL Model.collaborators) = true)
    by (vm_compute; reflexivity).
  rewrite forallb_forall in H. specialize (H v Hv).
  apply negb_true_iff in H. now apply mem_not_In.
Qed.

Lemma model_versions_length (v : bytes) :
  In v (@_XPRV_VERSIONS_ALL Model.collaborators
        ++ @_XPUB_VERSIONS_ALL Model.collaborators) ->
  length v = 4%nat.
Proof.
  intros Hv.
  assert (H : forallb (fun v => (length v =? 4)%nat)
                (@_XPRV_VERSIONS_ALL Model.collaborators
                 ++ @_XPUB_VERSIONS_ALL Model.collaborators) = true)
    by (vm_compute; reflexivity).
  rewrite forallb_forall in H. specialize (H v Hv).
  now apply Nat.eqb_eq.
Qed.

Lemma model_with_hmac_laws (h : bytes -> bytes -> bytes) :
  (forall k m, length (h k m) = 64%nat) -> Laws (Model.with_hmac h).
Proof.
  intros Hh. constructor; simpl.
  - pose proof model_n_bounds. change (2 ^ 256) with (256 ^ 32). lia.
  - intros a. apply Z.mod_mod. pose proof model_n_bounds. lia.
  - intros a b. f_equal. symmetry. apply Zplus_mod.
  - intros a Ha. rewrite Z.mod_small by lia.
    unfold Model.sec_encode, Model.on_curve.
    destruct (0 <? a) eqn:E1; [|apply Z.ltb_ge in E1; lia].
    destruct (a <? Model.n) eqn:E2; [|apply Z.ltb_ge in E2; lia].
    simpl. eauto.
  - exists (External 1). reflexivity.
  - apply model_sec.
  - apply model_sec_decode.
  - exact Hh.
  - intros m. apply model_pad_length.
  - intros x. apply model_text_decode.
  - intros x. apply model_text_decode.
  - apply model_text.
  - reflexivity.
  - intros b n <-. now rewrite Nat.eqb_refl.
  - intros [s|b] n r; [discriminate|]. unfold Model.octets.
    destruct (length b =? n)%nat eqn:E; [|discriminate].
    intros H. inversion H. subst. now apply Nat.eqb_eq.
  - reflexivity.
  - reflexivity.
  - apply model_versions_length.
  - apply model_versions_disjoint.
Qed.

Lemma model_hmac_length (k m : bytes) : length (Model.hmac k m) = 64%nat.
Proof.
  unfold Model.hmac. rewrite length_app, !model_pad_length. reflexivity.
Qed.

Lemma model_laws : Laws Model.collaborators.
Proof.
  apply model_with_hmac_laws. apply model_hmac_length.
Qed.

Lemma model_swapped_laws : Laws Model.swapped.
Proof.
  apply model_with_hmac_laws. intros k m. apply model_hmac_length.
Qed.

(** ** Claims on the codec and the validation *)

Section CodecClaims.

Context {C : Collaborators} (L : Laws C).

(** C3 — Serialization round trip: a key [k] that satisfies the invariants
    of the data model serializes to 78 bytes that deserialize to [k], and
    its Base58Check encoding, as [bytes] or as the ASCII [str] the public
    functions return, decodes to [k]. *)
Theorem codec_round_trip (k : BIP32KeyData) :
  invariants k ->
  (exists bin, serialize k true = Ok bin
               /\ length bin = 78%nat
               /\ deserialize (PyBytes bin) true = Ok k)
  /\ (exists txt, b58encode k true = Ok txt
                  /\ b58decode (PyBytes txt) true = Ok k)
  /\ (exists str, b58encode_str k = Ok str
                  /\ b58decode (PyStr str) true = Ok k).
Proof.
  intros Hinv. split; [|split].
  - exists (wire k). split; [|split].
    + now apply serialize_wire.
    + now apply wire_length.
    + now apply deserialize_wire.
  - exists (base58_b58encode (wire k)). split.
    + now apply b58encode_wire.
    + now apply b58decode_bytes_wire.
  - exists (base58_b58encode (wire k)). split.
    + now apply b58encode_str_wire.
    + now apply b58decode_str_wire.
Qed.

Lemma new_BIP32KeyData_inv (v : bytes) (d : Z) (fp : bytes) (i : Z)
    (cc key : bytes) (k : BIP32KeyData) :
  new_BIP32KeyData v d fp i cc key true = Ok k ->
  k = mkBIP32KeyData v d fp i cc key /\ assert_valid k = Ok tt.
Proof.
  unfold new_BIP32KeyData. intros H. inv_ok H.
  assert (k = mkBIP32KeyData v d fp i cc key) by congruence. subst k.
  split; [reflexivity|]. now destruct a.
Qed.

Lemma deserialize_valid (s : String) (k : BIP32KeyData) :
  deserialize s true = Ok k -> assert_valid k = Ok tt.
Proof.
  unfold deserialize. intros H. inv_ok H.
  destruct (read 4 a) as [v s1]. destruct (read 1 s1) as [d s2].
  destruct (read 4 s2) as [fp s3]. destruct (read 4 s3) as [i s4].
  destruct (read 32 s4) as [cc s5]. destruct (read 33 s5) as [key s6].
  inv_ok H. assert (Hk : k = mkBIP32KeyData v (from_bytes d) fp
                                (from_bytes i) cc key) by congruence.
  subst k. now destruct a0.
Qed.

Lemma b58decode_valid (s : String) (k : BIP32KeyData) :
  b58decode s true = Ok k -> assert_valid k = Ok tt.
Proof.
  unfold b58decode. intros H. inv_ok H. inv_raise H.
  now apply deserialize_valid in H.
Qed.

Lemma key_data_valid (s : String) (k : BIP32KeyData) :
  key_data (KeyStr s) = Ok k -> assert_valid k = Ok tt.
Proof. apply b58decode_valid. Qed.

(** C7 — Constructor invariants: validation accepts a key exactly when it
    satisfies the invariants of the data model (known version, depth in
    0..255, 4-byte fingerprint, index in 0..0xFFFFFFFF, 32-byte chain code,
    33-byte key, private key with byte 0 equal to 0 and scalar in (0, n),
    public key with byte 0 in (2, 3) and an x coordinate on the curve,
    depth 0 with zero fingerprint and index); so the constructor,
    [deserialize] and [b58decode], with validation on, fail on any other
    key and return only keys that satisfy them. *)
Theorem validated_invariants (k : BIP32KeyData) :
  (assert_valid k = Ok tt <-> invariants k)
  /\ (forall v d fp i cc key,
        new_BIP32KeyData v d fp i cc key true = Ok k -> invariants k)
  /\ (~ invariants k -> exists e,
        new_BIP32KeyData (version k) (depth k) (parent_fingerprint k)
          (index k) (chain_code k) (key k) true = Err e)
  /\ (forall s, deserialize s true = Ok k -> invariants k)
  /\ (forall s, b58decode s true = Ok k -> invariants k).
Proof.
  split; [|split; [|split; [|split]]].
  - split; [apply assert_valid_invariants | apply invariants_assert_valid];
      exact L.
  - intros v d fp i cc key H. apply new_BIP32KeyData_inv in H.
    apply (assert_valid_invariants L). tauto.
  - intros Hn.
    destruct (new_BIP32KeyData (version k) (depth k) (parent_fingerprint k)
                (index k) (chain_code k) (key k) true) as [k'|e] eqn:E.
    + apply new_BIP32KeyData_inv in E. destruct E as [-> E].
      exfalso. apply Hn. destruct k. now apply (assert_valid_invariants L).
    + now exists e.
  - intros s H. apply (assert_valid_invariants L).
    now apply deserialize_valid in H.
  - intros s H. apply (assert_valid_invariants L).
    now apply b58decode_valid in H.
Qed.

Lemma deserialize_wire_app (k : BIP32KeyData) (extra : bytes) (av : bool) :
  invariants k -> deserialize (PyBytes (wire k ++ extra)) av = Ok k.
Proof.
  intros Hinv. rewrite (deserialize_parse L).
  rewrite parse_prefix by now apply (wire_length L).
  rewrite (parse_wire L) by assumption.
  rewrite (invariants_assert_valid L k Hinv). now destruct av.
Qed.

(** C10 — [deserialize] does not reject over-long input.  For every key
    [k] that satisfies the invariants, the serialization of [k] is 78 bytes
    and [deserialize] returns exactly [k] on these bytes followed by any
    bytes [extra], with or without validation; so on every byte string
    whose first 78 bytes are the serialization of [k] it returns [k], and
    on every byte string of at least 78 bytes it returns what it returns
    on the 78-byte prefix.  Only [b58decode], with validation on, rejects a
    decoded payload whose length is not 78: it fails with the
    decoded-length error on the Base58Check encoding of the over-long
    bytes, as text or as bytes, and without validation returns [k] for
    it. *)
Theorem deserialize_ignores_trailing (k : BIP32KeyData) (extra : bytes)
    (av : bool) :
  invariants k ->
  (exists bin,
     serialize k true = Ok bin
     /\ length bin = 78%nat
     /\ deserialize (PyBytes bin) av = Ok k
     /\ deserialize (PyBytes (bin ++ extra)) av = Ok k
     /\ (extra <> [] ->
           b58decode (PyBytes (base58_b58encode (bin ++ extra))) true
           = Err InvalidDecodedLength
           /\ b58decode (PyStr (base58_b58encode (bin ++ extra))) true
              = Err InvalidDecodedLength
           /\ b58decode (PyBytes (base58_b58encode (bin ++ extra))) false
              = Ok k))
  /\ (forall data, serialize k true = Ok (firstn 78 data) ->
        deserialize (PyBytes data) av = Ok k)
  /\ (forall data, (78 <= length data)%nat ->
        deserialize (PyBytes data) av
        = deserialize (PyBytes (firstn 78 data)) av)
  /\ (forall data s,
        base58_b58decode match s with
                         | PyStr t => PyStr (strip t)
                         | PyBytes b => PyBytes b
                         end = Ok data ->
        length data <> 78%nat ->
        b58decode s true = Err InvalidDecodedLength).
Proof.
  intros Hinv.
  pose proof (wire_length L k Hinv) as Hlen.
  split; [|split; [|split]].
  - exists (wire k).
    split; [now apply (serialize_wire L)|].
    split; [exact Hlen|].
    split; [now apply (deserialize_wire L)|].
    split; [now apply deserialize_wire_app|].
    intros Hextra.
    assert (Hne : (length (wire k ++ extra) =? 78)%nat = false).
    { apply Nat.eqb_neq. rewrite length_app, Hlen.
      destruct extra; [congruence | cbn [length]; lia]. }
    unfold b58decode.
    rewrite strip_id by apply (base58_no_space L).
    rewrite base58_bytes, base58_str. cbn [bind].
    unfold _EXPECTED_DECODED_LENGHT. rewrite Hne.
    cbn [negb andb raise_if bind].
    split; [reflexivity|]. split; [reflexivity|].
    now apply deserialize_wire_app.
  - intros data H. rewrite (serialize_wire L k true Hinv) in H.
    apply Ok_inj in H.
    rewrite <- (firstn_skipn 78 data), <- H.
    now apply deserialize_wire_app.
  - intros data Hdata. rewrite !(deserialize_parse L).
    assert (Hp : parse data = parse (firstn 78 data)).
    { rewrite <- (firstn_skipn 78 data) at 1.
      apply parse_prefix. rewrite length_firstn. lia. }
    now rewrite Hp.
  - intros data s Hs Hne. unfold b58decode. rewrite Hs. cbn [bind].
    apply Nat.eqb_neq in Hne. unfold _EXPECTED_DECODED_LENGHT.
    now rewrite Hne.
Qed.

End CodecClaims.

(** *** Instances in the model *)

Lemma codec_round_trip_witness :
  invariants (C := Model.collaborators) Model.root
  /\ (exists str, b58encode_str (C := Model.collaborators) Model.root = Ok str
                  /\ b58decode (C := Model.collaborators) (PyStr str) true
                     = Ok Model.root).
Proof.
  assert (H : invariants (C := Model.collaborators) Model.root).
  { apply (assert_valid_invariants model_laws). vm_compute. reflexivity. }
  split; [exact H|].
  exact (proj2 (proj2 (codec_round_trip model_laws Model.root H))).
Defined.

Lemma validated_invariants_witness :
  invariants (C := Model.collaborators) Model.root.
Proof.
  apply (proj1 (validated_invariants model_laws Model.root)).
  vm_compute. reflexivity.
Defined.

Lemma deserialize_ignores_trailing_witness :
  invariants (C := Model.collaborators) Model.root
  /\ deserialize (C := Model.collaborators) (PyBytes Model.long_data) true
     = Ok Model.root.
Proof.
  assert (H : invariants (C := Model.collaborators) Model.root).
  { apply (assert_valid_invariants model_laws). vm_compute. reflexivity. }
  split; [exact H|].
  apply (proj1 (proj2 (deserialize_ignores_trailing model_laws Model.root
                         [xff; xff] true H))).
  vm_compute. reflexivity.
Defined.

(** ** The derivation step *)

Section Derivation.

Context {C : Collaborators} (L : Laws C).

Lemma _derive_unfold (xkey : BIP32Key) (der_path : BIP32DerPath)
    (fv : option String) :
  _derive xkey der_path fv
  = (k <- key_data xkey ;;
     indexes <- indexes_from_bip32_path der_path ;;
     raise_if (depth k + Z.of_nat (length indexes) >? 255) FinalDepth ;;;
     xk <- extended_of k ;;
     xk <- ckd_loop xk indexes ;;
     force_version fv xk).
Proof.
  unfold _derive, extended_of, cache_of, force_version.
  destruct (key_data xkey) as [k|e]; [|reflexivity]. cbn [bind].
  destruct (indexes_from_bip32_path der_path) as [idx|e]; [|reflexivity].
  cbn [bind].
  destruct (raise_if _ FinalDepth); [|reflexivity]. cbn [bind].
  destruct (byte0 (key k)) as [k0|e]; [|reflexivity]. cbn [bind].
  destruct (k0 =? 0); cbn [bind fst snd]; [reflexivity|].
  destruct (point_from_octets (key k)); reflexivity.
Qed.

Lemma ckd_fields (xk xk' : _ExtendedBIP32KeyData Point) (i : Z) :
  __ckd xk i = Ok xk' ->
  version (xdata xk') = version (xdata xk)
  /\ depth (xdata xk') = depth (xdata xk) + 1
  /\ index (xdata xk') = i.
Proof.
  unfold __ckd. intros H. inv_ok H.
  destruct (a =? 0).
  - do 3 inv_ok H. inv_ret H. splits; reflexivity.
  - destruct (is_hardened _); [discriminate|].
    do 3 inv_ok H. inv_ret H. splits; reflexivity.
Qed.

Lemma last_nonempty (A : Type) (x : A) (l : list A) (d d' : A) :
  last (x :: l) d = last (x :: l) d'.
Proof.
  revert x. induction l as [|y l IH]; intros x; [reflexivity|].
  change (last (y :: l) d = last (y :: l) d'). apply IH.
Qed.

Lemma ckd_loop_fields (idx : list Z) (xk xk' : _ExtendedBIP32KeyData Point) :
  ckd_loop xk idx = Ok xk' ->
  version (xdata xk') = version (xdata xk)
  /\ depth (xdata xk') = depth (xdata xk) + Z.of_nat (length idx)
  /\ index (xdata xk') = last idx (index (xdata xk)).
Proof.
  revert xk. induction idx as [|i idx IH]; intros xk H.
  - simpl in H. assert (xk' = xk) by congruence. subst.
    simpl. repeat split; lia.
  - cbn [ckd_loop] in H. inv_ok H.
    apply ckd_fields in Ha. destruct Ha as (Hv & Hd & Hi).
    apply IH in H. destruct H as (Hv' & Hd' & Hi').
    rewrite Hv', Hd', Hi', Hv, Hd, Hi. repeat split.
    + rewrite length_cons. lia.
    + destruct idx as [|j idx]; [reflexivity|].
      change (last (i :: j :: idx) (index (xdata xk)))
        with (last (j :: idx) (index (xdata xk))).
      apply last_nonempty.
Qed.

Lemma ckd_loop_app (i1 i2 : list Z) (xk : _ExtendedBIP32KeyData Point) :
  ckd_loop xk (i1 ++ i2) = (xk' <- ckd_loop xk i1 ;; ckd_loop xk' i2).
Proof.
  revert xk. induction i1 as [|i i1 IH]; intros xk; [reflexivity|].
  cbn [app ckd_loop]. destruct (__ckd xk i) as [xk1|e]; [|reflexivity].
  cbn [bind]. apply IH.
Qed.

Lemma extended_of_inv (k : BIP32KeyData) (xk : _ExtendedBIP32KeyData Point) :
  extended_of k = Ok xk ->
  xdata xk = k /\ assert_valid k = Ok tt /\ cache_of k = Ok (q xk, Q xk).
Proof.
  unfold extended_of, new_ExtendedBIP32KeyData. intros H.
  inv_ok H. inv_ok H.
  apply new_BIP32KeyData_inv in Ha0. destruct Ha0 as [-> Hval].
  inv_ret H. destruct k, a. simpl in *. auto.
Qed.

Lemma force_version_fields (fv : option String)
    (xk xk' : _ExtendedBIP32KeyData Point) :
  force_version fv xk = Ok xk' ->
  depth (xdata xk') = depth (xdata xk)
  /\ index (xdata xk') = index (xdata xk).
Proof.
  unfold force_version. destruct (truthy fv) as [f|].
  - intros H. inv_ok H. inv_raise H. inv_ret H. auto.
  - intros H. inv_ret H. auto.
Qed.

Lemma derive_overflow (x : BIP32Key) (path : BIP32DerPath)
    (fv : option String) (k : BIP32KeyData) (idx : list Z) :
  key_data x = Ok k ->
  indexes_from_bip32_path path = Ok idx ->
  depth k + Z.of_nat (length idx) > 255 ->
  _derive x path fv = Err FinalDepth /\ derive x path fv = Err FinalDepth.
Proof.
  intros Hk Hidx Hover.
  assert (H : _derive x path fv = Err FinalDepth).
  { rewrite _derive_unfold, Hk, Hidx. cbn [bind].
    replace (depth k + Z.of_nat (length idx) >? 255) with true
      by (symmetry; rewrite Z.gtb_ltb; apply Z.ltb_lt; lia).
    reflexivity. }
  split; [exact H|]. unfold derive. now rewrite H.
Qed.

Lemma force_version_data (fv : option String)
    (xk xk' : _ExtendedBIP32KeyData Point) :
  force_version fv xk = Ok xk' ->
  key (xdata xk') = key (xdata xk).
Proof.
  unfold force_version. destruct (truthy fv) as [f|].
  - intros H. inv_ok H. inv_raise H. inv_ret H. reflexivity.
  - intros H. inv_ret H. reflexivity.
Qed.

End Derivation.

Section EncodedKeys.

Context {C : Collaborators} (L : Laws C).

Lemma b58encode_str_inv (k : BIP32KeyData) (s : list byte) :
  b58encode_str k = Ok s ->
  invariants k /\ s = base58_b58encode (wire k).
Proof.
  intros H.
  assert (Hinv : invariants k).
  { unfold b58encode_str in H. inv_ok H.
    unfold b58encode in Ha. inv_ok Ha.
    unfold serialize in Ha0. apply bind_Ok in Ha0.
    destruct Ha0 as ([] & Hval & _).
    now apply (assert_valid_invariants L). }
  split; [exact Hinv|].
  rewrite (b58encode_str_wire L k Hinv) in H. congruence.
Qed.

End EncodedKeys.


(** ** Private keys: neutering and the private step *)

Section PrivateKeys.

Context {C : Collaborators} (L : Laws C).

Lemma valid_xprv_facts (k : BIP32KeyData) :
  valid_xprv k ->
  invariants k
  /\ exists t, key k = x00 :: t /\ length t = 32%nat
               /\ 0 < from_bytes t < ec_n.
Proof.
  intros [Hval Hprv].
  pose proof (assert_valid_invariants L k Hval) as Hinv.
  split; [exact Hinv|].
  destruct Hinv as [_ _ _ _ _ Hk Hp _ _].
  destruct (Hp Hprv) as [Hb Hq].
  apply byte0_inv in Hb. destruct Hb as (b & t & Hkey & Hb).
  exists t. rewrite Hkey in *. cbn [tl length] in *.
  assert (b = x00) by (apply Z_of_byte_inj; rewrite <- Hb; reflexivity).
  subst b. repeat split; try lia; reflexivity.
Qed.

Lemma ec_n_bytes : ec_n <= 256 ^ Z.of_nat 32.
Proof.
  pose proof ec_n_range. change (256 ^ Z.of_nat 32) with (2 ^ 256). lia.
Qed.

Lemma xpub_version (k : BIP32KeyData) :
  private_version (version k) ->
  exists i v, index_of (version k) _XPRV_VERSIONS_ALL = Some i
              /\ nth_error _XPUB_VERSIONS_ALL i = Some v
              /\ public_version v.
Proof.
  intros Hprv. apply index_of_In in Hprv.
  destruct Hprv as (i & Hi & Hlt). rewrite versions_aligned in Hlt.
  destruct (nth_error _XPUB_VERSIONS_ALL i) as [v|] eqn:Ev.
  - exists i, v. repeat split; try assumption.
    eapply nth_error_In; eauto.
  - apply nth_error_None in Ev. lia.
Qed.

Lemma neutered_invariants (k : BIP32KeyData) (v kb : bytes) :
  invariants k -> public_version v ->
  bytes_from_point (mult (from_bytes (tl (key k)))) = Ok kb ->
  invariants (neutered k v kb).
Proof.
  intros [_ Hd Hfp Hi Hcc _ _ _ Hroot] Hv Hkb.
  apply bytes_from_point_sec in Hkb. destruct Hkb as (Hlen & Hb & Hy & _).
  constructor; cbn [neutered version depth parent_fingerprint index
                    chain_code key]; try assumption.
  - now right.
  - intros Hprv. exfalso. eapply versions_disjoint; eauto.
  - intros _. split; assumption.
Qed.

Lemma _xpub_from_xprv_valid (x : BIP32Key) (k : BIP32KeyData) :
  key_data x = Ok k -> valid_xprv k ->
  exists i v kb,
    index_of (version k) _XPRV_VERSIONS_ALL = Some i
    /\ nth_error _XPUB_VERSIONS_ALL i = Some v
    /\ bytes_from_point (mult (from_bytes (tl (key k)))) = Ok kb
    /\ invariants (neutered k v kb)
    /\ _xpub_from_xprv x = Ok (neutered k v kb)
    /\ xpub_from_xprv x = Ok (base58_b58encode (wire (neutered k v kb))).
Proof.
  intros Hx Hvalid.
  destruct (valid_xprv_facts k Hvalid) as (Hinv & t & Hkey & Hlen & Hq).
  destruct Hvalid as [_ Hprv].
  destruct (xpub_version k Hprv) as (i & v & Hi & Hv & Hpub).
  assert (Hq' : 0 < from_bytes (tl (key k)) < ec_n)
    by (rewrite Hkey; exact Hq).
  destruct (bytes_from_mult _ Hq') as [kb Hkb].
  pose proof (neutered_invariants k v kb Hinv Hpub Hkb) as Hn.
  assert (E : _xpub_from_xprv x = Ok (neutered k v kb)).
  { unfold _xpub_from_xprv. rewrite Hx. cbn [bind].
    rewrite Hkey at 1. cbn [byte0 bind].
    change (Z_of_byte x00 =? 0) with true. cbn [negb bind].
    rewrite Hi. cbn [bind]. rewrite Hv. cbn [bind with_version key].
    rewrite Hkb. reflexivity. }
  exists i, v, kb. splits; try assumption.
  unfold xpub_from_xprv. rewrite E. cbn [bind].
  now apply b58encode_str_wire.
Qed.

Lemma _xpub_from_xprv_not_private (x : BIP32Key) (k : BIP32KeyData)
    (b : Z) :
  key_data x = Ok k -> assert_valid k = Ok tt ->
  byte0 (key k) = Ok b -> b <> 0 ->
  _xpub_from_xprv x = Err NotAPrivateKey
  /\ xpub_from_xprv x = Err NotAPrivateKey.
Proof.
  intros Hx Hval Hb Hne.
  assert (E : _xpub_from_xprv x = Err NotAPrivateKey).
  { unfold _xpub_from_xprv. rewrite Hx. cbn [bind]. rewrite Hb. cbn [bind].
    replace (b =? 0) with false by (symmetry; now apply Z.eqb_neq).
    cbn [negb].
    rewrite (b58encode_str_wire L k (assert_valid_invariants L k Hval)).
    reflexivity. }
  split; [exact E|]. unfold xpub_from_xprv. now rewrite E.
Qed.

End PrivateKeys.

Section NeuteringClaim.

Context {C : Collaborators} (L : Laws C).

(** C8 (amended) — Neutering is a key-kind projection: on a valid private
    extended key, [_xpub_from_xprv] returns the key with the version at the
    same place of the public table and the encoded public point of the
    scalar as key bytes, and with the same depth, index, parent fingerprint
    and chain code; on a valid extended key whose key byte 0 is not 0 it
    fails with the not-a-private-key error. *)
Theorem neutering_projection (x : BIP32Key) (k : BIP32KeyData) :
  key_data x = Ok k ->
  assert_valid k = Ok tt ->
  (private_version (version k) ->
     exists i k',
       _xpub_from_xprv x = Ok k'
       /\ index_of (version k) _XPRV_VERSIONS_ALL = Some i
       /\ nth_error _XPUB_VERSIONS_ALL i = Some (version k')
       /\ bytes_from_point (mult (from_bytes (tl (key k)))) = Ok (key k')
       /\ depth k' = depth k
       /\ index k' = index k
       /\ parent_fingerprint k' = parent_fingerprint k
       /\ chain_code k' = chain_code k)
  /\ (forall b, byte0 (key k) = Ok b -> b <> 0 ->
        _xpub_from_xprv x = Err NotAPrivateKey
        /\ xpub_from_xprv x = Err NotAPrivateKey).
Proof.
  intros Hx Hval. split.
  - intros Hprv.
    destruct (_xpub_from_xprv_valid L x k Hx (conj Hval Hprv))
      as (i & v & kb & Hi & Hv & Hkb & _ & E & _).
    exists i, (neutered k v kb). splits; try assumption; reflexivity.
  - intros b Hb Hne. now apply (_xpub_from_xprv_not_private L x k b).
Qed.

(** C9 (amended) — Root key from seed, for [_rootxprv_from_seed] and for
    its text form [rootxprv_from_seed]: a seed that the conversion to bytes
    refuses fails with the error of the conversion; a seed of less than
    128 bits fails with the too-few-bits error and one of more than 512
    bits with the too-many-bits error; otherwise a version tag that the
    conversion to 4 bytes refuses fails with its error, and a 4-byte tag
    that is not a private version with the unknown-version error;
    otherwise, with [IL] and [IR] the halves of HMAC-SHA512(key = "Bitcoin
    seed", data = seed), the result is the extended key constructed, with
    validation, with that version, depth 0, zero fingerprint, index 0,
    chain code [IR] and key bytes [0x00 ‖ IL]: no other key is returned,
    this one is returned, and its text decodes to it, when [IL] is a
    private scalar, [0 < int(IL) < n], and the validation fails with the
    invalid-private-key error when it is not. *)
Theorem root_from_seed (seed ver : String) :
  let fails := fun e => _rootxprv_from_seed seed ver = Err e
                        /\ rootxprv_from_seed seed ver = Err e in
  (forall e, bytes_from_octets seed None = Err e -> fails e)
  /\ (forall sb, bytes_from_octets seed None = Ok sb ->
      let bits := Z.of_nat (length sb) * 8 in
      let hmac_ := hmac_sha512 Bitcoin_seed sb in
      (bits < 128 -> fails TooFewBits)
      /\ (bits > 512 -> fails TooManyBits)
      /\ (128 <= bits <= 512 ->
          (forall e, bytes_from_octets ver (Some 4%nat) = Err e -> fails e)
          /\ (forall v, bytes_from_octets ver (Some 4%nat) = Ok v ->
                (~ private_version v -> fails UnknownPrvVersion)
                /\ (private_version v ->
                      let root :=
                        mkBIP32KeyData v 0 zero_fingerprint 0
                          (skipn 32 hmac_) (x00 :: firstn 32 hmac_) in
                      _rootxprv_from_seed seed ver
                      = new_BIP32KeyData v 0 zero_fingerprint 0
                          (skipn 32 hmac_) (x00 :: firstn 32 hmac_) true
                      /\ (forall k, _rootxprv_from_seed seed ver = Ok k ->
                                    k = root)
                      /\ (0 < from_bytes (firstn 32 hmac_) < ec_n ->
                            _rootxprv_from_seed seed ver = Ok root
                            /\ invariants root
                            /\ exists s,
                                 rootxprv_from_seed seed ver = Ok s
                                 /\ b58decode (PyStr s) true = Ok root)
                      /\ (~ 0 < from_bytes (firstn 32 hmac_) < ec_n ->
                            fails InvalidPrvKey))))).
Proof.
  intros fails.
  assert (Hfails : forall e, _rootxprv_from_seed seed ver = Err e -> fails e).
  { intros e H. split; [exact H|]. unfold rootxprv_from_seed.
    now rewrite H. }
  split.
  { intros e He. apply Hfails. unfold _rootxprv_from_seed.
    now rewrite He. }
  intros sb Hseed bits hmac_.
  unfold _rootxprv_from_seed in *.
  rewrite Hseed in *. cbn [bind] in *. fold bits in Hfails |- *.
  split; [|split].
  - intros Hb. apply Hfails.
    replace (bits <? 128) with true by (symmetry; apply Z.ltb_lt; lia).
    reflexivity.
  - intros Hb. apply Hfails.
    replace (bits <? 128) with false by (symmetry; apply Z.ltb_ge; lia).
    replace (bits >? 512) with true
      by (symmetry; rewrite Z.gtb_ltb; apply Z.ltb_lt; lia).
    reflexivity.
  - intros Hb.
    replace (bits <? 128) with false in *
      by (symmetry; apply Z.ltb_ge; lia).
    replace (bits >? 512) with false in *
      by (symmetry; rewrite Z.gtb_ltb; apply Z.ltb_ge; lia).
    cbn [raise_if bind] in *. split.
    { intros e He. apply Hfails. now rewrite He. }
    intros v Hv. rewrite Hv in *. cbn [bind] in *.
    fold hmac_ in Hfails |- *. split.
    + intros Hn. apply Hfails.
      apply mem_not_In in Hn. unfold private_version in Hn.
      now rewrite Hn.
    + intros Hp. rewrite (proj2 (mem_In _ _) Hp) in *.
      cbn [negb raise_if bind] in *.
      pose proof (hmac_sha512_length Bitcoin_seed sb) as Hh. fold hmac_ in Hh.
      pose proof (octets_size _ _ _ Hv) as Hvlen.
      assert (Hil : length (firstn 32 hmac_) = 32%nat)
        by (rewrite length_firstn; lia).
      assert (Hir : length (skipn 32 hmac_) = 32%nat)
        by (rewrite length_skipn; lia).
      split; [reflexivity|].
      unfold new_BIP32KeyData in *. split; [|split].
      * intros k Hk. apply bind_Ok in Hk. destruct Hk as (u & _ & Hk).
        symmetry. now apply Ok_inj.
      * intros Hq.
        assert (Hinv : invariants
                         (mkBIP32KeyData v 0 zero_fingerprint 0
                            (skipn 32 hmac_) (x00 :: firstn 32 hmac_))).
        { constructor; cbn [version depth parent_fingerprint index
                            chain_code key byte0 tl length];
            try lia; try reflexivity.
          - now left.
          - intros _. split; [reflexivity | exact Hq].
          - intros Hpub. exfalso. eapply versions_disjoint; eauto.
          - intros _. split; reflexivity. }
        assert (Hret : (assert_valid
                          (mkBIP32KeyData v 0 [x00; x00; x00; x00] 0
                             (skipn 32 hmac_) (x00 :: firstn 32 hmac_)) ;;;
                        Ok (mkBIP32KeyData v 0 [x00; x00; x00; x00] 0
                              (skipn 32 hmac_) (x00 :: firstn 32 hmac_)))
                       = Ok (mkBIP32KeyData v 0 zero_fingerprint 0
                               (skipn 32 hmac_) (x00 :: firstn 32 hmac_))).
        { change [x00; x00; x00; x00] with zero_fingerprint.
          now rewrite (invariants_assert_valid L _ Hinv). }
        split; [exact Hret|]. split; [exact Hinv|].
        exists (base58_b58encode
                  (wire (mkBIP32KeyData v 0 zero_fingerprint 0
                           (skipn 32 hmac_) (x00 :: firstn 32 hmac_)))).
        split.
        -- unfold rootxprv_from_seed, _rootxprv_from_seed.
           rewrite Hseed. cbn [bind]. fold bits.
           replace (bits <? 128) with false
             by (symmetry; apply Z.ltb_ge; lia).
           replace (bits >? 512) with false
             by (symmetry; rewrite Z.gtb_ltb; apply Z.ltb_ge; lia).
           cbn [raise_if bind].
           rewrite Hv. cbn [bind]. rewrite (proj2 (mem_In _ _) Hp).
           cbn [negb raise_if bind]. unfold new_BIP32KeyData.
           fold hmac_. rewrite Hret. cbn [bind].
           now apply (b58encode_str_wire L).
        -- now apply (b58decode_str_wire L).
      * intros Hq. apply Hfails. unfold assert_valid.
        cbn [version depth parent_fingerprint index chain_code key tl
             length].
        do 6 pass_guard.
        rewrite (proj2 (mem_In _ _) Hp). cbn [byte0 bind].
        change (Z_of_byte x00 =? 0) with true. cbn [negb raise_if bind].
        replace ((0 <? from_bytes (firstn 32 hmac_))
                 && (from_bytes (firstn 32 hmac_) <? ec_n)) with false.
        -- reflexivity.
        -- symmetry. apply andb_false_iff.
           destruct (Z.ltb_spec 0 (from_bytes (firstn 32 hmac_)));
             [|now left].
           right. apply Z.ltb_ge. lia.
Qed.

End NeuteringClaim.

(** The keys of the model are valid. *)
Lemma model_valid :
  valid_xprv (C := Model.collaborators) Model.root
  /\ valid_xprv (C := Model.collaborators) Model.five
  /\ valid_xpub (C := Model.collaborators) Model.five_pub
  /\ valid_xpub (C := Model.collaborators) Model.deep_pub
  /\ valid_xprv (C := Model.collaborators) Model.degenerate
  /\ valid_xprv (C := Model.collaborators) Model.hardened_child
  /\ valid_xprv (C := Model.collaborators) Model.hardened_grandchild.
Proof.
  assert (Hprv : private_version (C := Model.collaborators) Model.xprv_tag)
    by (apply (mem_In Model.xprv_tag); vm_compute; reflexivity).
  assert (Hpub : public_version (C := Model.collaborators) Model.xpub_tag)
    by (apply (mem_In Model.xpub_tag); vm_compute; reflexivity).
  splits; (split; [vm_compute; reflexivity | assumption]).
Qed.

Lemma neutering_projection_witness :
  exists k',
    _xpub_from_xprv (C := Model.collaborators) (KeyData Model.five) = Ok k'
    /\ depth k' = 0 /\ index k' = 0
    /\ parent_fingerprint k' = zero_fingerprint
    /\ chain_code k' = chain_code Model.five.
Proof.
  destruct model_valid as (_ & [Hval Hprv] & _).
  destruct (proj1 (neutering_projection model_laws (KeyData Model.five)
                     Model.five eq_refl Hval) Hprv)
    as (i & k' & E & _ & _ & _ & Hd & Hi & Hfp & Hcc).
  exists k'. splits; assumption.
Defined.

(** C8, as first stated: an input whose key byte 0 is not 0 need not fail
    with the not-a-private-key error.  A key built without validation, with
    a private version and the key bytes of a public key, fails with the
    private-key-prefix error of the validation, which [b58encode] runs
    while the message of the error is built. *)
Lemma neutering_invalid_input :
  byte0 (key Model.mixed) = Ok 2
  /\ _xpub_from_xprv (C := Model.collaborators) (KeyData Model.mixed)
     = Err InvalidPrvKeyPrefix
  /\ _xpub_from_xprv (C := Model.collaborators) (KeyData Model.mixed)
     <> Err NotAPrivateKey.
Proof.
  assert (E : _xpub_from_xprv (C := Model.collaborators)
                (KeyData Model.mixed) = Err InvalidPrvKeyPrefix)
    by (vm_compute; reflexivity).
  splits; [reflexivity | exact E | rewrite E; discriminate].
Qed.

Lemma root_from_seed_witness :
  _rootxprv_from_seed (C := Model.collaborators) (PyBytes Model.seed)
    (PyBytes Model.xprv_tag) = Ok Model.root
  /\ exists s,
       rootxprv_from_seed (C := Model.collaborators) (PyBytes Model.seed)
         (PyBytes Model.xprv_tag) = Ok s
       /\ b58decode (C := Model.collaborators) (PyStr s) true
          = Ok Model.root.
Proof.
  assert (Hbits : 128 <= Z.of_nat (length Model.seed) * 8 <= 512)
    by (vm_compute; split; discriminate).
  assert (Hprv : private_version (C := Model.collaborators) Model.xprv_tag)
    by (apply (mem_In Model.xprv_tag); vm_compute; reflexivity).
  assert (Hq : 0 < from_bytes (firstn 32 (Model.hmac Bitcoin_seed Model.seed))
               < Model.n) by (vm_compute; split; reflexivity).
  destruct (proj2 (root_from_seed model_laws (PyBytes Model.seed)
                     (PyBytes Model.xprv_tag)) Model.seed eq_refl)
    as (_ & _ & H).
  destruct (H Hbits) as (_ & Hv).
  destruct (Hv Model.xprv_tag eq_refl) as (_ & Hp).
  destruct (Hp Hprv) as (_ & _ & Hr & _).
  destruct (Hr Hq) as (Hroot & _ & Htext).
  split; [exact Hroot | exact Htext].
Defined.

(** C9, as first stated: with a seed of a valid length, a version tag that
    is not a known private version need not fail with the unknown-version
    error.  A tag of three bytes is refused by the conversion to 4 bytes,
    before the table of versions is looked at, and the error is that of
    the conversion. *)
Lemma root_from_short_version :
  Z.of_nat (length Model.seed) * 8 = 128
  /\ ~ private_version (C := Model.collaborators) [x04; x88; xad]
  /\ bytes_from_octets (Collaborators := Model.collaborators)
       (PyBytes [x04; x88; xad]) (Some 4%nat) = Err (External 6)
  /\ _rootxprv_from_seed (C := Model.collaborators) (PyBytes Model.seed)
       (PyBytes [x04; x88; xad]) = Err (External 6)
  /\ _rootxprv_from_seed (C := Model.collaborators) (PyBytes Model.seed)
       (PyBytes [x04; x88; xad]) <> Err UnknownPrvVersion
  /\ rootxprv_from_seed (C := Model.collaborators) (PyBytes Model.seed)
       (PyBytes [x04; x88; xad]) <> Err UnknownPrvVersion.
Proof.
  assert (E : _rootxprv_from_seed (C := Model.collaborators)
                (PyBytes Model.seed) (PyBytes [x04; x88; xad])
              = Err (External 6)) by (vm_compute; reflexivity).
  assert (E' : rootxprv_from_seed (C := Model.collaborators)
                 (PyBytes Model.seed) (PyBytes [x04; x88; xad])
               = Err (External 6)) by (vm_compute; reflexivity).
  splits.
  - reflexivity.
  - intros H. apply (mem_In [x04; x88; xad]) in H. vm_compute in H.
    discriminate.
  - reflexivity.
  - exact E.
  - rewrite E. discriminate.
  - rewrite E'. discriminate.
Qed.

(** Nor does every seed of a valid length give a key with a known private
    version: where the left half of the digest is zero, as it is for the
    zero seed in the model whose digest starts with the message, the
    validation of the root key fails with the invalid-private-key error. *)
Lemma root_from_degenerate_seed :
  Z.of_nat (length Model.zero_seed) * 8 = 256
  /\ private_version (C := Model.swapped) Model.xprv_tag
  /\ _rootxprv_from_seed (C := Model.swapped) (PyBytes Model.zero_seed)
       (PyBytes Model.xprv_tag) = Err InvalidPrvKey.
Proof.
  splits.
  - reflexivity.
  - apply (mem_In Model.xprv_tag). vm_compute. reflexivity.
  - vm_compute. reflexivity.
Qed.

(** ** Cracking *)

Section CrackClaim.

Context {C : Collaborators} (L : Laws C).

Lemma crack_inv (xp xc : BIP32Key) (s : list byte) :
  crack_prv_key xp xc = Ok s ->
  exists p c, key_data xp = Ok p /\ key_data xc = Ok c
              /\ byte0 (key c) = Ok 0
              /\ depth c = depth p + 1
              /\ parent_fingerprint c = firstn 4 (hash160 (key p))
              /\ index c < 0x80000000.
Proof.
  unfold crack_prv_key. intros H.
  apply bind_Ok in H. destruct H as (p & Hp & H).
  apply bind_Ok in H. destruct H as (p0 & Hp0 & H).
  apply bind_Ok in H. destruct H as (u & _ & H).
  apply bind_Ok in H. destruct H as (c & Hc & H).
  apply bind_Ok in H. destruct H as (c0 & Hc0 & H).
  apply bind_Ok in H. destruct H as (u' & Hchild & H).
  do 3 inv_raise H. unfold is_hardened in *. b2p.
  exists p, c. splits; try assumption; try lia.
  destruct (c0 =? 0) eqn:E0; cbn [negb] in Hchild.
  - b2p. now subst c0.
  - apply bind_Ok in Hchild. destruct Hchild as (? & _ & Hd). discriminate.
Qed.

(** C4 (amended) — The preconditions of the crack are checked in this order,
    and the first that fails gives the error: a valid parent [p] whose key
    byte 0 is neither 2 nor 3 gives the not-a-public-key error; then a valid
    child [c] whose key byte 0 is not 0 gives the not-a-private-key error;
    then [depth c <> depth p + 1] gives the wrong-depths error; then a
    parent fingerprint of [c] other than the first 4 bytes of
    [hash160 (key p)] gives the wrong-fingerprint error (both are the
    "not a parent's child" mismatch); then a hardened child gives the
    hardened-child error.  Whatever the parent, the crack of a hardened child
    never returns a key. *)
Theorem crack_preconditions (xp xc : BIP32Key) :
  (forall p b, key_data xp = Ok p -> assert_valid p = Ok tt ->
     byte0 (key p) = Ok b -> b <> 2 -> b <> 3 ->
     crack_prv_key xp xc = Err ParentNotAPublicKey)
  /\ (forall p c, key_data xp = Ok p -> key_data xc = Ok c ->
        byte0 (key p) = Ok 2 \/ byte0 (key p) = Ok 3 ->
        (forall b, assert_valid c = Ok tt -> byte0 (key c) = Ok b -> b <> 0 ->
           crack_prv_key xp xc = Err ChildNotAPrivateKey)
        /\ (byte0 (key c) = Ok 0 -> depth c <> depth p + 1 ->
              crack_prv_key xp xc = Err WrongDepths)
        /\ (byte0 (key c) = Ok 0 -> depth c = depth p + 1 ->
              parent_fingerprint c <> firstn 4 (hash160 (key p)) ->
              crack_prv_key xp xc = Err WrongFingerprint)
        /\ (byte0 (key c) = Ok 0 -> depth c = depth p + 1 ->
              parent_fingerprint c = firstn 4 (hash160 (key p)) ->
              index c >= 0x80000000 ->
              crack_prv_key xp xc = Err HardenedChild))
  /\ (forall c s, key_data xc = Ok c -> index c >= 0x80000000 ->
        crack_prv_key xp xc <> Ok s).
Proof.
  splits.
  - intros p b Hp Hval Hb H2 H3. unfold crack_prv_key.
    rewrite Hp. cbn [bind]. rewrite Hb. cbn [bind].
    replace ((b =? 2) || (b =? 3)) with false.
    + cbn [negb].
      rewrite (b58encode_str_wire L p (assert_valid_invariants L p Hval)).
      reflexivity.
    + symmetry. apply orb_false_iff. split; now apply Z.eqb_neq.
  - intros p c Hp Hc Hb.
    assert (Hpub : forall k : unit -> result (list byte),
              (p0 <- byte0 (key p) ;;
               (if negb ((p0 =? 2) || (p0 =? 3))
                then _ <- b58encode_str p ;; Err ParentNotAPublicKey
                else Ok tt) ;;; k tt) = k tt).
    { intros k. destruct Hb as [Hb|Hb]; rewrite Hb; reflexivity. }
    splits.
    + intros b Hval Hcb Hne. unfold crack_prv_key.
      rewrite Hp. cbn [bind].
      rewrite (Hpub (fun _ => _)). rewrite Hc. cbn [bind].
      rewrite Hcb. cbn [bind].
      replace (b =? 0) with false by (symmetry; now apply Z.eqb_neq).
      cbn [negb].
      rewrite (b58encode_str_wire L c (assert_valid_invariants L c Hval)).
      reflexivity.
    + intros Hcb Hd. unfold crack_prv_key. rewrite Hp. cbn [bind].
      rewrite (Hpub (fun _ => _)). rewrite Hc. cbn [bind].
      rewrite Hcb. cbn [bind]. change (0 =? 0) with true. cbn [negb bind].
      replace (depth c =? depth p + 1) with false
        by (symmetry; now apply Z.eqb_neq).
      reflexivity.
    + intros Hcb Hd Hfp. unfold crack_prv_key. rewrite Hp. cbn [bind].
      rewrite (Hpub (fun _ => _)). rewrite Hc. cbn [bind].
      rewrite Hcb. cbn [bind]. change (0 =? 0) with true. cbn [negb bind].
      replace (depth c =? depth p + 1) with true
        by (symmetry; now apply Z.eqb_eq).
      cbn [negb raise_if bind].
      replace (bytes_eqb (parent_fingerprint c)
                 (firstn 4 (hash160 (key p)))) with false
        by (symmetry; now apply bytes_eqb_neq).
      reflexivity.
    + intros Hcb Hd Hfp Hi. unfold crack_prv_key. rewrite Hp. cbn [bind].
      rewrite (Hpub (fun _ => _)). rewrite Hc. cbn [bind].
      rewrite Hcb. cbn [bind]. change (0 =? 0) with true. cbn [negb bind].
      replace (depth c =? depth p + 1) with true
        by (symmetry; now apply Z.eqb_eq).
      cbn [negb raise_if bind].
      rewrite Hfp, bytes_eqb_refl. cbn [negb raise_if bind].
      unfold is_hardened.
      replace (index c >=? 2147483648) with true
        by (symmetry; rewrite Z.geb_leb; apply Z.leb_le; lia).
      reflexivity.
  - intros c s Hc Hi H. apply crack_inv in H.
    destruct H as (p' & c' & _ & Hc' & _ & _ & _ & Hlt).
    rewrite Hc in Hc'. apply Ok_inj in Hc'. subst c'. lia.
Qed.

End CrackClaim.

Lemma crack_preconditions_witness :
  crack_prv_key (C := Model.collaborators) (KeyData Model.five_pub)
    (KeyData Model.hardened_child) = Err HardenedChild.
Proof.
  refine (proj2 (proj2 (proj2 (proj1 (proj2 (crack_preconditions model_laws
            (KeyData Model.five_pub) (KeyData Model.hardened_child)))
            Model.five_pub Model.hardened_child eq_refl eq_refl _)))
            _ _ _ _).
  - left. reflexivity.
  - reflexivity.
  - reflexivity.
  - vm_compute. reflexivity.
  - vm_compute. discriminate.
Defined.

(** C4, as first stated: the errors do not depend on one precondition each.
    With a private key for parent and a public key for child, the child key
    byte 0 is not 0 and the error is the not-a-public-key one; with a
    hardened child at the wrong depth the error is the wrong-depths one. *)
Lemma crack_first_failure :
  (byte0 (key Model.five_pub) = Ok 2
   /\ crack_prv_key (C := Model.collaborators) (KeyData Model.five)
        (KeyData Model.five_pub) = Err ParentNotAPublicKey
   /\ crack_prv_key (C := Model.collaborators) (KeyData Model.five)
        (KeyData Model.five_pub) <> Err ChildNotAPrivateKey)
  /\ (index Model.hardened_grandchild >= 0x80000000
      /\ crack_prv_key (C := Model.collaborators) (KeyData Model.five_pub)
           (KeyData Model.hardened_grandchild) = Err WrongDepths
      /\ crack_prv_key (C := Model.collaborators) (KeyData Model.five_pub)
           (KeyData Model.hardened_grandchild) <> Err HardenedChild).
Proof.
  assert (E1 : crack_prv_key (C := Model.collaborators) (KeyData Model.five)
                 (KeyData Model.five_pub) = Err ParentNotAPublicKey)
    by (vm_compute; reflexivity).
  assert (E2 : crack_prv_key (C := Model.collaborators)
                 (KeyData Model.five_pub) (KeyData Model.hardened_grandchild)
               = Err WrongDepths)
    by (vm_compute; reflexivity).
  splits.
  - reflexivity.
  - exact E1.
  - rewrite E1. discriminate.
  - vm_compute. discriminate.
  - exact E2.
  - rewrite E2. discriminate.
Qed.

(** ** One derivation step from a private and from a public key *)

Section Steps.

Context {C : Collaborators} (L : Laws C).

Lemma new_BIP32KeyData_valid (k : BIP32KeyData) :
  assert_valid k = Ok tt ->
  new_BIP32KeyData (version k) (depth k) (parent_fingerprint k) (index k)
    (chain_code k) (key k) true = Ok k.
Proof.
  intros H. unfold new_BIP32KeyData. destruct k. cbn [version depth
    parent_fingerprint index chain_code key] in *. now rewrite H.
Qed.

Lemma extended_of_prv (k : BIP32KeyData) :
  valid_xprv k ->
  extended_of k = Ok (mkExtended k (from_bytes (tl (key k))) INF).
Proof.
  intros Hvalid.
  destruct (valid_xprv_facts L k Hvalid) as (_ & t & Hkey & _ & _).
  destruct Hvalid as [Hval _].
  unfold extended_of, cache_of, new_ExtendedBIP32KeyData.
  rewrite Hkey at 1. cbn [byte0 bind].
  change (Z_of_byte x00 =? 0) with true. cbn [bind fst snd].
  now rewrite (new_BIP32KeyData_valid k Hval).
Qed.

Lemma extended_of_pub (k : BIP32KeyData) (P : Point) :
  assert_valid k = Ok tt ->
  byte0 (key k) = Ok 2 \/ byte0 (key k) = Ok 3 ->
  point_from_octets (key k) = Ok P ->
  extended_of k = Ok (mkExtended k 0 P).
Proof.
  intros Hval Hb HP.
  unfold extended_of, cache_of, new_ExtendedBIP32KeyData.
  destruct Hb as [Hb|Hb]; rewrite Hb; cbn [bind];
    [change (2 =? 0) with false | change (3 =? 0) with false];
    cbv iota; rewrite HP; cbn [bind fst snd];
    now rewrite (new_BIP32KeyData_valid k Hval).
Qed.

Lemma child_scalar_range (a b : Z) : 0 <= (a + b) mod ec_n < 256 ^ Z.of_nat 32.
Proof.
  pose proof ec_n_range. pose proof (ec_n_bytes L).
  pose proof (Z.mod_pos_bound (a + b) ec_n). lia.
Qed.

Lemma index_bytes (i : Z) :
  0 <= i < 2 ^ 32 -> to_bytes 4 i = Ok (be_bytes 4 i).
Proof.
  intros Hi. apply to_bytes_Ok. change (256 ^ Z.of_nat 4) with (2 ^ 32). lia.
Qed.

Lemma ckd_prv (xk : _ExtendedBIP32KeyData Point) (i : Z) (Q_bytes : bytes) :
  byte0 (key (xdata xk)) = Ok 0 ->
  q xk = from_bytes (tl (key (xdata xk))) ->
  bytes_from_point (mult (q xk)) = Ok Q_bytes ->
  0 <= i < 2 ^ 32 ->
  __ckd xk i
  = Ok (mkExtended (prv_child (xdata xk) i Q_bytes)
          ((q xk + from_bytes (firstn 32 (prv_digest (xdata xk) i Q_bytes)))
           mod ec_n) INF).
Proof.
  intros Hb Hq HQ Hi. unfold __ckd, prv_child, prv_digest, is_hardened.
  cbn [with_depth with_index with_parent_fingerprint with_chain_code
       with_key version depth parent_fingerprint index chain_code key].
  rewrite Hb. cbn [bind]. change (0 =? 0) with true. cbv iota.
  rewrite HQ. cbn [bind]. rewrite (index_bytes i Hi).
  destruct (i >=? 2147483648); cbn [bind];
    rewrite to_bytes_Ok by apply child_scalar_range; cbn [bind];
    rewrite <- Hq; reflexivity.
Qed.

Lemma ckd_pub (xk : _ExtendedBIP32KeyData Point) (i b : Z) (Q' : Point)
    (kb : bytes) :
  byte0 (key (xdata xk)) = Ok b -> b <> 0 ->
  0 <= i < 2 ^ 31 ->
  let k := xdata xk in
  let hmac_ := hmac_sha512 (chain_code k) (key k ++ be_bytes 4 i) in
  ec_add (Q xk) (mult (from_bytes (firstn 32 hmac_))) = Ok Q' ->
  bytes_from_point Q' = Ok kb ->
  __ckd xk i
  = Ok (mkExtended
          (mkBIP32KeyData (version k) (depth k + 1)
             (firstn 4 (hash160 (key k))) i (skipn 32 hmac_) kb) 0 Q').
Proof.
  intros Hb Hne Hi k hmac_ Hadd Hkb. subst k hmac_.
  unfold __ckd, is_hardened.
  cbn [with_depth with_index with_parent_fingerprint with_chain_code
       with_key version depth parent_fingerprint index chain_code key].
  rewrite Hb. cbn [bind].
  replace (b =? 0) with false by (symmetry; now apply Z.eqb_neq).
  cbv iota.
  replace (i >=? 2147483648) with false
    by (symmetry; rewrite Z.geb_leb; apply Z.leb_gt; lia).
  cbv iota. rewrite index_bytes by lia. cbn [bind].
  rewrite Hadd. cbn [bind]. rewrite Hkb. reflexivity.
Qed.

Lemma ckd_pub_hardened (xk : _ExtendedBIP32KeyData Point) (i b : Z) :
  byte0 (key (xdata xk)) = Ok b -> b <> 0 -> i >= 0x80000000 ->
  __ckd xk i = Err HardenedFromPublicKey.
Proof.
  intros Hb Hne Hi. unfold __ckd, is_hardened.
  cbn [with_depth with_index with_parent_fingerprint version depth
       parent_fingerprint index chain_code key].
  rewrite Hb. cbn [bind].
  replace (b =? 0) with false by (symmetry; now apply Z.eqb_neq).
  cbv iota.
  replace (i >=? 2147483648) with true
    by (symmetry; rewrite Z.geb_leb; apply Z.leb_le; lia).
  reflexivity.
Qed.

Lemma prv_child_invariants (k : BIP32KeyData) (i : Z) (Q_bytes : bytes) :
  valid_xprv k -> depth k < 255 -> 0 <= i < 2 ^ 32 ->
  (from_bytes (tl (key k))
   + from_bytes (firstn 32 (prv_digest k i Q_bytes))) mod ec_n <> 0 ->
  invariants (prv_child k i Q_bytes).
Proof.
  intros Hvalid Hd Hi Hq.
  destruct (valid_xprv_facts L k Hvalid) as (Hinv & _).
  destruct Hvalid as [_ Hprv].
  destruct Hinv as [_ Hdk _ _ _ _ _ _ _].
  pose proof (child_scalar_range (from_bytes (tl (key k)))
                (from_bytes (firstn 32 (prv_digest k i Q_bytes)))) as Hr.
  pose proof ec_n_range as Hn.
  pose proof (Z.mod_pos_bound
                (from_bytes (tl (key k))
                 + from_bytes (firstn 32 (prv_digest k i Q_bytes))) ec_n).
  assert (Hh : length (prv_digest k i Q_bytes) = 64%nat).
  { unfold prv_digest. destruct (i >=? 2147483648);
      apply hmac_sha512_length. }
  unfold prv_child.
  constructor; cbn [version depth parent_fingerprint index chain_code key
                    byte0 tl length].
  - now left.
  - lia.
  - rewrite length_firstn, hash160_length. reflexivity.
  - change 4294967295 with (2 ^ 32 - 1). lia.
  - rewrite length_skipn, Hh. reflexivity.
  - now rewrite be_bytes_length.
  - intros _. split; [reflexivity|].
    rewrite from_be_bytes by exact Hr. lia.
  - intros Hpub. exfalso. eapply versions_disjoint; eauto.
  - intros H0. lia.
Qed.

Lemma prv_child_scalar_eq (k : BIP32KeyData) (i : Z) (Q_bytes : bytes) :
  bytes_from_point (mult (from_bytes (tl (key k)))) = Ok Q_bytes ->
  0 <= i < 2 ^ 32 ->
  prv_child_scalar k i
  = Ok ((from_bytes (tl (key k))
         + from_bytes (firstn 32 (prv_digest k i Q_bytes))) mod ec_n).
Proof.
  intros HQ Hi. unfold prv_child_scalar, prv_digest.
  rewrite HQ. cbn [bind]. rewrite index_bytes by exact Hi.
  now destruct (i >=? 2147483648).
Qed.

Lemma _derive_prv_step (x : BIP32Key) (k : BIP32KeyData)
    (path : BIP32DerPath) (i : Z) (Q_bytes : bytes) :
  key_data x = Ok k -> valid_xprv k -> depth k < 255 ->
  0 <= i < 2 ^ 32 ->
  indexes_from_bip32_path path = Ok [i] ->
  bytes_from_point (mult (from_bytes (tl (key k)))) = Ok Q_bytes ->
  _derive x path None
  = Ok (mkExtended (prv_child k i Q_bytes)
          ((from_bytes (tl (key k))
            + from_bytes (firstn 32 (prv_digest k i Q_bytes))) mod ec_n)
          INF).
Proof.
  intros Hx Hvalid Hd Hi Hpath HQ.
  destruct (valid_xprv_facts L k Hvalid) as (_ & t & Hkey & _ & _).
  rewrite _derive_unfold, Hx, Hpath. cbn [bind length].
  replace (depth k + Z.of_nat 1 >? 255) with false
    by (symmetry; rewrite Z.gtb_ltb; apply Z.ltb_ge; lia).
  cbn [raise_if bind]. rewrite (extended_of_prv k Hvalid). cbn [bind ckd_loop].
  rewrite (ckd_prv _ i Q_bytes); cbn [xdata q]; try assumption;
    try reflexivity.
  rewrite Hkey. reflexivity.
Qed.

Lemma derive_prv_step (x : BIP32Key) (k : BIP32KeyData)
    (path : BIP32DerPath) (i : Z) (Q_bytes : bytes) :
  key_data x = Ok k -> valid_xprv k -> depth k < 255 ->
  0 <= i < 2 ^ 32 ->
  indexes_from_bip32_path path = Ok [i] ->
  bytes_from_point (mult (from_bytes (tl (key k)))) = Ok Q_bytes ->
  prv_child_scalar k i <> Ok 0 ->
  invariants (prv_child k i Q_bytes)
  /\ derive x path None
     = Ok (base58_b58encode (wire (prv_child k i Q_bytes))).
Proof.
  intros Hx Hvalid Hd Hi Hpath HQ Hq.
  rewrite (prv_child_scalar_eq k i Q_bytes HQ Hi) in Hq.
  assert (Hq' : (from_bytes (tl (key k))
                 + from_bytes (firstn 32 (prv_digest k i Q_bytes)))
                mod ec_n <> 0) by congruence.
  pose proof (prv_child_invariants k i Q_bytes Hvalid Hd Hi Hq') as Hinv.
  split; [exact Hinv|].
  unfold derive.
  rewrite (_derive_prv_step x k path i Q_bytes Hx Hvalid Hd Hi Hpath HQ).
  cbn [bind xdata]. now apply b58encode_str_wire.
Qed.

(** When the child scalar is zero, the child that [_derive] returns does
    not pass the validation that [derive] runs to encode it. *)
Lemma derive_prv_zero (x : BIP32Key) (k : BIP32KeyData)
    (path : BIP32DerPath) (i : Z) :
  key_data x = Ok k -> valid_xprv k -> depth k < 255 ->
  0 <= i < 2 ^ 32 ->
  indexes_from_bip32_path path = Ok [i] ->
  prv_child_scalar k i = Ok 0 ->
  exists e, derive x path None = Err e.
Proof.
  intros Hx Hvalid Hd Hi Hpath Hq.
  destruct (_xpub_from_xprv_valid L x k Hx Hvalid)
    as (_ & _ & Q_bytes & _ & _ & HQ & _).
  rewrite (prv_child_scalar_eq k i Q_bytes HQ Hi) in Hq.
  apply Ok_inj in Hq.
  unfold derive.
  rewrite (_derive_prv_step x k path i Q_bytes Hx Hvalid Hd Hi Hpath HQ).
  cbn [bind xdata].
  destruct (b58encode_str (prv_child k i Q_bytes)) as [s|e] eqn:E;
    [|now exists e].
  exfalso. apply (b58encode_str_inv L) in E. destruct E as [Hinv _].
  assert (Hprv : private_version (version (prv_child k i Q_bytes)))
    by apply Hvalid.
  destruct (inv_private _ Hinv Hprv) as [_ Hr].
  unfold prv_child in Hr. cbn [key tl] in Hr.
  rewrite from_be_bytes in Hr by apply child_scalar_range. lia.
Qed.

End Steps.

Section DepthClaim.

Context {C : Collaborators} (L : Laws C).

(** C6 — Depth monotonicity and overflow: with [k] the start key and [idx]
    the parsed path, a derivation whose final depth [depth k + length idx]
    exceeds 255 fails with the final-depth error whatever the key kind and
    the indexes, the check standing before the loop of derivation steps;
    and every key that [_derive], or [derive] as text, returns has depth
    [depth k + length idx], at most 255, and the last index of the path as
    its index (the index of [k] for the empty path).  From a valid private
    key with depth below 255, [_derive] returns a key for every one-index
    path. *)
Theorem derive_depth (x : BIP32Key) (path : BIP32DerPath)
    (fv : option String) (k : BIP32KeyData) (idx : list Z) :
  key_data x = Ok k ->
  indexes_from_bip32_path path = Ok idx ->
  (depth k + Z.of_nat (length idx) > 255 ->
     _derive x path fv = Err FinalDepth /\ derive x path fv = Err FinalDepth)
  /\ (forall xk, _derive x path fv = Ok xk ->
        depth k + Z.of_nat (length idx) <= 255
        /\ depth (xdata xk) = depth k + Z.of_nat (length idx)
        /\ index (xdata xk) = last idx (index k))
  /\ (forall s, derive x path fv = Ok s ->
        exists k', b58decode (PyStr s) true = Ok k'
                   /\ depth k' = depth k + Z.of_nat (length idx)
                   /\ index k' = last idx (index k))
  /\ (forall i, valid_xprv k -> depth k < 255 -> 0 <= i < 2 ^ 32 ->
        idx = [i] -> exists xk, _derive x path None = Ok xk).
Proof.
  intros Hk Hidx.
  assert (Hfields : forall xk, _derive x path fv = Ok xk ->
            depth k + Z.of_nat (length idx) <= 255
            /\ depth (xdata xk) = depth k + Z.of_nat (length idx)
            /\ index (xdata xk) = last idx (index k)).
  { intros xk H. rewrite _derive_unfold, Hk, Hidx in H. cbn [bind] in H.
    inv_raise H. do 2 inv_ok H. b2p.
    apply extended_of_inv in Ha. destruct Ha as (Hx & _ & _).
    apply ckd_loop_fields in Ha0. destruct Ha0 as (_ & Hd & Hi).
    apply force_version_fields in H. destruct H as (Hd' & Hi').
    rewrite Hd', Hi', Hd, Hi, Hx. repeat split; lia. }
  splits.
  - intros Hover. now apply (derive_overflow x path fv k idx).
  - exact Hfields.
  - intros s H. unfold derive in H. inv_ok H.
    apply Hfields in Ha. destruct Ha as (_ & Hd & Hi).
    apply (b58encode_str_inv L) in H. destruct H as [Hinv ->].
    exists (xdata a). split; [|split]; try assumption.
    now apply b58decode_str_wire.
  - intros i Hvalid Hd Hi ->.
    destruct (_xpub_from_xprv_valid L x k Hk Hvalid)
      as (_ & _ & Q_bytes & _ & _ & HQ & _).
    eexists. now apply (_derive_prv_step L x k path i Q_bytes).
Qed.

End DepthClaim.

Lemma derive_depth_witness :
  exists xk,
    _derive (C := Model.collaborators) (KeyData Model.root) [3; 4] None
    = Ok xk
    /\ depth (xdata xk) = 2 /\ index (xdata xk) = 4.
Proof.
  assert (E : exists xk,
            _derive (C := Model.collaborators) (KeyData Model.root) [3; 4]
              None = Ok xk)
    by (eexists; vm_compute; reflexivity).
  destruct E as [xk E]. exists xk. split; [exact E|].
  exact (proj2 (proj1 (proj2 (derive_depth model_laws (KeyData Model.root)
           [3; 4] None Model.root [3; 4] eq_refl eq_refl)) xk E)).
Defined.

Section CrackRecovers.

Context {C : Collaborators} (L : Laws C).

Lemma crack_child (xp xc : BIP32Key) (k : BIP32KeyData) (i : Z)
    (v Q_bytes : bytes) :
  valid_xprv k -> 0 <= i < 0x80000000 ->
  bytes_from_point (mult (from_bytes (tl (key k)))) = Ok Q_bytes ->
  key_data xp = Ok (neutered k v Q_bytes) ->
  key_data xc = Ok (prv_child k i Q_bytes) ->
  crack_prv_key xp xc = b58encode_str k.
Proof.
  intros Hvalid Hi HQ Hxp Hxc.
  destruct (valid_xprv_facts L k Hvalid) as (Hinv & t & Hkey & Hlen & Hq).
  pose proof (bytes_from_point_sec _ _ HQ) as (_ & Hb & _ & _).
  pose proof ec_n_range as Hrange.
  unfold crack_prv_key. rewrite Hxp. cbn [bind].
  assert (Hpub : forall r : result (list byte),
            (p0 <- byte0 (key (neutered k v Q_bytes)) ;;
             (if negb ((p0 =? 2) || (p0 =? 3))
              then _ <- b58encode_str (neutered k v Q_bytes) ;;
                   Err ParentNotAPublicKey
              else Ok tt) ;;; r) = r).
  { intros r. cbn [neutered key].
    destruct Hb as [Hb|Hb]; rewrite Hb; reflexivity. }
  rewrite Hpub. rewrite Hxc. cbn [bind].
  assert (Hlow : (i >=? 2147483648) = false)
    by (rewrite Z.geb_leb; apply Z.leb_gt; lia).
  unfold is_hardened, prv_child, prv_digest. rewrite Hlow.
  cbn [neutered with_version with_key version depth parent_fingerprint
       index chain_code key byte0 tl bind].
  change (Z_of_byte x00 =? 0) with true. cbn [negb bind].
  rewrite Z.eqb_refl, bytes_eqb_refl, Hlow. cbn [negb raise_if bind].
  rewrite index_bytes by (change (2 ^ 32) with 4294967296; lia).
  cbn [bind].
  rewrite from_be_bytes by apply (child_scalar_range L).
  rewrite Zminus_mod_idemp_l.
  replace (from_bytes (tl (key k))
           + from_bytes
               (firstn 32
                  (hmac_sha512 (chain_code k) (Q_bytes ++ be_bytes 4 i)))
           - from_bytes
               (firstn 32
                  (hmac_sha512 (chain_code k) (Q_bytes ++ be_bytes 4 i))))
    with (from_bytes (tl (key k))) by lia.
  rewrite Hkey. cbn [tl]. rewrite Z.mod_small by lia.
  rewrite <- Hlen, to_from_bytes. cbn [bind].
  rewrite <- Hkey. now destruct k.
Qed.

(** C2 — Crack recovers the parent exactly: for a valid private extended
    key [k] with depth below 255 and a non-hardened index [i], [_derive]
    returns the child of [k] at [i], [_xpub_from_xprv] the neutered [k], and
    [crack_prv_key] on the two returns the encoding of [k] itself, [k]
    having the version of the child.  The scalar of the child is
    [(q + int(IL)) mod n] and the recovered scalar
    [(childScalar - int(IL)) mod n] is the scalar [q] of [k]; every other
    field of the result is that of [k].  The same holds on the texts that
    [derive] and [xpub_from_xprv] return, which exist when the child
    scalar is not zero: [derive] validates the child to encode it. *)
Theorem crack_recovers_parent (x : BIP32Key) (k : BIP32KeyData)
    (path : BIP32DerPath) (i : Z) :
  key_data x = Ok k -> valid_xprv k -> depth k < 255 ->
  0 <= i < 0x80000000 ->
  indexes_from_bip32_path path = Ok [i] ->
  exists child parent text Q_bytes,
    _derive x path None = Ok child
    /\ _xpub_from_xprv x = Ok parent
    /\ b58encode_str k = Ok text
    /\ crack_prv_key (KeyData parent) (KeyData (xdata child)) = Ok text
    /\ bytes_from_point (mult (from_bytes (tl (key k)))) = Ok Q_bytes
    /\ prv_child_scalar k i = Ok (from_bytes (tl (key (xdata child))))
    /\ (from_bytes (tl (key (xdata child)))
        - from_bytes (firstn 32 (hmac_sha512 (chain_code k)
                                   (Q_bytes ++ be_bytes 4 i)))) mod ec_n
       = from_bytes (tl (key k))
    /\ (prv_child_scalar k i <> Ok 0 ->
        exists child_text parent_text,
          derive x path None = Ok child_text
          /\ xpub_from_xprv x = Ok parent_text
          /\ crack_prv_key (KeyStr (PyStr parent_text))
               (KeyStr (PyStr child_text)) = Ok text).
Proof.
  intros Hx Hvalid Hd Hi Hpath.
  assert (Hi' : 0 <= i < 2 ^ 32) by (change (2 ^ 32) with 4294967296; lia).
  destruct (_xpub_from_xprv_valid L x k Hx Hvalid)
    as (j & v & Q_bytes & _ & _ & HQ & Hn & Hxpub_ & Hxpub).
  pose proof (_derive_prv_step L x k path i Q_bytes Hx Hvalid Hd Hi' Hpath HQ)
    as Hder_.
  destruct (valid_xprv_facts L k Hvalid) as (Hinv & t & Hkey & Hlen & Hqr).
  pose proof (b58encode_str_wire L k Hinv) as Htext.
  assert (Hscalar : from_bytes (tl (key (prv_child k i Q_bytes)))
                    = (from_bytes (tl (key k))
                       + from_bytes (firstn 32 (prv_digest k i Q_bytes)))
                      mod ec_n).
  { unfold prv_child. cbn [key tl].
    apply from_be_bytes. apply (child_scalar_range L). }
  eexists. exists (neutered k v Q_bytes), (base58_b58encode (wire k)), Q_bytes.
  splits.
  - exact Hder_.
  - exact Hxpub_.
  - exact Htext.
  - cbn [xdata]. transitivity (b58encode_str k); [|exact Htext].
    now apply (crack_child _ _ k i v Q_bytes).
  - exact HQ.
  - cbn [xdata]. rewrite Hscalar.
    apply (prv_child_scalar_eq k i Q_bytes HQ Hi').
  - cbn [xdata]. rewrite Hscalar. unfold prv_digest.
    replace (i >=? 2147483648) with false
      by (symmetry; rewrite Z.geb_leb; apply Z.leb_gt; lia).
    rewrite Zminus_mod_idemp_l. rewrite Hkey. cbn [tl].
    match goal with
    | |- (?a + ?b - ?b) mod _ = _ => replace (a + b - b) with a by lia
    end.
    pose proof ec_n_range. apply Z.mod_small. lia.
  - intros Hq.
    destruct (derive_prv_step L x k path i Q_bytes Hx Hvalid Hd Hi' Hpath HQ
                Hq) as [Hc Hder].
    exists (base58_b58encode (wire (prv_child k i Q_bytes))),
           (base58_b58encode (wire (neutered k v Q_bytes))).
    splits; try assumption.
    transitivity (b58encode_str k); [|exact Htext].
    apply (crack_child _ _ k i v Q_bytes);
      try assumption; now apply b58decode_str_wire.
Qed.

End CrackRecovers.

Section NeuteringCommutes.

Context {C : Collaborators} (L : Laws C).

Lemma derive_pub_hardened (x : BIP32Key) (k : BIP32KeyData)
    (path : BIP32DerPath) (i : Z) (rest : list Z) (fv : option String) :
  key_data x = Ok k -> valid_xpub k ->
  indexes_from_bip32_path path = Ok (i :: rest) ->
  depth k + Z.of_nat (length (i :: rest)) <= 255 ->
  i >= 0x80000000 ->
  _derive x path fv = Err HardenedFromPublicKey
  /\ derive x path fv = Err HardenedFromPublicKey.
Proof.
  intros Hx [Hval Hpub] Hpath Hd Hi.
  pose proof (assert_valid_invariants L k Hval) as Hinv.
  destruct Hinv as [_ _ _ _ _ Hlen _ Hp _].
  destruct (Hp Hpub) as [Hb [y Hy]].
  destruct (point_from_sec _ _ Hlen Hb Hy) as [P HP].
  assert (E : _derive x path fv = Err HardenedFromPublicKey).
  { rewrite _derive_unfold, Hx, Hpath. cbn [bind].
    replace (depth k + Z.of_nat (length (i :: rest)) >? 255) with false
      by (symmetry; rewrite Z.gtb_ltb; apply Z.ltb_ge; lia).
    cbn [raise_if bind]. rewrite (extended_of_pub k P Hval Hb HP).
    cbn [bind ckd_loop].
    destruct Hb as [Hb|Hb].
    - rewrite (ckd_pub_hardened _ i 2); cbn [xdata]; auto; lia.
    - rewrite (ckd_pub_hardened _ i 3); cbn [xdata]; auto; lia. }
  split; [exact E|]. unfold derive. now rewrite E.
Qed.

Lemma derive_pub_step (k : BIP32KeyData) (path : BIP32DerPath) (i : Z)
    (v Q_bytes kb : bytes) :
  valid_xprv k -> depth k < 255 -> 0 <= i < 0x80000000 ->
  indexes_from_bip32_path path = Ok [i] ->
  bytes_from_point (mult (from_bytes (tl (key k)))) = Ok Q_bytes ->
  invariants (neutered k v Q_bytes) ->
  bytes_from_point
    (mult (from_bytes (tl (key (prv_child k i Q_bytes))))) = Ok kb ->
  invariants (neutered (prv_child k i Q_bytes) v kb) ->
  derive (KeyStr (PyStr (base58_b58encode (wire (neutered k v Q_bytes)))))
    path None
  = Ok (base58_b58encode (wire (neutered (prv_child k i Q_bytes) v kb))).
Proof.
  intros Hvalid Hd Hi Hpath HQ Hn Hkb Hnc.
  pose proof (bytes_from_point_sec _ _ HQ) as (_ & Hb & _ & HP).
  assert (Hlow : (i >=? 2147483648) = false)
    by (rewrite Z.geb_leb; apply Z.leb_gt; lia).
  unfold derive. rewrite _derive_unfold. unfold key_data.
  rewrite (b58decode_str_wire L _ true Hn), Hpath. cbn [bind length].
  replace (depth (neutered k v Q_bytes) + Z.of_nat 1 >? 255) with false
    by (symmetry; cbn [neutered depth]; rewrite Z.gtb_ltb;
        apply Z.ltb_ge; lia).
  cbn [raise_if bind].
  rewrite (extended_of_pub (neutered k v Q_bytes)
             (mult (from_bytes (tl (key k)))));
    [| now apply invariants_assert_valid | exact Hb | exact HP].
  cbn [bind ckd_loop].
  assert (Hstep :
    __ckd (mkExtended (neutered k v Q_bytes) 0
             (mult (from_bytes (tl (key k))))) i
    = Ok (mkExtended (neutered (prv_child k i Q_bytes) v kb) 0
            (mult (from_bytes (tl (key (prv_child k i Q_bytes))))))).
  { unfold prv_child, prv_digest in *. rewrite Hlow in *.
    cbn [key tl] in *.
    rewrite from_be_bytes in * by apply (child_scalar_range L).
    rewrite mult_mod in *.
    destruct Hb as [Hb|Hb].
    - erewrite (ckd_pub _ i 2 _ kb);
        cbn [xdata Q neutered chain_code key];
        try apply ec_add_mult; try assumption; try lia; reflexivity.
    - erewrite (ckd_pub _ i 3 _ kb);
        cbn [xdata Q neutered chain_code key];
        try apply ec_add_mult; try assumption; try lia; reflexivity. }
  rewrite Hstep. cbn [bind]. unfold force_version. cbn [truthy xdata bind].
  now apply b58encode_str_wire.
Qed.

Lemma ckd_pub_zero (xk : _ExtendedBIP32KeyData Point) (i b : Z)
    (Q' : Point) (e : error) :
  byte0 (key (xdata xk)) = Ok b -> b <> 0 ->
  0 <= i < 2 ^ 31 ->
  let k := xdata xk in
  let hmac_ := hmac_sha512 (chain_code k) (key k ++ be_bytes 4 i) in
  ec_add (Q xk) (mult (from_bytes (firstn 32 hmac_))) = Ok Q' ->
  bytes_from_point Q' = Err e ->
  __ckd xk i = Err e.
Proof.
  intros Hb Hne Hi k hmac_ Hadd Hkb. subst k hmac_.
  unfold __ckd, is_hardened.
  cbn [with_depth with_index with_parent_fingerprint with_chain_code
       with_key version depth parent_fingerprint index chain_code key].
  rewrite Hb. cbn [bind].
  replace (b =? 0) with false by (symmetry; now apply Z.eqb_neq).
  cbv iota.
  replace (i >=? 2147483648) with false
    by (symmetry; rewrite Z.geb_leb; apply Z.leb_gt; lia).
  cbv iota. rewrite index_bytes by lia. cbn [bind].
  rewrite Hadd. cbn [bind]. rewrite Hkb. reflexivity.
Qed.

(** When the child scalar is zero, the public child is the point at
    infinity, which has no encoding. *)
Lemma derive_pub_zero (k : BIP32KeyData) (path : BIP32DerPath) (i : Z)
    (v Q_bytes : bytes) :
  valid_xprv k -> depth k < 255 -> 0 <= i < 0x80000000 ->
  indexes_from_bip32_path path = Ok [i] ->
  bytes_from_point (mult (from_bytes (tl (key k)))) = Ok Q_bytes ->
  invariants (neutered k v Q_bytes) ->
  prv_child_scalar k i = Ok 0 ->
  exists e,
    derive (KeyStr (PyStr (base58_b58encode (wire (neutered k v Q_bytes)))))
      path None = Err e.
Proof.
  intros Hvalid Hd Hi Hpath HQ Hn Hq.
  pose proof (bytes_from_point_sec _ _ HQ) as (_ & Hb & _ & HP).
  assert (Hi' : 0 <= i < 2 ^ 32) by (change (2 ^ 32) with 4294967296; lia).
  assert (Hlow : (i >=? 2147483648) = false)
    by (rewrite Z.geb_leb; apply Z.leb_gt; lia).
  rewrite (prv_child_scalar_eq k i Q_bytes HQ Hi') in Hq.
  apply Ok_inj in Hq. unfold prv_digest in Hq. rewrite Hlow in Hq.
  destruct bytes_from_zero as [e He]. exists e.
  unfold derive. rewrite _derive_unfold. unfold key_data.
  rewrite (b58decode_str_wire L _ true Hn), Hpath. cbn [bind length].
  replace (depth (neutered k v Q_bytes) + Z.of_nat 1 >? 255) with false
    by (symmetry; cbn [neutered depth]; rewrite Z.gtb_ltb;
        apply Z.ltb_ge; lia).
  cbn [raise_if bind].
  rewrite (extended_of_pub (neutered k v Q_bytes)
             (mult (from_bytes (tl (key k)))));
    [| now apply invariants_assert_valid | exact Hb | exact HP].
  cbn [bind ckd_loop].
  assert (Hstep :
    __ckd (mkExtended (neutered k v Q_bytes) 0
             (mult (from_bytes (tl (key k))))) i = Err e).
  { assert (Hz : bytes_from_point
                   (mult (from_bytes (tl (key k))
                          + from_bytes
                              (firstn 32
                                 (hmac_sha512 (chain_code k)
                                    (Q_bytes ++ be_bytes 4 i))))) = Err e)
      by (rewrite <- mult_mod, Hq; exact He).
    destruct Hb as [Hb|Hb].
    - eapply (ckd_pub_zero _ i 2);
        cbn [xdata Q neutered chain_code key]; try eassumption; try lia.
      apply ec_add_mult.
    - eapply (ckd_pub_zero _ i 3);
        cbn [xdata Q neutered chain_code key]; try eassumption; try lia.
      apply ec_add_mult. }
  rewrite Hstep. reflexivity.
Qed.

Lemma neutering_commutes_ok (x : BIP32Key) (k : BIP32KeyData)
    (path : BIP32DerPath) (i : Z) :
  key_data x = Ok k -> valid_xprv k -> depth k < 255 ->
  0 <= i < 0x80000000 ->
  indexes_from_bip32_path path = Ok [i] ->
  prv_child_scalar k i <> Ok 0 ->
  exists child parent text,
    derive x path None = Ok child
    /\ xpub_from_xprv x = Ok parent
    /\ xpub_from_xprv (KeyStr (PyStr child)) = Ok text
    /\ derive (KeyStr (PyStr parent)) path None = Ok text.
Proof.
  intros Hx Hvalid Hd Hi Hpath Hq.
  assert (Hi' : 0 <= i < 2 ^ 32) by (change (2 ^ 32) with 4294967296; lia).
  destruct (_xpub_from_xprv_valid L x k Hx Hvalid)
    as (j & v & Q_bytes & Hj & Hv & HQ & Hn & _ & Hxpub).
  destruct (derive_prv_step L x k path i Q_bytes Hx Hvalid Hd Hi' Hpath HQ Hq)
    as [Hc Hder].
  assert (Hcvalid : valid_xprv (prv_child k i Q_bytes)).
  { split; [now apply invariants_assert_valid|]. apply Hvalid. }
  destruct (_xpub_from_xprv_valid L
              (KeyStr (PyStr (base58_b58encode
                                (wire (prv_child k i Q_bytes)))))
              (prv_child k i Q_bytes)
              (b58decode_str_wire L _ true Hc) Hcvalid)
    as (j' & v' & kb & Hj' & Hv' & Hkb & Hnc & _ & Hxpub').
  assert (v' = v).
  { change (version (prv_child k i Q_bytes)) with (version k) in Hj'.
    congruence. }
  subst v'.
  exists (base58_b58encode (wire (prv_child k i Q_bytes))),
         (base58_b58encode (wire (neutered k v Q_bytes))),
         (base58_b58encode (wire (neutered (prv_child k i Q_bytes) v kb))).
  splits; try assumption.
  now apply derive_pub_step.
Qed.

(** C1 (amended) — Neutering commutes with a normal derivation step, and a
    hardened step from a public key fails.  For a valid private extended
    key [k] and a non-hardened index [i], neutering the key derived at [i]
    returns a text exactly when deriving at [i] from the neutered key does,
    and the two texts are the same; both return one when the depth of [k]
    is below 255 and the child scalar is not zero.  For a valid public
    extended key and a path that starts with a hardened index and keeps the
    final depth within 255, the derivation fails with the
    hardened-derivation-from-public-key error. *)
Theorem neutering_commutes :
  (forall (x : BIP32Key) (k : BIP32KeyData) (path : BIP32DerPath) (i : Z),
     key_data x = Ok k -> valid_xprv k ->
     0 <= i < 0x80000000 ->
     indexes_from_bip32_path path = Ok [i] ->
     let neutered_child :=
       child <- derive x path None ;; xpub_from_xprv (KeyStr (PyStr child)) in
     let child_of_neutered :=
       parent <- xpub_from_xprv x ;;
       derive (KeyStr (PyStr parent)) path None in
     (forall text, neutered_child = Ok text <-> child_of_neutered = Ok text)
     /\ (depth k < 255 -> prv_child_scalar k i <> Ok 0 ->
         exists text, neutered_child = Ok text
                      /\ child_of_neutered = Ok text))
  /\ (forall (x : BIP32Key) (k : BIP32KeyData) (path : BIP32DerPath)
        (i : Z) (rest : list Z) (fv : option String),
        key_data x = Ok k -> valid_xpub k ->
        indexes_from_bip32_path path = Ok (i :: rest) ->
        depth k + Z.of_nat (length (i :: rest)) <= 255 ->
        i >= 0x80000000 ->
        _derive x path fv = Err HardenedFromPublicKey
        /\ derive x path fv = Err HardenedFromPublicKey).
Proof.
  split; [|apply derive_pub_hardened].
  intros x k path i Hx Hvalid Hi Hpath neutered_child child_of_neutered.
  assert (Hi' : 0 <= i < 2 ^ 32) by (change (2 ^ 32) with 4294967296; lia).
  assert (Hok : depth k < 255 -> prv_child_scalar k i <> Ok 0 ->
                exists text, neutered_child = Ok text
                             /\ child_of_neutered = Ok text).
  { intros Hd Hq.
    destruct (neutering_commutes_ok x k path i Hx Hvalid Hd Hi Hpath Hq)
      as (child & parent & text & H1 & H2 & H3 & H4).
    exists text. unfold neutered_child, child_of_neutered.
    rewrite H1, H2. cbn [bind]. now split. }
  split; [|exact Hok].
  destruct (_xpub_from_xprv_valid L x k Hx Hvalid)
    as (j & v & Q_bytes & _ & _ & HQ & Hn & _ & Hxpub).
  assert (Hfail : forall e1 e2,
            neutered_child = Err e1 -> child_of_neutered = Err e2 ->
            forall text,
              neutered_child = Ok text <-> child_of_neutered = Ok text).
  { intros e1 e2 H1 H2 text. rewrite H1, H2. split; discriminate. }
  destruct (Z_lt_dec (depth k) 255) as [Hd|Hd].
  - destruct (prv_child_scalar k i) as [q'|e] eqn:Eq.
    + destruct (Z.eq_dec q' 0) as [->|Hq'].
      * destruct (derive_prv_zero L x k path i Hx Hvalid Hd Hi' Hpath Eq)
          as [e1 H1].
        destruct (derive_pub_zero k path i v Q_bytes Hvalid Hd Hi Hpath HQ
                    Hn Eq) as [e2 H2].
        apply (Hfail e1 e2); unfold neutered_child, child_of_neutered.
        -- now rewrite H1.
        -- now rewrite Hxpub.
      * destruct Hok as (text & H1 & H2); [exact Hd | congruence |].
        intros text'. rewrite H1, H2. reflexivity.
    + rewrite (prv_child_scalar_eq k i Q_bytes HQ Hi') in Eq. discriminate.
  - assert (Hover : depth k + Z.of_nat (length [i]) > 255)
      by (cbn [length]; lia).
    apply (Hfail FinalDepth FinalDepth);
      unfold neutered_child, child_of_neutered.
    + now rewrite (proj2 (derive_overflow x path None k [i] Hx Hpath Hover)).
    + rewrite Hxpub. cbn [bind].
      apply (derive_overflow _ path None (neutered k v Q_bytes) [i]);
        [now apply (b58decode_str_wire L) | exact Hpath | exact Hover].
Qed.

End NeuteringCommutes.

(** ** Derivation along a path *)

Section PathComposition.

Context {C : Collaborators} (L : Laws C).

(** After a step the cache is the one [_derive] would compute from the key
    bytes. *)
Lemma ckd_cache (xk xk' : _ExtendedBIP32KeyData Point) (i : Z) :
  __ckd xk i = Ok xk' -> cache_of (xdata xk') = Ok (q xk', Q xk').
Proof.
  unfold __ckd. intros H. inv_ok H.
  destruct (a =? 0).
  - do 3 inv_ok H. inv_ret H.
    apply to_bytes_inv in Ha2. destruct Ha2 as [Hr ->].
    unfold cache_of. cbn [xdata with_key key byte0 bind q Q tl].
    change (Z_of_byte x00 =? 0) with true. cbv iota.
    now rewrite from_be_bytes by exact Hr.
  - destruct (is_hardened _); [discriminate|].
    do 3 inv_ok H. inv_ret H.
    apply bytes_from_point_sec in Ha2. destruct Ha2 as (_ & Hb & _ & HP).
    unfold cache_of. cbn [xdata with_key key q Q].
    destruct Hb as [Hb|Hb]; rewrite Hb; cbn [bind];
      [change (2 =? 0) with false | change (3 =? 0) with false];
      cbv iota; rewrite HP; reflexivity.
Qed.

Lemma ckd_loop_cache (idx : list Z) (xk xk' : _ExtendedBIP32KeyData Point) :
  cache_of (xdata xk) = Ok (q xk, Q xk) ->
  ckd_loop xk idx = Ok xk' ->
  cache_of (xdata xk') = Ok (q xk', Q xk').
Proof.
  revert xk. induction idx as [|i idx IH]; intros xk Hc H.
  - cbn [ckd_loop] in H. inv_ret H. exact Hc.
  - cbn [ckd_loop] in H. inv_ok H. apply (IH a); [|exact H].
    eapply ckd_cache; eauto.
Qed.

Lemma extended_of_xdata (xk : _ExtendedBIP32KeyData Point) :
  assert_valid (xdata xk) = Ok tt ->
  cache_of (xdata xk) = Ok (q xk, Q xk) ->
  extended_of (xdata xk) = Ok xk.
Proof.
  intros Hval Hc. unfold extended_of, new_ExtendedBIP32KeyData.
  rewrite Hc. cbn [bind fst snd].
  rewrite (new_BIP32KeyData_valid _ Hval). now destruct xk.
Qed.

(** A step from a private key encodes the public point of its scalar:
    the scalar is not a multiple of the order. *)
Lemma ckd_prev_nonzero (xk xk' : _ExtendedBIP32KeyData Point) (i : Z) :
  __ckd xk i = Ok xk' ->
  byte0 (key (xdata xk)) = Ok 0 ->
  q xk mod ec_n <> 0.
Proof.
  intros H Hb Hz. unfold __ckd in H.
  cbn [with_depth with_index key] in H. rewrite Hb in H. cbn [bind] in H.
  change (0 =? 0) with true in H. cbv iota in H.
  apply bind_Ok in H. destruct H as (Qb & HQb & _).
  rewrite <- mult_mod, Hz in HQb.
  destruct bytes_from_zero as [e He]. congruence.
Qed.

(** A step from a valid key gives a valid key, but for a private child of
    scalar zero. *)
Lemma ckd_invariants (xk xk' : _ExtendedBIP32KeyData Point) (i : Z) :
  __ckd xk i = Ok xk' ->
  invariants (xdata xk) ->
  depth (xdata xk) < 255 ->
  (byte0 (key (xdata xk')) = Ok 0 -> q xk' <> 0) ->
  invariants (xdata xk').
Proof.
  intros H Hinv Hd Hnz. unfold __ckd, is_hardened in H.
  cbn [with_depth with_index with_parent_fingerprint with_chain_code
       version depth parent_fingerprint index chain_code key] in H.
  apply bind_Ok in H. destruct H as (k0 & Hk0 & H).
  pose proof ec_n_range as Hn.
  destruct Hinv as [Hv Hdk _ _ _ _ Hprv Hpub _].
  destruct (k0 =? 0) eqn:E0.
  - apply Z.eqb_eq in E0. subst k0.
    assert (Hp : private_version (version (xdata xk))).
    { destruct Hv as [Hv|Hv]; [exact Hv|].
      destruct (Hpub Hv) as [[Hb|Hb] _]; congruence. }
    apply bind_Ok in H. destruct H as (Qb & HQb & H).
    apply bind_Ok in H. destruct H as (hmac_ & Hh & H).
    apply bind_Ok in H. destruct H as (qb & Hqb & H).
    apply Ok_inj in H. subst xk'.
    assert (Hi : 0 <= i < 2 ^ 32 /\ length hmac_ = 64%nat).
    { destruct (i >=? 2147483648);
        apply bind_Ok in Hh; destruct Hh as (ib & Hib & Hh);
        apply to_bytes_inv in Hib; destruct Hib as [Hib _];
        apply Ok_inj in Hh; subst hmac_;
        (split; [exact Hib | apply hmac_sha512_length]). }
    destruct Hi as [Hi Hlen].
    apply to_bytes_inv in Hqb. destruct Hqb as [Hr ->].
    cbn [xdata q with_key key byte0] in Hnz.
    specialize (Hnz eq_refl).
    pose proof (Z.mod_pos_bound (q xk + from_bytes (firstn 32 hmac_)) ec_n).
    constructor; cbn [xdata with_depth with_index with_parent_fingerprint
                      with_chain_code with_key version depth
                      parent_fingerprint index chain_code key byte0 tl
                      length].
    + now left.
    + lia.
    + rewrite length_firstn, hash160_length. reflexivity.
    + change 4294967295 with (2 ^ 32 - 1). lia.
    + rewrite length_skipn, Hlen. reflexivity.
    + now rewrite be_bytes_length.
    + intros _. split; [reflexivity|].
      rewrite from_be_bytes by exact Hr. lia.
    + intros Hv'. exfalso. eapply versions_disjoint; eauto.
    + intros H0. lia.
  - apply Z.eqb_neq in E0.
    assert (Hp : public_version (version (xdata xk))
                 /\ ~ private_version (version (xdata xk))).
    { destruct Hv as [Hv|Hv].
      - destruct (Hprv Hv) as [Hb _]. congruence.
      - split; [exact Hv|]. intros Hv'.
        eapply versions_disjoint; eauto. }
    destruct Hp as [Hp Hnp].
    destruct (i >=? 2147483648) eqn:Eh; [discriminate|].
    apply bind_Ok in H. destruct H as (ib & Hib & H).
    apply bind_Ok in H. destruct H as (Q' & HQ' & H).
    apply bind_Ok in H. destruct H as (kb & Hkb & H).
    apply Ok_inj in H. subst xk'.
    apply to_bytes_inv in Hib. destruct Hib as [Hi _].
    apply bytes_from_point_sec in Hkb. destruct Hkb as (Hlen & Hb & Hy & _).
    rewrite Z.geb_leb in Eh. apply Z.leb_gt in Eh.
    constructor; cbn [xdata with_depth with_index with_parent_fingerprint
                      with_chain_code with_key version depth
                      parent_fingerprint index chain_code key].
    + now right.
    + lia.
    + rewrite length_firstn, hash160_length. reflexivity.
    + lia.
    + rewrite length_skipn, hmac_sha512_length. reflexivity.
    + exact Hlen.
    + intros Hv'. contradiction.
    + intros _. split; assumption.
    + intros H0. lia.
Qed.

Lemma ckd_loop_invariants (idx : list Z)
    (xk xk' : _ExtendedBIP32KeyData Point) :
  ckd_loop xk idx = Ok xk' ->
  invariants (xdata xk) ->
  depth (xdata xk) + Z.of_nat (length idx) <= 255 ->
  (byte0 (key (xdata xk')) = Ok 0 -> q xk' <> 0) ->
  invariants (xdata xk').
Proof.
  revert xk. induction idx as [|i idx IH]; intros xk H Hinv Hd Hnz.
  - cbn [ckd_loop] in H. apply Ok_inj in H. now subst xk'.
  - cbn [ckd_loop] in H. apply bind_Ok in H. destruct H as (xk1 & H1 & H).
    rewrite length_cons in Hd.
    pose proof (ckd_fields xk xk1 i H1) as (_ & Hd1 & _).
    apply (IH xk1); try assumption; [|lia].
    apply (ckd_invariants xk xk1 i H1 Hinv); [lia|].
    intros Hb. destruct idx as [|j idx].
    + cbn [ckd_loop] in H. apply Ok_inj in H. subst xk'. now apply Hnz.
    + cbn [ckd_loop] in H. apply bind_Ok in H. destruct H as (xk2 & H2 & _).
      pose proof (ckd_prev_nonzero xk1 xk2 j H2 Hb) as Hq.
      intros Hz. apply Hq. rewrite Hz. apply Z.mod_0_l.
      pose proof ec_n_range. lia.
Qed.

Lemma derive_composes_from (x : BIP32Key) (p1 p2 p12 : BIP32DerPath)
    (i1 i2 : list Z) (fv : option String) (s1 : list byte) :
  indexes_from_bip32_path p1 = Ok i1 ->
  indexes_from_bip32_path p2 = Ok i2 ->
  indexes_from_bip32_path p12 = Ok (i1 ++ i2) ->
  derive x p1 None = Ok s1 ->
  derive (KeyStr (PyStr s1)) p2 fv = derive x p12 fv.
Proof.
  intros H1 H2 H12 Hs1.
  unfold derive in Hs1. apply bind_Ok in Hs1. destruct Hs1 as (xk1 & Hd & Hs1).
  apply (b58encode_str_inv L) in Hs1. destruct Hs1 as [Hinv ->].
  rewrite _derive_unfold, H1 in Hd.
  apply bind_Ok in Hd. destruct Hd as (k & Hk & Hd).
  cbn [bind] in Hd. inv_raise Hd.
  apply bind_Ok in Hd. destruct Hd as (xk0 & Hx0 & Hd).
  apply bind_Ok in Hd. destruct Hd as (xk1' & Hloop & Hd).
  unfold force_version in Hd. cbn [truthy] in Hd. inv_ret Hd.
  pose proof (extended_of_inv k xk0 Hx0) as (Hk0 & _ & Hc0).
  rewrite <- Hk0 in Hc0.
  pose proof (ckd_loop_cache i1 xk0 xk1 Hc0 Hloop) as Hc1.
  pose proof (ckd_loop_fields i1 xk0 xk1 Hloop) as (_ & Hdepth & _).
  rewrite Hk0 in Hdepth.
  unfold derive. rewrite !_derive_unfold. unfold key_data at 1.
  rewrite (b58decode_str_wire L _ true Hinv), H2, Hk, H12. cbn [bind].
  rewrite Hdepth, length_app, Nat2Z.inj_add, Z.add_assoc.
  destruct (raise_if (depth k + Z.of_nat (length i1) + Z.of_nat (length i2)
                      >? 255) FinalDepth); [|reflexivity].
  cbn [bind].
  rewrite (extended_of_xdata xk1 (invariants_assert_valid L _ Hinv) Hc1).
  rewrite Hx0. cbn [bind]. rewrite ckd_loop_app, Hloop. reflexivity.
Qed.

Lemma cache_prv (k : BIP32KeyData) (qv : Z) (Qv : Point) :
  cache_of k = Ok (qv, Qv) -> byte0 (key k) = Ok 0 ->
  qv = from_bytes (tl (key k)).
Proof.
  unfold cache_of. intros H Hb. rewrite Hb in H. cbn [bind] in H.
  change (0 =? 0) with true in H. cbv iota in H. congruence.
Qed.

(** When one call returns a key for a path, the call on a prefix of the
    path returns one too. *)
Lemma derive_prefix_returns (x : BIP32Key) (p1 p12 : BIP32DerPath)
    (i1 i2 : list Z) (fv : option String) (s : list byte) :
  indexes_from_bip32_path p1 = Ok i1 ->
  indexes_from_bip32_path p12 = Ok (i1 ++ i2) ->
  derive x p12 fv = Ok s ->
  exists s1, derive x p1 None = Ok s1.
Proof.
  intros H1 H12 H. unfold derive in H.
  apply bind_Ok in H. destruct H as (xk' & Hd & Hs).
  apply (b58encode_str_inv L) in Hs. destruct Hs as [Hinv' _].
  rewrite _derive_unfold, H12 in Hd.
  apply bind_Ok in Hd. destruct Hd as (k & Hk & Hd).
  cbn [bind] in Hd. inv_raise Hd. b2p.
  apply bind_Ok in Hd. destruct Hd as (xk0 & Hx0 & Hd).
  apply bind_Ok in Hd. destruct Hd as (xkf & Hloop & Hfv).
  rewrite ckd_loop_app in Hloop.
  apply bind_Ok in Hloop. destruct Hloop as (xk1 & Hl1 & Hl2).
  pose proof (extended_of_inv k xk0 Hx0) as (Hk0 & Hval & Hc0).
  rewrite <- Hk0 in Hc0.
  pose proof (ckd_loop_cache i1 xk0 xk1 Hc0 Hl1) as Hc1.
  rewrite length_app, Nat2Z.inj_add in *.
  assert (Hinv1 : invariants (xdata xk1)).
  { apply (ckd_loop_invariants i1 xk0 xk1 Hl1).
    - rewrite Hk0. now apply (assert_valid_invariants L).
    - rewrite Hk0. lia.
    - intros Hb. destruct i2 as [|j i2].
      + cbn [ckd_loop] in Hl2. apply Ok_inj in Hl2. subst xkf.
        pose proof (force_version_data fv xk1 xk' Hfv) as Hkey.
        rewrite (cache_prv _ _ _ Hc1 Hb). rewrite <- Hkey in *.
        destruct Hinv' as [Hv _ _ _ _ _ Hprv Hpub _].
        destruct Hv as [Hv|Hv].
        * destruct (Hprv Hv) as [_ Hq]. lia.
        * destruct (Hpub Hv) as [[Hb'|Hb'] _]; congruence.
      + cbn [ckd_loop] in Hl2.
        apply bind_Ok in Hl2. destruct Hl2 as (xk2 & H2 & _).
        pose proof (ckd_prev_nonzero xk1 xk2 j H2 Hb) as Hq.
        intros Hz. apply Hq. rewrite Hz. apply Z.mod_0_l.
        pose proof ec_n_range. lia. }
  exists (base58_b58encode (wire (xdata xk1))).
  unfold derive. rewrite _derive_unfold, Hk, H1. cbn [bind].
  replace (depth k + Z.of_nat (length i1) >? 255) with false
    by (symmetry; rewrite Z.gtb_ltb; apply Z.ltb_ge; lia).
  cbn [raise_if bind]. rewrite Hx0. cbn [bind]. rewrite Hl1. cbn [bind].
  unfold force_version. cbn [truthy bind].
  now apply b58encode_str_wire.
Qed.

(** The loop of derivation steps is a left fold of [__ckd] over the
    indexes. *)
Lemma ckd_loop_fold (idx : list Z)
    (r : result (_ExtendedBIP32KeyData Point)) :
  (xk <- r ;; ckd_loop xk idx)
  = fold_left (fun acc index => xk <- acc ;; __ckd xk index) idx r.
Proof.
  revert r. induction idx as [|i idx IH]; intros r.
  - cbn [ckd_loop fold_left]. now destruct r.
  - cbn [ckd_loop fold_left]. rewrite <- IH. now destruct r.
Qed.

Lemma prv_descendant_app (i1 i2 : list Z) (k : BIP32KeyData) :
  prv_descendant k (i1 ++ i2)
  = (k1 <- prv_descendant k i1 ;; prv_descendant k1 i2).
Proof.
  revert k. induction i1 as [|i i1 IH]; intros k; [reflexivity|].
  cbn [app prv_descendant].
  destruct (bytes_from_point (mult (from_bytes (tl (key k)))));
    [|reflexivity].
  cbn [bind]. apply IH.
Qed.

(** From a private key the loop of steps follows the private children. *)
Lemma ckd_loop_prv (idx : list Z) (xk : _ExtendedBIP32KeyData Point)
    (k' : BIP32KeyData) :
  byte0 (key (xdata xk)) = Ok 0 ->
  q xk = from_bytes (tl (key (xdata xk))) ->
  Q xk = INF ->
  Forall (fun i => 0 <= i < 2 ^ 32) idx ->
  prv_descendant (xdata xk) idx = Ok k' ->
  ckd_loop xk idx = Ok (mkExtended k' (from_bytes (tl (key k'))) INF).
Proof.
  revert xk. induction idx as [|i idx IH]; intros xk Hb Hq HQ Hidx H.
  - cbn [prv_descendant] in H. apply Ok_inj in H. subst k'.
    cbn [ckd_loop]. destruct xk as [k0 q0 Q0]. cbn [xdata q Q] in *.
    now subst.
  - cbn [prv_descendant] in H. apply bind_Ok in H.
    destruct H as (Q_bytes & HQb & H).
    inversion Hidx as [|i' idx' Hi Hrest]; subst i' idx'.
    rewrite <- Hq in HQb.
    cbn [ckd_loop]. rewrite (ckd_prv L xk i Q_bytes Hb Hq HQb Hi).
    cbn [bind]. apply IH; cbn [xdata q Q]; try assumption;
      try reflexivity.
    unfold prv_child. cbn [key tl].
    rewrite from_be_bytes by apply (child_scalar_range L).
    now rewrite Hq.
Qed.

(** From a valid private key, along indexes that fit 32 bits and within
    depth 255, the derivation returns the private descendant when that key
    has a scalar that is not zero. *)
Lemma derive_prv_path (x : BIP32Key) (k k' : BIP32KeyData)
    (path : BIP32DerPath) (idx : list Z) :
  key_data x = Ok k -> valid_xprv k ->
  indexes_from_bip32_path path = Ok idx ->
  depth k + Z.of_nat (length idx) <= 255 ->
  Forall (fun i => 0 <= i < 2 ^ 32) idx ->
  prv_descendant k idx = Ok k' ->
  from_bytes (tl (key k')) <> 0 ->
  _derive x path None
  = Ok (mkExtended k' (from_bytes (tl (key k'))) INF)
  /\ valid_xprv k'
  /\ derive x path None = Ok (base58_b58encode (wire k')).
Proof.
  intros Hx Hvalid Hpath Hd Hidx Hk' Hnz.
  destruct (valid_xprv_facts L k Hvalid) as (Hinv & t & Hkey & _ & _).
  assert (Hb : byte0 (key k) = Ok 0) by now rewrite Hkey.
  pose proof (ckd_loop_prv idx
                (mkExtended k (from_bytes (tl (key k))) INF) k'
                Hb eq_refl eq_refl Hidx Hk') as Hloop.
  assert (Hder : _derive x path None
                 = Ok (mkExtended k' (from_bytes (tl (key k'))) INF)).
  { rewrite _derive_unfold, Hx, Hpath. cbn [bind].
    replace (depth k + Z.of_nat (length idx) >? 255) with false
      by (symmetry; rewrite Z.gtb_ltb; apply Z.ltb_ge; lia).
    cbn [raise_if bind]. rewrite (extended_of_prv L k Hvalid).
    cbn [bind]. rewrite Hloop. reflexivity. }
  assert (Hinv' : invariants k').
  { apply (ckd_loop_invariants idx _ _ Hloop); cbn [xdata q];
      try assumption.
    intros _. exact Hnz. }
  pose proof (ckd_loop_fields idx _ _ Hloop) as (Hver & _ & _).
  cbn [xdata] in Hver.
  split; [exact Hder|]. split.
  - split; [now apply (invariants_assert_valid L)|].
    rewrite Hver. apply Hvalid.
  - unfold derive. rewrite Hder. cbn [bind xdata].
    now apply (b58encode_str_wire L).
Qed.

(** C5 — Path composition: with [i1] and [i2] the parsed parts of a path
    and [i1 ++ i2] the parsed path, deriving the first part and then, from
    the text returned, the second part returns a key exactly when one call
    on the whole path does, and the same key; whenever the first call
    returns, the second call gives what the one call gives, the same key or
    the same failure.  The one call applies the step [__ckd] once per
    index, in path order, between the depth check and the forced version.
    From a valid private extended key, with indexes that fit 32 bits and a
    final depth within 255 (depth at most 253 for two indexes), the first
    call returns the text of the private descendant of the key along
    [i1], and the second call and the one call both return the text of its
    descendant along [i2], which is the descendant of the key along
    [i1 ++ i2], when the scalars of the two descendants are not zero. *)
Theorem derive_composes (x : BIP32Key) (p1 p2 p12 : BIP32DerPath)
    (i1 i2 : list Z) (fv : option String) :
  indexes_from_bip32_path p1 = Ok i1 ->
  indexes_from_bip32_path p2 = Ok i2 ->
  indexes_from_bip32_path p12 = Ok (i1 ++ i2) ->
  let two_calls :=
    s1 <- derive x p1 None ;; derive (KeyStr (PyStr s1)) p2 fv in
  let one_call := derive x p12 fv in
  (forall s, two_calls = Ok s <-> one_call = Ok s)
  /\ (forall s1, derive x p1 None = Ok s1 -> two_calls = one_call)
  /\ (forall k i, key_data x = Ok k -> valid_xprv k -> depth k < 255 ->
        0 <= i < 2 ^ 32 -> i1 = [i] -> prv_child_scalar k i <> Ok 0 ->
        exists s1, derive x p1 None = Ok s1)
  /\ (forall k, key_data x = Ok k ->
        _derive x p12 fv
        = (raise_if (depth k + Z.of_nat (length (i1 ++ i2)) >? 255)
             FinalDepth ;;;
           xk <- extended_of k ;;
           xk <- fold_left (fun acc index => xk <- acc ;; __ckd xk index)
                   (i1 ++ i2) (Ok xk) ;;
           force_version fv xk))
  /\ (forall k k1 k2, key_data x = Ok k -> valid_xprv k ->
        depth k + Z.of_nat (length (i1 ++ i2)) <= 255 ->
        Forall (fun i => 0 <= i < 2 ^ 32) (i1 ++ i2) ->
        prv_descendant k i1 = Ok k1 -> from_bytes (tl (key k1)) <> 0 ->
        prv_descendant k1 i2 = Ok k2 -> from_bytes (tl (key k2)) <> 0 ->
        prv_descendant k (i1 ++ i2) = Ok k2
        /\ exists s1 s2,
             derive x p1 None = Ok s1
             /\ b58decode (PyStr s1) true = Ok k1
             /\ derive (KeyStr (PyStr s1)) p2 None = Ok s2
             /\ derive x p12 None = Ok s2
             /\ b58decode (PyStr s2) true = Ok k2).
Proof.
  intros H1 H2 H12 two_calls one_call.
  assert (Hfrom : forall s1, derive x p1 None = Ok s1 ->
                             two_calls = one_call).
  { intros s1 Hs1. unfold two_calls, one_call. rewrite Hs1. cbn [bind].
    now apply (derive_composes_from x p1 p2 p12 i1 i2). }
  splits.
  - intros s. split.
    + intros H. pose proof H as H'. unfold two_calls in H'.
      apply bind_Ok in H'. destruct H' as (s1 & Hs1 & _).
      now rewrite <- (Hfrom s1 Hs1).
    + intros H.
      destruct (derive_prefix_returns x p1 p12 i1 i2 fv s H1 H12 H)
        as [s1 Hs1].
      now rewrite (Hfrom s1 Hs1).
  - exact Hfrom.
  - intros k i Hx Hvalid Hd Hi -> Hq.
    destruct (_xpub_from_xprv_valid L x k Hx Hvalid)
      as (_ & _ & Q_bytes & _ & _ & HQ & _).
    destruct (derive_prv_step L x k p1 i Q_bytes Hx Hvalid Hd Hi H1 HQ Hq)
      as [_ Hder].
    eauto.
  - intros k Hx. rewrite _derive_unfold, Hx, H12. cbn [bind].
    destruct (raise_if _ FinalDepth); [|reflexivity]. cbn [bind].
    destruct (extended_of k) as [xk|e]; [|reflexivity]. cbn [bind].
    now rewrite <- ckd_loop_fold.
  - intros k k1 k2 Hx Hvalid Hd Hidx Hk1 Hz1 Hk2 Hz2.
    rewrite length_app, Nat2Z.inj_add in Hd.
    apply Forall_app in Hidx. destruct Hidx as [Hidx1 Hidx2].
    assert (Hk12 : prv_descendant k (i1 ++ i2) = Ok k2).
    { rewrite prv_descendant_app, Hk1. exact Hk2. }
    split; [exact Hk12|].
    destruct (derive_prv_path x k k1 p1 i1 Hx Hvalid H1 ltac:(lia) Hidx1
                Hk1 Hz1) as (Hd1 & Hvalid1 & Hs1).
    destruct (valid_xprv_facts L k1 Hvalid1) as (Hinv1 & _).
    pose proof (b58decode_str_wire L k1 true Hinv1) as Hx1.
    pose proof (ckd_loop_fields i1 _ _
                  (ckd_loop_prv i1
                     (mkExtended k (from_bytes (tl (key k))) INF) k1
                     ltac:(destruct (valid_xprv_facts L k Hvalid)
                             as (_ & t & Hkey & _);
                           cbn [xdata]; now rewrite Hkey)
                     eq_refl eq_refl Hidx1 Hk1)) as (_ & Hdepth1 & _).
    cbn [xdata] in Hdepth1.
    destruct (derive_prv_path (KeyStr (PyStr (base58_b58encode (wire k1))))
                k1 k2 p2 i2 Hx1 Hvalid1 H2 ltac:(lia) Hidx2 Hk2 Hz2)
      as (_ & Hvalid2 & Hs2).
    destruct (valid_xprv_facts L k2 Hvalid2) as (Hinv2 & _).
    assert (Hd12 : depth k + Z.of_nat (length (i1 ++ i2)) <= 255)
      by (rewrite length_app, Nat2Z.inj_add; lia).
    destruct (derive_prv_path x k k2 p12 (i1 ++ i2) Hx Hvalid H12 Hd12
                ltac:(apply Forall_app; now split) Hk12 Hz2)
      as (_ & _ & Hs12).
    exists (base58_b58encode (wire k1)), (base58_b58encode (wire k2)).
    splits; try assumption.
    now apply (b58decode_str_wire L).
Qed.

End PathComposition.

(** *** Instances in the model *)

Lemma neutering_commutes_witness :
  (exists text,
     (child <- derive (C := Model.collaborators) (KeyData Model.five) [3]
                 None ;;
      xpub_from_xprv (C := Model.collaborators) (KeyStr (PyStr child)))
     = Ok text
     /\ (parent <- xpub_from_xprv (C := Model.collaborators)
                     (KeyData Model.five) ;;
         derive (C := Model.collaborators) (KeyStr (PyStr parent)) [3] None)
        = Ok text)
  /\ derive (C := Model.collaborators) (KeyData Model.five_pub)
       [0x80000000] None = Err HardenedFromPublicKey.
Proof.
  destruct model_valid as (_ & Hfive & Hpub & _).
  assert (Hi : 0 <= 3 < 0x80000000) by lia.
  assert (Hd : depth Model.five < 255) by reflexivity.
  assert (Hq : prv_child_scalar (C := Model.collaborators) Model.five 3
               <> Ok 0) by (vm_compute; discriminate).
  assert (Hd' : depth Model.five_pub + Z.of_nat (length [0x80000000]) <= 255)
    by (vm_compute; discriminate).
  assert (Hh : 0x80000000 >= 0x80000000) by lia.
  split.
  - exact (proj2 (proj1 (neutering_commutes model_laws) (KeyData Model.five)
                    Model.five [3] 3 eq_refl Hfive Hi eq_refl) Hd Hq).
  - exact (proj2 (proj2 (neutering_commutes model_laws)
                    (KeyData Model.five_pub) Model.five_pub [0x80000000]
                    0x80000000 [] None eq_refl Hpub eq_refl Hd' Hh)).
Defined.

(** C1, as first stated: deriving at a hardened index from a valid public
    key need not fail with the hardened-derivation error.  At depth 255 the
    final-depth check, which comes first, fails. *)
Lemma hardened_from_deepest_public :
  valid_xpub (C := Model.collaborators) Model.deep_pub
  /\ derive (C := Model.collaborators) (KeyData Model.deep_pub)
       [0x80000000] None = Err FinalDepth
  /\ derive (C := Model.collaborators) (KeyData Model.deep_pub)
       [0x80000000] None <> Err HardenedFromPublicKey.
Proof.
  assert (E : derive (C := Model.collaborators) (KeyData Model.deep_pub)
                [0x80000000] None = Err FinalDepth)
    by (vm_compute; reflexivity).
  splits; [apply model_valid | exact E | rewrite E; discriminate].
Qed.

Lemma crack_recovers_parent_witness :
  exists child parent text,
    _derive (C := Model.collaborators) (KeyData Model.five) [3] None
    = Ok child
    /\ _xpub_from_xprv (C := Model.collaborators) (KeyData Model.five)
       = Ok parent
    /\ b58encode_str (C := Model.collaborators) Model.five = Ok text
    /\ crack_prv_key (C := Model.collaborators) (KeyData parent)
         (KeyData (xdata child)) = Ok text.
Proof.
  destruct model_valid as (_ & Hfive & _).
  assert (Hd : depth Model.five < 255) by reflexivity.
  assert (Hi : 0 <= 3 < 0x80000000) by lia.
  destruct (crack_recovers_parent model_laws (KeyData Model.five)
              Model.five [3] 3 eq_refl Hfive Hd Hi eq_refl)
    as (child & parent & text & Q_bytes & H1 & H2 & H3 & H4 & _).
  exists child, parent, text. splits; assumption.
Defined.

(** Where the left half of the digest is [n - q], the child scalar is zero:
    [_derive] returns the child and [derive] fails with the error of the
    validation of the private scalar, so that there is no text of the child
    to crack. *)
Lemma crack_of_degenerate_child :
  valid_xprv (C := Model.collaborators) Model.degenerate
  /\ depth Model.degenerate < 255
  /\ prv_child_scalar (C := Model.collaborators) Model.degenerate 3 = Ok 0
  /\ derive (C := Model.collaborators) (KeyData Model.degenerate) [3] None
     = Err InvalidPrvKey
  /\ ~ (exists child,
          derive (C := Model.collaborators) (KeyData Model.degenerate) [3]
            None = Ok child).
Proof.
  assert (E : derive (C := Model.collaborators) (KeyData Model.degenerate)
                [3] None = Err InvalidPrvKey)
    by (vm_compute; reflexivity).
  splits.
  - apply model_valid.
  - reflexivity.
  - vm_compute. reflexivity.
  - exact E.
  - intros [child H]. rewrite E in H. discriminate.
Qed.

Lemma derive_composes_witness :
  exists s1 s2,
    derive (C := Model.collaborators) (KeyData Model.five) [0x80000000]
      None = Ok s1
    /\ derive (C := Model.collaborators) (KeyStr (PyStr s1)) [1] None
       = Ok s2
    /\ derive (C := Model.collaborators) (KeyData Model.five)
         [0x80000000; 1] None = Ok s2.
Proof.
  destruct model_valid as (_ & Hfive & _).
  assert (Hd : depth Model.five
               + Z.of_nat (length ([0x80000000] ++ [1])) <= 255)
    by (vm_compute; discriminate).
  assert (Hidx : Forall (fun i => 0 <= i < 2 ^ 32) ([0x80000000] ++ [1]))
    by (repeat constructor; lia).
  assert (H1 : exists k1,
            prv_descendant (C := Model.collaborators) Model.five
              [0x80000000] = Ok k1
            /\ from_bytes (tl (key k1)) <> 0)
    by (eexists; split; [vm_compute; reflexivity | vm_compute; discriminate]).
  destruct H1 as (k1 & Hk1 & Hz1).
  assert (H2 : exists k2,
            prv_descendant (C := Model.collaborators) k1 [1] = Ok k2
            /\ from_bytes (tl (key k2)) <> 0).
  { vm_compute in Hk1. apply Ok_inj in Hk1. subst k1.
    eexists; split; [vm_compute; reflexivity | vm_compute; discriminate]. }
  destruct H2 as (k2 & Hk2 & Hz2).
  destruct (proj2 (proj2 (proj2 (proj2
              (derive_composes model_laws (KeyData Model.five)
                 [0x80000000] [1] [0x80000000; 1] [0x80000000] [1] None
                 eq_refl eq_refl eq_refl))))
              Model.five k1 k2 eq_refl Hfive Hd Hidx Hk1 Hz1 Hk2 Hz2)
    as (_ & s1 & s2 & Hs1 & _ & Hs2 & Hs12 & _).
  exists s1, s2. splits; assumption.
Defined.

(** Where the child scalar at the first index is zero, neither way returns
    a key: the first of the two calls fails with the error of the
    validation, and the one call goes on to the second step, which fails
    when it encodes the point of the zero scalar. *)
Lemma derive_through_degenerate_child :
  valid_xprv (C := Model.collaborators) Model.degenerate
  /\ depth Model.degenerate <= 253
  /\ (s1 <- derive (C := Model.collaborators) (KeyData Model.degenerate)
              [0x80000000] None ;;
      derive (C := Model.collaborators) (KeyStr (PyStr s1)) [1] None)
     = Err InvalidPrvKey
  /\ derive (C := Model.collaborators) (KeyData Model.degenerate)
       [0x80000000; 1] None = Err (External 1).
Proof.
  assert (E1 : derive (C := Model.collaborators) (KeyData Model.degenerate)
                 [0x80000000] None = Err InvalidPrvKey)
    by (vm_compute; reflexivity).
  assert (E2 : derive (C := Model.collaborators) (KeyData Model.degenerate)
                 [0x80000000; 1] None = Err (External 1))
    by (vm_compute; reflexivity).
  splits.
  - apply model_valid.
  - vm_compute. discriminate.
  - now rewrite E1.
  - exact E2.
Qed.

(** ** The codec at its edges *)

Lemma parse_unfold (bs : bytes) :
  parse bs
  = mkBIP32KeyData (firstn 4 bs) (from_bytes (firstn 1 (skipn 4 bs)))
      (firstn 4 (skipn 5 bs)) (from_bytes (firstn 4 (skipn 9 bs)))
      (firstn 32 (skipn 13 bs)) (firstn 33 (skipn 45 bs)).
Proof. unfold parse, read. rewrite !skipn_skipn. reflexivity. Qed.

Lemma from_bytes_firstn (n : nat) (bs : bytes) :
  0 <= from_bytes (firstn n bs) < 256 ^ Z.of_nat n.
Proof.
  pose proof (from_bytes_range (firstn n bs)) as H.
  pose proof (length_firstn n bs) as Hlen.
  assert (256 ^ Z.of_nat (length (firstn n bs)) <= 256 ^ Z.of_nat n)
    by (apply Z.pow_le_mono_r; lia).
  lia.
Qed.

Lemma firstn_chunk (a b : nat) (l : bytes) :
  firstn a l ++ firstn b (skipn a l) = firstn (a + b) l.
Proof.
  revert l. induction a as [|a IH]; intros l; [reflexivity|].
  destruct l as [|x l]; cbn [firstn skipn Nat.add app].
  - now rewrite firstn_nil.
  - now rewrite IH.
Qed.

Lemma be_from_bytes_len (n : nat) (bs : bytes) :
  length bs = n -> be_bytes n (from_bytes bs) = bs.
Proof. intros <-. apply be_from_bytes. Qed.

Lemma wire_parse (bs : bytes) :
  (78 <= length bs)%nat -> wire (parse bs) = firstn 78 bs.
Proof.
  intros Hlen. rewrite parse_unfold. unfold wire.
  cbn [version depth parent_fingerprint index chain_code key].
  rewrite !be_from_bytes_len
    by (rewrite length_firstn, length_skipn; lia).
  now rewrite !firstn_chunk.
Qed.

Section CodecEdges.

Context {C : Collaborators} (L : Laws C).

(** X1 — Truncated binary data: on fewer than 78 bytes [deserialize] with
    validation fails with the length error of the first field that is cut
    short (version below 4 bytes, parent fingerprint below 9, chain code
    below 45, key below 78), an absent depth or index being read as 0; and
    without validation it returns the fields it could read. *)
Theorem deserialize_truncated (data : bytes) :
  (length data < 78)%nat ->
  deserialize (PyBytes data) false = Ok (parse data)
  /\ deserialize (PyBytes data) true
     = Err (if (length data <? 4)%nat then InvalidVersionLength
            else if (length data <? 9)%nat then InvalidFingerprintLength
            else if (length data <? 45)%nat then InvalidChainCodeLength
            else InvalidKeyLength).
Proof.
  intros Hlen. rewrite !(deserialize_parse L). split; [reflexivity|].
  rewrite parse_unfold. unfold assert_valid.
  cbn [version depth parent_fingerprint index chain_code key].
  pose proof (from_bytes_firstn 1 (skipn 4 data)) as Hd.
  pose proof (from_bytes_firstn 4 (skipn 9 data)) as Hi.
  change (256 ^ Z.of_nat 1) with 256 in Hd.
  change (256 ^ Z.of_nat 4) with 4294967296 in Hi.
  rewrite !length_firstn, !length_skipn.
  destruct (Nat.ltb_spec (length data) 4) as [H4|H4].
  { replace (Nat.min 4 (length data) =? 4)%nat with false
      by (symmetry; apply Nat.eqb_neq; lia).
    reflexivity. }
  replace (Nat.min 4 (length data) =? 4)%nat with true
    by (symmetry; apply Nat.eqb_eq; lia).
  cbn [negb raise_if bind].
  replace ((from_bytes (firstn 1 (skipn 4 data)) <? 0)
           || (from_bytes (firstn 1 (skipn 4 data)) >? 255)) with false
    by (symmetry; rewrite Z.gtb_ltb; apply orb_false_iff;
        split; apply Z.ltb_ge; lia).
  cbn [raise_if bind].
  destruct (Nat.ltb_spec (length data) 9) as [H9|H9].
  { replace (Nat.min 4 (length data - 5) =? 4)%nat with false
      by (symmetry; apply Nat.eqb_neq; lia).
    reflexivity. }
  replace (Nat.min 4 (length data - 5) =? 4)%nat with true
    by (symmetry; apply Nat.eqb_eq; lia).
  cbn [negb raise_if bind].
  replace ((0 <=? from_bytes (firstn 4 (skipn 9 data)))
           && (from_bytes (firstn 4 (skipn 9 data)) <=? 4294967295))
    with true
    by (symmetry; apply andb_true_iff; split; apply Z.leb_le; lia).
  cbn [negb raise_if bind].
  destruct (Nat.ltb_spec (length data) 45) as [H45|H45].
  { replace (Nat.min 32 (length data - 13) =? 32)%nat with false
      by (symmetry; apply Nat.eqb_neq; lia).
    reflexivity. }
  replace (Nat.min 32 (length data - 13) =? 32)%nat with true
    by (symmetry; apply Nat.eqb_eq; lia).
  cbn [negb raise_if bind].
  replace (Nat.min 33 (length data - 45) =? 33)%nat with false
    by (symmetry; apply Nat.eqb_neq; lia).
  reflexivity.
Qed.

(** X2 — Decoding then encoding: a key that [deserialize] returns with
    validation comes from at least 78 bytes, and [serialize] and
    [b58encode] give back the first 78 bytes of the data, as they are and
    in Base58Check. *)
Theorem deserialize_serialize (data : bytes) (k : BIP32KeyData) :
  deserialize (PyBytes data) true = Ok k ->
  (78 <= length data)%nat
  /\ serialize k true = Ok (firstn 78 data)
  /\ b58encode k true = Ok (base58_b58encode (firstn 78 data)).
Proof.
  intros H. rewrite (deserialize_parse L) in H.
  apply bind_Ok in H. destruct H as ([] & Hval & H). apply Ok_inj in H.
  subst k. pose proof (assert_valid_invariants L _ Hval) as Hinv.
  assert (Hlen : (78 <= length data)%nat).
  { pose proof (inv_key _ Hinv) as Hk. rewrite parse_unfold in Hk.
    cbn [key] in Hk. rewrite length_firstn, length_skipn in Hk. lia. }
  split; [exact Hlen|].
  rewrite <- (wire_parse data Hlen). split.
  - now apply serialize_wire.
  - now apply b58encode_wire.
Qed.

(** X3 — Serialization without validation: [serialize] with validation off
    checks no length and no version; it fails, with an overflow error,
    exactly when the depth does not fit one byte or the index does not fit
    four, and otherwise returns the fields one after the other, 78 bytes or
    not. *)
Theorem serialize_unvalidated (k : BIP32KeyData) :
  (0 <= depth k <= 255 /\ 0 <= index k <= 0xFFFFFFFF ->
     serialize k false = Ok (wire k)
     /\ length (wire k)
        = (length (version k) + length (parent_fingerprint k)
           + length (chain_code k) + length (key k) + 5)%nat)
  /\ (~ (0 <= depth k <= 255 /\ 0 <= index k <= 0xFFFFFFFF) ->
        serialize k false = Err OverflowError).
Proof.
  unfold serialize, to_bytes. cbn [bind].
  change (256 ^ Z.of_nat 1) with 256.
  change (256 ^ Z.of_nat 4) with 4294967296.
  split.
  - intros [Hd Hi].
    replace ((0 <=? depth k) && (depth k <? 256)) with true
      by (symmetry; apply andb_true_iff; split;
          [apply Z.leb_le | apply Z.ltb_lt]; lia).
    replace ((0 <=? index k) && (index k <? 4294967296)) with true
      by (symmetry; apply andb_true_iff; split;
          [apply Z.leb_le | apply Z.ltb_lt]; lia).
    split; [reflexivity|].
    unfold wire. rewrite !length_app, !be_bytes_length. lia.
  - intros Hn.
    destruct ((0 <=? depth k) && (depth k <? 256)) eqn:Ed; [|reflexivity].
    cbn [bind].
    destruct ((0 <=? index k) && (index k <? 4294967296)) eqn:Ei;
      [|reflexivity].
    exfalso. apply Hn. b2p. lia.
Qed.

End CodecEdges.

(** ** Blanks around the text of a key *)

Lemma lstrip_blanks (pre s : list byte) :
  forallb is_space pre = true -> lstrip (pre ++ s) = lstrip s.
Proof.
  induction pre as [|c pre IH]; [reflexivity|].
  cbn [forallb app lstrip]. intros H. apply andb_true_iff in H.
  destruct H as [Hc Hpre]. rewrite Hc. now apply IH.
Qed.

Lemma lstrip_all_blank (s : list byte) :
  lstrip s = [] -> forallb is_space s = true.
Proof.
  induction s as [|c s IH]; [reflexivity|].
  cbn [lstrip forallb]. destruct (is_space c); [exact IH|discriminate].
Qed.

Lemma lstrip_app (s post : list byte) :
  lstrip s <> [] -> lstrip (s ++ post) = lstrip s ++ post.
Proof.
  induction s as [|c s IH]; [intros H; now destruct H|].
  cbn [lstrip app]. destruct (is_space c); [exact IH|reflexivity].
Qed.

Lemma forallb_rev (f : byte -> bool) (s : list byte) :
  forallb f s = true -> forallb f (rev s) = true.
Proof.
  rewrite !forallb_forall. intros H c Hc. apply H. now apply in_rev.
Qed.

Lemma strip_blanks (pre s post : list byte) :
  forallb is_space pre = true -> forallb is_space post = true ->
  strip (pre ++ s ++ post) = strip s.
Proof.
  intros Hpre Hpost. unfold strip. rewrite (lstrip_blanks pre) by exact Hpre.
  destruct (lstrip s) as [|c t] eqn:E.
  - apply lstrip_all_blank in E.
    assert (Hall : forallb is_space (s ++ post) = true)
      by (rewrite forallb_app, E, Hpost; reflexivity).
    rewrite <- (app_nil_r (s ++ post)), (lstrip_blanks _ [] Hall).
    reflexivity.
  - rewrite lstrip_app by (rewrite E; discriminate).
    rewrite E, rev_app_distr.
    now rewrite (lstrip_blanks (rev post)) by now apply forallb_rev.
Qed.

Section Blanks.

Context {C : Collaborators}.

(** X4 — Blanks around a text key: [b58decode] strips a [str] before it
    decodes it, so that a text between blanks (spaces, tabs, line ends)
    gives what the text alone gives, a key or a failure, with validation on
    or off; the functions that take a key as text read it through
    [b58decode] and inherit this. *)
Theorem b58decode_blanks (pre s post : list byte) (av : bool) :
  forallb is_space pre = true -> forallb is_space post = true ->
  b58decode (PyStr (pre ++ s ++ post)) av = b58decode (PyStr s) av
  /\ key_data (KeyStr (PyStr (pre ++ s ++ post)))
     = key_data (KeyStr (PyStr s))
  /\ (forall path fv,
        _derive (KeyStr (PyStr (pre ++ s ++ post))) path fv
        = _derive (KeyStr (PyStr s)) path fv)
  /\ _xpub_from_xprv (KeyStr (PyStr (pre ++ s ++ post)))
     = _xpub_from_xprv (KeyStr (PyStr s)).
Proof.
  intros Hpre Hpost.
  assert (H : forall av', b58decode (PyStr (pre ++ s ++ post)) av'
                          = b58decode (PyStr s) av').
  { intros av'. unfold b58decode.
    now rewrite (strip_blanks pre s post Hpre Hpost). }
  splits.
  - apply H.
  - apply H.
  - intros path fv. unfold _derive, key_data. now rewrite H.
  - unfold _xpub_from_xprv, key_data. now rewrite H.
Qed.

End Blanks.

(** ** What a derivation keeps and what it refuses *)

Section DerivationFacts.

Context {C : Collaborators} (L : Laws C).

Lemma ckd_step_facts (xk xk' : _ExtendedBIP32KeyData Point) (i : Z) :
  __ckd xk i = Ok xk' ->
  0 <= i < 2 ^ 32
  /\ (byte0 (key (xdata xk)) = Ok 0 -> byte0 (key (xdata xk')) = Ok 0)
  /\ (byte0 (key (xdata xk)) <> Ok 0 ->
      i < 2 ^ 31 /\ byte0 (key (xdata xk')) <> Ok 0).
Proof.
  intros H. unfold __ckd, is_hardened in H.
  cbn [with_depth with_index with_parent_fingerprint with_chain_code
       version depth parent_fingerprint index chain_code key] in H.
  apply bind_Ok in H. destruct H as (k0 & Hk0 & H). rewrite Hk0.
  destruct (k0 =? 0) eqn:E0.
  - apply Z.eqb_eq in E0. subst k0.
    apply bind_Ok in H. destruct H as (Qb & _ & H).
    apply bind_Ok in H. destruct H as (hmac_ & Hh & H).
    apply bind_Ok in H. destruct H as (qb & _ & H).
    apply Ok_inj in H. subst xk'.
    assert (Hi : 0 <= i < 2 ^ 32).
    { destruct (i >=? 2147483648);
        apply bind_Ok in Hh; destruct Hh as (ib & Hib & _);
        apply to_bytes_inv in Hib; exact (proj1 Hib). }
    split; [exact Hi | split; [reflexivity | congruence]].
  - apply Z.eqb_neq in E0.
    destruct (i >=? 2147483648) eqn:Eh; [discriminate|].
    apply bind_Ok in H. destruct H as (ib & Hib & H).
    apply bind_Ok in H. destruct H as (Q' & _ & H).
    apply bind_Ok in H. destruct H as (kb & Hkb & H).
    apply Ok_inj in H. subst xk'.
    apply to_bytes_inv in Hib. destruct Hib as [Hi _].
    apply bytes_from_point_sec in Hkb. destruct Hkb as (_ & Hb & _ & _).
    rewrite Z.geb_leb in Eh. apply Z.leb_gt in Eh.
    cbn [xdata with_key key].
    split; [exact Hi | split; [congruence|]].
    intros _. split; [lia|]. destruct Hb as [Hb|Hb]; rewrite Hb; congruence.
Qed.

Lemma ckd_loop_facts (idx : list Z) (xk xk' : _ExtendedBIP32KeyData Point) :
  ckd_loop xk idx = Ok xk' ->
  Forall (fun i => 0 <= i < 2 ^ 32) idx
  /\ (byte0 (key (xdata xk)) = Ok 0 -> byte0 (key (xdata xk')) = Ok 0)
  /\ (byte0 (key (xdata xk)) <> Ok 0 ->
      Forall (fun i => i < 2 ^ 31) idx
      /\ byte0 (key (xdata xk')) <> Ok 0).
Proof.
  revert xk. induction idx as [|i idx IH]; intros xk H.
  - cbn [ckd_loop] in H. apply Ok_inj in H. subst xk'.
    split; [constructor | split; [tauto|]].
    intros Hb. split; [constructor|exact Hb].
  - cbn [ckd_loop] in H. apply bind_Ok in H. destruct H as (xk1 & H1 & H).
    destruct (ckd_step_facts xk xk1 i H1) as (Hi & Hprv & Hpub).
    destruct (IH xk1 H) as (Hall & Hprv' & Hpub').
    split; [|split].
    + now constructor.
    + auto.
    + intros Hb. destruct (Hpub Hb) as [Hi' Hb1].
      destruct (Hpub' Hb1) as [Hall' Hb']. split; [now constructor|exact Hb'].
Qed.

Lemma force_version_inv (fv : option String)
    (xk xk' : _ExtendedBIP32KeyData Point) :
  force_version fv xk = Ok xk' ->
  xk' = xk
  \/ exists v, xk' = mkExtended (with_version (xdata xk) v) (q xk) (Q xk)
               /\ (private_version (version (xdata xk)) -> private_version v)
               /\ (~ private_version (version (xdata xk)) ->
                   public_version v).
Proof.
  unfold force_version. destruct (truthy fv) as [fo|].
  - intros H. apply bind_Ok in H. destruct H as (v & _ & H).
    inv_raise H. apply Ok_inj in H. subst xk'. right. exists v.
    split; [reflexivity|]. b2p.
    destruct (mem (version (xdata xk)) _XPRV_VERSIONS_ALL) eqn:E; b2p;
      split; intros; try assumption; contradiction.
  - intros H. apply Ok_inj in H. now left.
Qed.

Lemma with_version_invariants (k : BIP32KeyData) (v : bytes) :
  invariants k ->
  (private_version (version k) -> private_version v) ->
  (~ private_version (version k) -> public_version v) ->
  invariants (with_version k v).
Proof.
  intros [Hv Hd Hfp Hi Hcc Hk Hprv Hpub Hroot] Hp Hn.
  assert (Hdec : private_version (version k)
                 \/ ~ private_version (version k)).
  { destruct (mem (version k) _XPRV_VERSIONS_ALL) eqn:E; b2p; tauto. }
  constructor; cbn [with_version version depth parent_fingerprint index
                    chain_code key]; try assumption.
  - destruct Hdec as [H|H]; [left|right]; auto.
  - intros Hv'. destruct Hdec as [H|H]; [auto|].
    exfalso. exact (versions_disjoint v Hv' (Hn H)).
  - intros Hv'. destruct Hdec as [H|H].
    + exfalso. exact (versions_disjoint v (Hp H) Hv').
    + destruct Hv as [Hv|Hv]; [contradiction | auto].
Qed.

Lemma _derive_inv (x : BIP32Key) (path : BIP32DerPath) (fv : option String)
    (xk : _ExtendedBIP32KeyData Point) :
  _derive x path fv = Ok xk ->
  exists k idx xk0 xk1,
    key_data x = Ok k /\ indexes_from_bip32_path path = Ok idx
    /\ depth k + Z.of_nat (length idx) <= 255
    /\ extended_of k = Ok xk0 /\ ckd_loop xk0 idx = Ok xk1
    /\ force_version fv xk1 = Ok xk.
Proof.
  intros H. rewrite _derive_unfold in H.
  apply bind_Ok in H. destruct H as (k & Hk & H).
  apply bind_Ok in H. destruct H as (idx & Hidx & H).
  inv_raise H. b2p.
  apply bind_Ok in H. destruct H as (xk0 & H0 & H).
  apply bind_Ok in H. destruct H as (xk1 & H1 & H).
  exists k, idx, xk0, xk1. splits; assumption.
Qed.

(** X5 — Index bounds: a derivation returns a key only along a path whose
    indexes all lie in 0..2^32-1 and, from a public key, all below 2^31;
    a path with an index out of 32 bits, or with a hardened index anywhere
    when the start key is public, gives no key, from [_derive] and from
    [derive]. *)
Theorem derive_index_bounds (x : BIP32Key) (path : BIP32DerPath)
    (fv : option String) (k : BIP32KeyData) (idx : list Z) :
  key_data x = Ok k ->
  indexes_from_bip32_path path = Ok idx ->
  (exists xk, _derive x path fv = Ok xk)
  \/ (exists s, derive x path fv = Ok s) ->
  Forall (fun i => 0 <= i < 2 ^ 32) idx
  /\ (byte0 (key k) <> Ok 0 -> Forall (fun i => 0 <= i < 2 ^ 31) idx).
Proof.
  intros Hk Hidx H.
  assert (Hd : exists xk, _derive x path fv = Ok xk).
  { destruct H as [H|[s H]]; [exact H|].
    unfold derive in H. apply bind_Ok in H.
    destruct H as (xk & H & _). now exists xk. }
  destruct Hd as [xk Hd]. apply _derive_inv in Hd.
  destruct Hd as (k' & idx' & xk0 & xk1 & Hk' & Hidx' & _ & H0 & H1 & _).
  assert (k' = k) by congruence. assert (idx' = idx) by congruence.
  subst k' idx'.
  apply extended_of_inv in H0. destruct H0 as (Hx & _ & _).
  destruct (ckd_loop_facts idx xk0 xk1 H1) as (Hall & _ & Hpub).
  rewrite Hx in Hpub. split; [exact Hall|].
  intros Hb. destruct (Hpub Hb) as [Hlt _].
  rewrite Forall_forall in *. intros i Hi.
  specialize (Hall i Hi). specialize (Hlt i Hi). lia.
Qed.

(** X6 — What a derivation keeps: [_derive] returns a key only from a start
    key that passes the validation, whether it came as text or as data;
    the key returned is private exactly when the start key is, in its key
    bytes and in its version, a forced version included; and it satisfies
    the invariants of the data model, but for a private key whose scalar is
    zero. *)
Theorem derive_keeps_kind (x : BIP32Key) (path : BIP32DerPath)
    (fv : option String) (k : BIP32KeyData)
    (xk : _ExtendedBIP32KeyData Point) :
  key_data x = Ok k ->
  _derive x path fv = Ok xk ->
  invariants k
  /\ (byte0 (key (xdata xk)) = Ok 0 <-> byte0 (key k) = Ok 0)
  /\ (private_version (version (xdata xk)) <-> private_version (version k))
  /\ (truthy fv = None -> version (xdata xk) = version k)
  /\ ((byte0 (key (xdata xk)) = Ok 0 ->
       from_bytes (tl (key (xdata xk))) <> 0) ->
      invariants (xdata xk)).
Proof.
  intros Hk Hd. apply _derive_inv in Hd.
  destruct Hd as (k' & idx & xk0 & xk1 & Hk' & _ & Hdepth & H0 & H1 & Hf).
  assert (k' = k) by congruence. subst k'.
  apply extended_of_inv in H0. destruct H0 as (Hx & Hval & Hc0).
  pose proof (assert_valid_invariants L k Hval) as Hinv.
  rewrite <- Hx in Hc0.
  pose proof (ckd_loop_cache L idx xk0 xk1 Hc0 H1) as Hc1.
  destruct (ckd_loop_facts idx xk0 xk1 H1) as (_ & Hprv & Hpub).
  destruct (ckd_loop_fields idx xk0 xk1 H1) as (Hver & _ & _).
  rewrite Hx in Hprv, Hpub, Hver.
  assert (Hkind : byte0 (key (xdata xk1)) = Ok 0 <-> byte0 (key k) = Ok 0).
  { split; [|exact Hprv]. intros Hb.
    destruct (byte0 (key k)) as [[| |]|] eqn:E; try reflexivity;
      exfalso; apply Hpub; congruence. }
  assert (Hinv1 : (byte0 (key (xdata xk1)) = Ok 0 ->
                   from_bytes (tl (key (xdata xk1))) <> 0) ->
                  invariants (xdata xk1)).
  { intros Hq. apply (ckd_loop_invariants L idx xk0 xk1 H1).
    - now rewrite Hx.
    - now rewrite Hx.
    - intros Hb. rewrite (cache_prv _ _ _ Hc1 Hb). now apply Hq. }
  assert (Hdisj : forall v, private_version v -> public_version v -> False)
    by (intros v; apply versions_disjoint).
  assert (Hnone : truthy fv = None -> version (xdata xk) = version k).
  { intros Ht. unfold force_version in Hf. rewrite Ht in Hf.
    apply Ok_inj in Hf. now rewrite <- Hf. }
  destruct (force_version_inv fv xk1 xk Hf) as [->|(v & -> & Hp & Hn)].
  - rewrite Hver. splits; try tauto.
  - cbn [xdata with_version key version] in *. rewrite Hver in Hp, Hn.
    assert (Hdec : private_version (version k)
                   \/ ~ private_version (version k)).
    { destruct (mem (version k) _XPRV_VERSIONS_ALL) eqn:E; b2p; tauto. }
    splits.
    + exact Hinv.
    + exact Hkind.
    + split; [|exact Hp]. intros Hv.
      destruct Hdec as [H|H]; [exact H|]. exfalso. eauto.
    + exact Hnone.
    + intros Hq. specialize (Hinv1 Hq).
      apply (with_version_invariants _ v Hinv1); now rewrite Hver.
Qed.

End DerivationFacts.

(** ** The empty path, the forced version and the texts returned *)

Section DerivationEdges.

Context {C : Collaborators} (L : Laws C).

Lemma extended_of_valid (k : BIP32KeyData) :
  assert_valid k = Ok tt ->
  exists xk, extended_of k = Ok xk /\ xdata xk = k.
Proof.
  intros Hval. pose proof (assert_valid_invariants L k Hval) as Hinv.
  destruct (inv_version k Hinv) as [Hv|Hv].
  - eexists. split; [apply (extended_of_prv L); now split | reflexivity].
  - destruct (inv_public k Hinv Hv) as (Hb & y & Hy).
    destruct (point_from_sec (key k) y (inv_key k Hinv) Hb Hy) as [P HP].
    exists (mkExtended k 0 P). split; [|reflexivity].
    now apply extended_of_pub.
Qed.

(** X7 — The empty path: along a path without indexes a valid key, given
    as data or as text, is returned as it is, by [_derive] as key data and
    by [derive] as its Base58Check text, which decodes to the same key; no
    derivation step is made and no depth is added. *)
Theorem derive_empty_path (x : BIP32Key) (k : BIP32KeyData)
    (path : BIP32DerPath) :
  key_data x = Ok k ->
  indexes_from_bip32_path path = Ok [] ->
  assert_valid k = Ok tt ->
  (exists xk, _derive x path None = Ok xk /\ xdata xk = k)
  /\ derive x path None = Ok (base58_b58encode (wire k))
  /\ b58decode (PyStr (base58_b58encode (wire k))) true = Ok k.
Proof.
  intros Hk Hidx Hval.
  pose proof (assert_valid_invariants L k Hval) as Hinv.
  destruct (extended_of_valid k Hval) as (xk & Hx & Hdata).
  assert (E : _derive x path None = Ok xk).
  { rewrite _derive_unfold, Hk, Hidx. cbn [bind length].
    replace (depth k + Z.of_nat 0 >? 255) with false
      by (symmetry; rewrite Z.gtb_ltb; apply Z.ltb_ge;
          pose proof (inv_depth k Hinv); lia).
    cbn [raise_if bind]. rewrite Hx. reflexivity. }
  splits.
  - now exists xk.
  - unfold derive. rewrite E. cbn [bind]. rewrite Hdata.
    now apply b58encode_str_wire.
  - now apply b58decode_str_wire.
Qed.

(** X8 — The forced version: an empty forced version forces nothing; a
    forced version of 4 bytes replaces the version of the derived key, and
    nothing else, when it stands in the table of the kind of the start key
    (private for a private key, public for a public one), and fails with
    the invalid-forced-version error when it does not, so that no key
    changes kind by its version. *)
Theorem derive_forced_version (x : BIP32Key) (path : BIP32DerPath)
    (fo : String) (k : BIP32KeyData) (xk : _ExtendedBIP32KeyData Point) :
  key_data x = Ok k ->
  _derive x path None = Ok xk ->
  (truthy (Some fo) = None -> _derive x path (Some fo) = Ok xk)
  /\ (truthy (Some fo) = Some fo ->
      forall v, bytes_from_octets fo (Some 4%nat) = Ok v ->
        let same_kind :=
          if mem (version k) _XPRV_VERSIONS_ALL
          then mem v _XPRV_VERSIONS_ALL else mem v _XPUB_VERSIONS_ALL in
        (same_kind = true ->
           _derive x path (Some fo)
           = Ok (mkExtended (with_version (xdata xk) v) (q xk) (Q xk)))
        /\ (same_kind = false ->
              _derive x path (Some fo) = Err InvalidForcedVersion)).
Proof.
  intros Hk Hd. pose proof Hd as Hinv. apply _derive_inv in Hinv.
  destruct Hinv as (k' & idx & xk0 & xk1 & Hk' & Hidx & Hdepth & H0 & H1
                    & Hf).
  assert (k' = k) by congruence. subst k'.
  unfold force_version in Hf. cbn [truthy] in Hf. apply Ok_inj in Hf.
  subst xk1.
  apply extended_of_inv in H0. destruct H0 as (Hx & _ & _).
  destruct (ckd_loop_fields idx xk0 xk H1) as (Hver & _ & _).
  rewrite Hx in Hver.
  assert (E : forall fv, _derive x path fv = force_version fv xk).
  { intros fv. rewrite !_derive_unfold in *. rewrite Hk, Hidx in *.
    cbn [bind] in *.
    destruct (raise_if _ FinalDepth); [|discriminate]. cbn [bind] in *.
    destruct (extended_of k) as [xk0'|]; [|discriminate]. cbn [bind] in *.
    destruct (ckd_loop xk0' idx) as [xk1|]; [|discriminate].
    cbn [bind] in *. unfold force_version in Hd at 1. cbn [truthy] in Hd.
    apply Ok_inj in Hd. now subst xk1. }
  split.
  - intros Ht. rewrite E. unfold force_version. now rewrite Ht.
  - intros Ht v Hv same_kind. subst same_kind.
    rewrite E. unfold force_version. rewrite Ht, Hv, Hver. cbn [bind].
    split; intros Hs.
    + destruct (mem (version k) _XPRV_VERSIONS_ALL); rewrite Hs; reflexivity.
    + destruct (mem (version k) _XPRV_VERSIONS_ALL); rewrite Hs; reflexivity.
Qed.

(** X9 — The texts returned: every text that [rootxprv_from_seed],
    [xpub_from_xprv] or [derive] returns is the Base58Check text of the key
    that [_rootxprv_from_seed], [_xpub_from_xprv] or [_derive] returns on
    the same arguments; this key passes the validation and the text decodes
    to it.  The text that [crack_prv_key] returns decodes to a valid private
    key with the version of the child and the depth, parent fingerprint,
    index and chain code of the parent. *)
Theorem texts_are_valid_keys :
  (forall seed ver s, rootxprv_from_seed seed ver = Ok s ->
     exists k, _rootxprv_from_seed seed ver = Ok k /\ invariants k
               /\ s = base58_b58encode (wire k)
               /\ b58decode (PyStr s) true = Ok k)
  /\ (forall x s, xpub_from_xprv x = Ok s ->
        exists k, _xpub_from_xprv x = Ok k /\ invariants k
                  /\ s = base58_b58encode (wire k)
                  /\ b58decode (PyStr s) true = Ok k)
  /\ (forall x path fv s, derive x path fv = Ok s ->
        exists xk, _derive x path fv = Ok xk /\ invariants (xdata xk)
                   /\ s = base58_b58encode (wire (xdata xk))
                   /\ b58decode (PyStr s) true = Ok (xdata xk))
  /\ (forall xp xc s, crack_prv_key xp xc = Ok s ->
        exists p c k,
          key_data xp = Ok p /\ key_data xc = Ok c
          /\ invariants k /\ b58decode (PyStr s) true = Ok k
          /\ private_version (version k) /\ version k = version c
          /\ depth k = depth p
          /\ parent_fingerprint k = parent_fingerprint p
          /\ index k = index p /\ chain_code k = chain_code p).
Proof.
  assert (Htext : forall k s, b58encode_str k = Ok s ->
            invariants k /\ s = base58_b58encode (wire k)
            /\ b58decode (PyStr s) true = Ok k).
  { intros k s H. apply (b58encode_str_inv L) in H. destruct H as [Hinv ->].
    splits; [exact Hinv | reflexivity | now apply b58decode_str_wire]. }
  splits.
  - intros seed ver s H. unfold rootxprv_from_seed in H.
    apply bind_Ok in H. destruct H as (k & Hk & H).
    exists k. split; [exact Hk | now apply Htext].
  - intros x s H. unfold xpub_from_xprv in H.
    apply bind_Ok in H. destruct H as (k & Hk & H).
    exists k. split; [exact Hk | now apply Htext].
  - intros x path fv s H. unfold derive in H.
    apply bind_Ok in H. destruct H as (xk & Hk & H).
    exists xk. split; [exact Hk | now apply Htext].
  - intros xp xc s H. unfold crack_prv_key in H.
    apply bind_Ok in H. destruct H as (p & Hp & H).
    apply bind_Ok in H. destruct H as (p0 & _ & H).
    apply bind_Ok in H. destruct H as (u & _ & H).
    apply bind_Ok in H. destruct H as (c & Hc & H).
    apply bind_Ok in H. destruct H as (c0 & _ & H).
    apply bind_Ok in H. destruct H as (u' & _ & H).
    do 3 inv_raise H.
    apply bind_Ok in H. destruct H as (ib & _ & H).
    apply bind_Ok in H. destruct H as (qb & _ & H).
    apply Htext in H. destruct H as (Hinv & _ & Hdec).
    eexists p, c, _. splits; try eassumption; try reflexivity.
    destruct (inv_version _ Hinv) as [Hv|Hv]; [exact Hv|].
    destruct (inv_public _ Hinv Hv) as [[Hb|Hb] _];
      cbn [with_key key byte0] in Hb; discriminate.
Qed.

End DerivationEdges.

(** *** Instances in the model *)

Lemma deserialize_truncated_witness :
  (length [x04; x88; xad; xe4; x00] < 78)%nat
  /\ deserialize (C := Model.collaborators)
       (PyBytes [x04; x88; xad; xe4; x00]) true
     = Err InvalidFingerprintLength.
Proof.
  assert (H : (length [x04; x88; xad; xe4; x00] < 78)%nat)
    by (cbn [length]; lia).
  split; [exact H|].
  exact (proj2 (deserialize_truncated model_laws
                  [x04; x88; xad; xe4; x00] H)).
Defined.

Lemma deserialize_serialize_witness :
  deserialize (C := Model.collaborators) (PyBytes Model.long_data) true
  = Ok Model.root
  /\ serialize (C := Model.collaborators) Model.root true
     = Ok (firstn 78 Model.long_data).
Proof.
  assert (H : deserialize (C := Model.collaborators)
                (PyBytes Model.long_data) true = Ok Model.root)
    by (vm_compute; reflexivity).
  split; [exact H|].
  exact (proj1 (proj2 (deserialize_serialize model_laws Model.long_data
                         Model.root H))).
Defined.

Lemma serialize_unvalidated_witness :
  serialize (C := Model.collaborators) Model.mixed false
  = Ok (wire Model.mixed).
Proof.
  assert (H : 0 <= depth Model.mixed <= 255
              /\ 0 <= index Model.mixed <= 0xFFFFFFFF)
    by (cbn [Model.mixed depth index]; lia).
  exact (proj1 (proj1 (serialize_unvalidated (C := Model.collaborators)
                         Model.mixed) H)).
Defined.

Lemma b58decode_blanks_witness :
  b58decode (C := Model.collaborators)
    (PyStr ([x20; x09] ++ [x61; x62] ++ [x0a])) true
  = b58decode (C := Model.collaborators) (PyStr [x61; x62]) true.
Proof.
  exact (proj1 (b58decode_blanks (C := Model.collaborators)
                  [x20; x09] [x61; x62] [x0a] true eq_refl eq_refl)).
Defined.

Lemma derive_index_bounds_witness :
  Forall (fun i => 0 <= i < 2 ^ 32) [3].
Proof.
  assert (H : exists s, derive (C := Model.collaborators)
                          (KeyData Model.five) [3] None = Ok s)
    by (eexists; vm_compute; reflexivity).
  exact (proj1 (derive_index_bounds model_laws (KeyData Model.five) [3]
                  None Model.five [3] eq_refl eq_refl (or_intror H))).
Defined.

Lemma derive_keeps_kind_witness :
  exists xk,
    _derive (C := Model.collaborators) (KeyData Model.five) [3] None = Ok xk
    /\ (private_version (C := Model.collaborators) (version (xdata xk))
        <-> private_version (C := Model.collaborators)
              (version Model.five)).
Proof.
  assert (H : exists xk, _derive (C := Model.collaborators)
                           (KeyData Model.five) [3] None = Ok xk)
    by (eexists; vm_compute; reflexivity).
  destruct H as [xk H]. exists xk. split; [exact H|].
  exact (proj1 (proj2 (proj2 (derive_keeps_kind model_laws
                                (KeyData Model.five) [3] None Model.five xk
                                eq_refl H)))).
Defined.

Lemma derive_empty_path_witness :
  derive (C := Model.collaborators) (KeyData Model.five) [] None
  = Ok (@base58_b58encode Model.collaborators (wire Model.five)).
Proof.
  destruct model_valid as (_ & [Hval _] & _).
  exact (proj1 (proj2 (derive_empty_path model_laws (KeyData Model.five)
                         Model.five [] eq_refl eq_refl Hval))).
Defined.

Lemma derive_forced_version_witness :
  exists xk,
    _derive (C := Model.collaborators) (KeyData Model.five) [3] None = Ok xk
    /\ _derive (C := Model.collaborators) (KeyData Model.five) [3]
         (Some (PyBytes [x04; xb2; x43; x0c]))
       = Ok (mkExtended (with_version (xdata xk) [x04; xb2; x43; x0c])
               (q xk) (Q xk))
    /\ _derive (C := Model.collaborators) (KeyData Model.five) [3]
         (Some (PyBytes [x04; xb2; x47; x46]))
       = Err InvalidForcedVersion.
Proof.
  assert (H : exists xk, _derive (C := Model.collaborators)
                           (KeyData Model.five) [3] None = Ok xk)
    by (eexists; vm_compute; reflexivity).
  destruct H as [xk H]. exists xk. split; [exact H|].
  pose proof (derive_forced_version (C := Model.collaborators)
                (KeyData Model.five) [3]) as T.
  split.
  - exact (proj1 (proj2 (T (PyBytes [x04; xb2; x43; x0c]) Model.five xk
                           eq_refl H) eq_refl [x04; xb2; x43; x0c] eq_refl)
             eq_refl).
  - exact (proj2 (proj2 (T (PyBytes [x04; xb2; x47; x46]) Model.five xk
                           eq_refl H) eq_refl [x04; xb2; x47; x46] eq_refl)
             eq_refl).
Defined.

Lemma texts_are_valid_keys_witness :
  exists s k,
    rootxprv_from_seed (C := Model.collaborators) (PyBytes Model.seed)
      (PyBytes Model.xprv_tag) = Ok s
    /\ _rootxprv_from_seed (C := Model.collaborators) (PyBytes Model.seed)
         (PyBytes Model.xprv_tag) = Ok k
    /\ b58decode (C := Model.collaborators) (PyStr s) true = Ok k.
Proof.
  assert (H : exists s, rootxprv_from_seed (C := Model.collaborators)
                          (PyBytes Model.seed) (PyBytes Model.xprv_tag)
                        = Ok s)
    by (eexists; vm_compute; reflexivity).
  destruct H as [s H].
  destruct (proj1 (texts_are_valid_keys model_laws) _ _ s H)
    as (k & Hk & _ & _ & Hdec).
  exists s, k. splits; assumption.
Defined.

(** ** Derivation from an account key *)

Section AccountFacts.

Context {C : Collaborators} (L : Laws C).
Variable str_path : list byte -> BIP32DerPath.

Lemma lift_Returned {A} (r : result A) (a : A) :
  lift r = Returned a -> r = Ok a.
Proof. destruct r; cbn [lift]; congruence. Qed.

Lemma obind_Returned {E A B} (r : outcome E A) (f : A -> outcome E B)
    (b : B) :
  obind r f = Returned b -> exists a, r = Returned a /\ f a = Returned b.
Proof. destruct r as [a|e]; cbn [obind]; [eauto|discriminate]. Qed.

(** X10 — The guards of [_derive_from_account], in their order: a key
    that does not decode fails as [b58decode] does; an account key whose
    index is not hardened fails with the public-derivation warning,
    whatever the branch and the address index; then a hardened branch
    fails; then, when only branches 0 and 1 are allowed, any other branch
    fails, a negative one included; then a hardened address index fails.
    Past the guards the result is that of [_derive] along the text
    [m/branch/address_index]; [derive_from_account] fails in the same
    way. *)
Theorem derive_from_account_guards (x : BIP32Key)
    (branch address_index : Z) (only : bool) :
  let data := _derive_from_account str_path x branch address_index only in
  let text := derive_from_account str_path x branch address_index only in
  (forall e, key_data x = Err e ->
     data = Failed (Raised e) /\ text = Failed (Raised e))
  /\ (forall k, key_data x = Ok k ->
        (index k < 0x80000000 ->
           data = Failed PublicDerivationAtAccount
           /\ text = Failed PublicDerivationAtAccount)
        /\ (index k >= 0x80000000 ->
            (branch >= 0x80000000 ->
               data = Failed PrivateDerivationAtBranch
               /\ text = Failed PrivateDerivationAtBranch)
            /\ (branch < 0x80000000 -> only = true ->
                branch <> 0 -> branch <> 1 ->
                data = Failed InvalidBranch /\ text = Failed InvalidBranch)
            /\ (branch < 0x80000000 ->
                only = false \/ branch = 0 \/ branch = 1 ->
                (address_index >= 0x80000000 ->
                   data = Failed PrivateDerivationAtAddressIndex
                   /\ text = Failed PrivateDerivationAtAddressIndex)
                /\ (address_index < 0x80000000 ->
                    data = lift (_derive (KeyData k)
                                   (str_path
                                      (account_path branch address_index))
                                   None))))).
Proof.
  intros data text.
  assert (Htext : forall e, data = Failed e -> text = Failed e).
  { intros e H. subst text. unfold derive_from_account.
    fold data. now rewrite H. }
  assert (Hboth : forall e, data = Failed e ->
                            data = Failed e /\ text = Failed e)
    by (intros e H; split; [exact H | now apply Htext]).
  subst data. unfold _derive_from_account, is_hardened in *.
  split.
  - intros e He. apply Hboth. now rewrite He.
  - intros k Hk. rewrite Hk in *. cbn [lift obind] in *. split.
    + intros Hi. apply Hboth.
      replace (index k >=? 2147483648) with false
        by (symmetry; rewrite Z.geb_leb; apply Z.leb_gt; lia).
      reflexivity.
    + intros Hi.
      replace (index k >=? 2147483648) with true in *
        by (symmetry; rewrite Z.geb_leb; apply Z.leb_le; lia).
      cbn [negb] in *. split; [|split].
      * intros Hb. apply Hboth.
        replace (branch >=? 2147483648) with true
          by (symmetry; rewrite Z.geb_leb; apply Z.leb_le; lia).
        reflexivity.
      * intros Hb -> H0 H1. apply Hboth.
        replace (branch >=? 2147483648) with false
          by (symmetry; rewrite Z.geb_leb; apply Z.leb_gt; lia).
        replace (branch =? 0) with false
          by (symmetry; now apply Z.eqb_neq).
        replace (branch =? 1) with false
          by (symmetry; now apply Z.eqb_neq).
        reflexivity.
      * intros Hb Hor.
        replace (branch >=? 2147483648) with false in *
          by (symmetry; rewrite Z.geb_leb; apply Z.leb_gt; lia).
        replace (only && negb ((branch =? 0) || (branch =? 1)))
          with false in *
          by (symmetry; destruct Hor as [->|[->| ->]];
              [reflexivity | apply andb_false_r | apply andb_false_r]).
        split.
        -- intros Ha. apply Hboth.
           replace (address_index >=? 2147483648) with true
             by (symmetry; rewrite Z.geb_leb; apply Z.leb_le; lia).
           reflexivity.
        -- intros Ha.
           replace (address_index >=? 2147483648) with false
             by (symmetry; rewrite Z.geb_leb; apply Z.leb_gt; lia).
           reflexivity.
Qed.

(** X11 — What [_derive_from_account] returns: a key is returned only
    from a valid account key with a hardened index, for a branch and an
    address index that are not hardened, the branch being 0 or 1 when only
    these are allowed.  Where the path parser reads the text
    [m/branch/address_index] as these two indexes, neither is negative and
    the key returned lies two levels below the account key, with the
    address index as its index and the version and the kind, private or
    public, of the account key. *)
Theorem derive_from_account_returns (x : BIP32Key)
    (branch address_index : Z) (only : bool)
    (xk : _ExtendedBIP32KeyData Point) :
  indexes_from_bip32_path (str_path (account_path branch address_index))
  = Ok [branch; address_index] ->
  _derive_from_account str_path x branch address_index only
  = Returned xk ->
  exists k,
    key_data x = Ok k /\ invariants k /\ index k >= 0x80000000
    /\ 0 <= branch < 2 ^ 31 /\ 0 <= address_index < 2 ^ 31
    /\ (only = true -> branch = 0 \/ branch = 1)
    /\ depth (xdata xk) = depth k + 2
    /\ index (xdata xk) = address_index
    /\ version (xdata xk) = version k
    /\ (byte0 (key (xdata xk)) = Ok 0 <-> byte0 (key k) = Ok 0).
Proof.
  intros Hpath H. unfold _derive_from_account, is_hardened in H.
  apply obind_Returned in H. destruct H as (k & Hk & H).
  apply lift_Returned in Hk.
  destruct (index k >=? 2147483648) eqn:Ei; [|discriminate].
  cbn [negb] in H.
  destruct (branch >=? 2147483648) eqn:Eb; [discriminate|].
  destruct (only && negb ((branch =? 0) || (branch =? 1))) eqn:Eo;
    [discriminate|].
  destruct (address_index >=? 2147483648) eqn:Ea; [discriminate|].
  apply lift_Returned in H.
  rewrite Z.geb_leb in Ei, Eb, Ea.
  apply Z.leb_le in Ei. apply Z.leb_gt in Eb, Ea.
  pose proof (_derive_inv _ _ _ _ H)
    as (k' & idx & xk0 & xk1 & Hk' & Hidx & _ & H0 & H1 & Hf).
  cbn [key_data] in Hk'. apply Ok_inj in Hk'. subst k'.
  rewrite Hpath in Hidx. apply Ok_inj in Hidx. subst idx.
  unfold force_version in Hf. cbn [truthy] in Hf. apply Ok_inj in Hf.
  subst xk1.
  apply extended_of_inv in H0. destruct H0 as (Hx & Hval & _).
  destruct (ckd_loop_fields _ _ _ H1) as (Hver & Hdepth & Hindex).
  destruct (ckd_loop_facts L _ _ _ H1) as (Hall & Hprv & Hpub).
  rewrite Hx in *.
  assert (Hb : 0 <= branch) by (inversion Hall; lia).
  assert (Ha : 0 <= address_index).
  { inversion Hall as [|? ? _ Hall']. inversion Hall'. lia. }
  exists k. splits; try assumption; try lia.
  - now apply (assert_valid_invariants L).
  - intros ->. cbn [andb] in Eo. apply negb_false_iff in Eo.
    apply orb_true_iff in Eo. destruct Eo as [Eo|Eo]; apply Z.eqb_eq in Eo;
      tauto.
  - split; [|exact Hprv]. intros Hz.
    destruct (byte0 (key k)) as [[| |]|] eqn:E; try reflexivity;
      exfalso; apply Hpub; congruence.
Qed.

End AccountFacts.

Lemma account_model_valid :
  valid_xpub (C := Model.collaborators) AccountModel.account_pub.
Proof.
  split; [vm_compute; reflexivity|].
  apply (mem_In Model.xpub_tag). vm_compute. reflexivity.
Qed.

Lemma derive_from_account_guards_witness :
  _derive_from_account (C := Model.collaborators) AccountModel.str_path
    (KeyData Model.five_pub) 0 5 true
  = Failed PublicDerivationAtAccount
  /\ _derive_from_account (C := Model.collaborators) AccountModel.str_path
       (KeyData AccountModel.account_pub) (-1) 5 true
     = Failed InvalidBranch.
Proof.
  split.
  - refine (proj1 (proj1 (proj2 (derive_from_account_guards
                                   (C := Model.collaborators)
                                   AccountModel.str_path
                                   (KeyData Model.five_pub) 0 5 true)
                            Model.five_pub eq_refl) _)).
    cbn [Model.five_pub index]. lia.
  - refine (proj1 (proj1 (proj2 (proj2 (proj2 (derive_from_account_guards
              (C := Model.collaborators) AccountModel.str_path
              (KeyData AccountModel.account_pub) (-1) 5 true)
              AccountModel.account_pub eq_refl) _)) _ eq_refl _ _)).
    + cbn [AccountModel.account_pub index]. lia.
    + lia.
    + lia.
    + lia.
Defined.

Lemma derive_from_account_returns_witness :
  exists xk,
    _derive_from_account (C := Model.collaborators) AccountModel.str_path
      (KeyData AccountModel.account_pub) 1 5 true = Returned xk
    /\ depth (xdata xk) = depth AccountModel.account_pub + 2
    /\ index (xdata xk) = 5.
Proof.
  assert (H : exists xk,
            _derive_from_account (C := Model.collaborators)
              AccountModel.str_path (KeyData AccountModel.account_pub)
              1 5 true = Returned xk)
    by (eexists; vm_compute; reflexivity).
  destruct H as [xk H]. exists xk. split; [exact H|].
  assert (Hp : @indexes_from_bip32_path Model.collaborators
                 (AccountModel.str_path (account_path 1 5)) = Ok [1; 5])
    by (vm_compute; reflexivity).
  destruct (derive_from_account_returns model_laws AccountModel.str_path
              (KeyData AccountModel.account_pub) 1 5 true xk Hp H)
    as (k & Hk & _ & _ & _ & _ & _ & Hd & Hi & _).
  cbn [key_data] in Hk. apply Ok_inj in Hk. subst k. split; assumption.
Defined.

(** ** Network constants *)

Lemma index_of_None (v : bytes) (table : list bytes) :
  ~ In v table -> index_of v table = None.
Proof.
  induction table as [|x t IH]; [reflexivity|].
  intros H. cbn [index_of].
  destruct (bytes_eqb x v) eqn:E.
  - apply bytes_eqb_eq in E. exfalso. apply H. now left.
  - rewrite IH; [reflexivity|]. intros Hin. apply H. now right.
Qed.

Lemma index_of_app (v : bytes) (a b : list bytes) :
  index_of v (a ++ b)
  = match index_of v a with
    | Some i => Some i
    | None => option_map (fun j => (length a + j)%nat) (index_of v b)
    end.
Proof.
  induction a as [|x a IH]; cbn [app index_of length].
  - destruct (index_of v b); reflexivity.
  - destruct (bytes_eqb x v); [reflexivity|]. rewrite IH.
    destruct (index_of v a); [reflexivity|].
    destruct (index_of v b); reflexivity.
Qed.

Lemma is_space_lower (c : byte) :
  is_space (network.lower_char c) = is_space c.
Proof. destruct c; reflexivity. Qed.

Lemma lstrip_lower (s : list byte) :
  lstrip (network.lower s) = network.lower (lstrip s).
Proof.
  induction s as [|c s IH]; [reflexivity|].
  cbn [network.lower map lstrip]. rewrite is_space_lower.
  destruct (is_space c); [exact IH | reflexivity].
Qed.

Lemma strip_lower (s : list byte) :
  strip (network.lower s) = network.lower (strip s).
Proof.
  unfold strip. rewrite lstrip_lower. unfold network.lower at 1.
  rewrite <- map_rev. fold (network.lower (rev (lstrip s))).
  rewrite lstrip_lower. unfold network.lower. now rewrite map_rev.
Qed.

Section NetworkFacts.

Context {Curve : Type}.

Lemma check_sizes_Returned (self : network.Network Curve)
    (sizes : list (network.attr * nat)) :
  network.check_sizes self sizes = Returned tt
  <-> Forall (fun p => length (network.getattr self (fst p)) = snd p) sizes.
Proof.
  induction sizes as [|[key size] rest IH]; cbn [network.check_sizes].
  - split; [constructor | reflexivity].
  - destruct (length (network.getattr self key) =? size)%nat eqn:E;
      cbn [negb].
    + apply Nat.eqb_eq in E. rewrite IH. split.
      * intros H. now constructor.
      * intros H. now inversion H.
    + apply Nat.eqb_neq in E. split; [discriminate|].
      intros H. inversion H. contradiction.
Qed.

Lemma check_sizes_Failed (self : network.Network Curve)
    (sizes : list (network.attr * nat)) (e : network.exn) :
  network.check_sizes self sizes = Failed e ->
  exists pre key size post,
    sizes = pre ++ (key, size) :: post
    /\ e = network.InvalidLength key
    /\ length (network.getattr self key) <> size
    /\ Forall (fun p => length (network.getattr self (fst p)) = snd p) pre.
Proof.
  induction sizes as [|[key size] rest IH]; cbn [network.check_sizes];
    [discriminate|].
  destruct (length (network.getattr self key) =? size)%nat eqn:E;
    cbn [negb].
  - apply Nat.eqb_eq in E. intros H.
    destruct (IH H) as (pre & key' & size' & post & -> & -> & Hne & Hpre).
    exists ((key, size) :: pre), key', size', post.
    splits; try reflexivity; try assumption. now constructor.
  - apply Nat.eqb_neq in E. intros H.
    exists [], key, size, rest.
    splits; try reflexivity; try assumption; [congruence | constructor].
Qed.

(** X12 — Validation of a network: [assert_valid] accepts a network
    exactly when each of its fifteen byte attributes has the size that
    [_KEY_SIZE] gives it (4 bytes for the magic bytes and the ten version
    tags, 32 for the genesis block, 1 for the WIF, P2PKH and P2SH
    prefixes); when it fails, the error names the first attribute, in the
    order of [_KEY_SIZE], whose size is wrong. *)
Theorem network_assert_valid (self : network.Network Curve) :
  (network.assert_valid self = Returned tt
   <-> Forall (fun p => length (network.getattr self (fst p)) = snd p)
         network._KEY_SIZE)
  /\ (network.assert_valid self = Returned tt ->
      length (network.magic_bytes self) = 4%nat
      /\ length (network.genesis_block self) = 32%nat
      /\ length (network.wif self) = 1%nat
      /\ length (network.p2pkh self) = 1%nat
      /\ length (network.p2sh self) = 1%nat
      /\ forall key, In key [network.attr_bip32_prv;
                             network.attr_bip32_pub;
                             network.attr_slip132_p2wpkh_prv;
                             network.attr_slip132_p2wpkh_pub;
                             network.attr_slip132_p2wpkh_p2sh_prv;
                             network.attr_slip132_p2wpkh_p2sh_pub;
                             network.attr_slip132_p2wsh_prv;
                             network.attr_slip132_p2wsh_pub;
                             network.attr_slip132_p2wsh_p2sh_prv;
                             network.attr_slip132_p2wsh_p2sh_pub] ->
           length (network.getattr self key) = 4%nat)
  /\ (forall e, network.assert_valid self = Failed e ->
        exists pre key size post,
          network._KEY_SIZE = pre ++ (key, size) :: post
          /\ e = network.InvalidLength key
          /\ length (network.getattr self key) <> size
          /\ Forall (fun p => length (network.getattr self (fst p)) = snd p)
               pre).
Proof.
  unfold network.assert_valid. split; [|split].
  - apply check_sizes_Returned.
  - intros H. apply check_sizes_Returned in H.
    rewrite Forall_forall in H.
    assert (Hk : forall key size, In (key, size) network._KEY_SIZE ->
                   length (network.getattr self key) = size)
      by (intros key size Hin; exact (H (key, size) Hin)).
    splits;
      try (apply (Hk network.attr_magic_bytes); cbn; tauto);
      try (apply (Hk network.attr_genesis_block); cbn; tauto);
      try (apply (Hk network.attr_wif); cbn; tauto);
      try (apply (Hk network.attr_p2pkh); cbn; tauto);
      try (apply (Hk network.attr_p2sh); cbn; tauto).
    intros key Hin. apply Hk. cbn in Hin |- *.
    repeat (destruct Hin as [<-|Hin]; [tauto|]). contradiction.
  - apply check_sizes_Failed.
Qed.

Variables mainnet testnet regtest : network.Network Curve.

(** X13 — The version tables: whatever the data of the networks, the table
    of private versions holds the five private tags of mainnet (BIP32,
    P2WSH-P2SH, P2WPKH-P2SH, P2WPKH, P2WSH) and then those of testnet
    twice, the table of public versions holds the public tags in the same
    places, and the table of repeated networks names mainnet, testnet and
    regtest five times each: fifteen entries in each table, none taken from
    regtest.  When mainnet and testnet pass their validation every tag of
    the two tables has 4 bytes. *)
Theorem version_tables :
  let prv := fun net : network.Network Curve =>
    [network.bip32_prv net; network.slip132_p2wsh_p2sh_prv net;
     network.slip132_p2wpkh_p2sh_prv net; network.slip132_p2wpkh_prv net;
     network.slip132_p2wsh_prv net] in
  let pub := fun net : network.Network Curve =>
    [network.bip32_pub net; network.slip132_p2wsh_p2sh_pub net;
     network.slip132_p2wpkh_p2sh_pub net; network.slip132_p2wpkh_pub net;
     network.slip132_p2wsh_pub net] in
  network.XPRV_VERSIONS_ALL mainnet testnet regtest
  = Returned (prv mainnet ++ prv testnet ++ prv testnet)
  /\ network.XPUB_VERSIONS_ALL mainnet testnet regtest
     = Returned (pub mainnet ++ pub testnet ++ pub testnet)
  /\ network.n_versions mainnet testnet regtest = Returned 5%nat
  /\ network._REPEATED_NETWORKS mainnet testnet regtest
     = Returned (repeat ["m"; "a"; "i"; "n"; "n"; "e"; "t"]%byte 5
                 ++ repeat ["t"; "e"; "s"; "t"; "n"; "e"; "t"]%byte 5
                 ++ repeat ["r"; "e"; "g"; "t"; "e"; "s"; "t"]%byte 5)
  /\ length (prv mainnet ++ prv testnet ++ prv testnet) = 15%nat
  /\ length (pub mainnet ++ pub testnet ++ pub testnet) = 15%nat
  /\ (network.assert_valid mainnet = Returned tt ->
      network.assert_valid testnet = Returned tt ->
      forall v, In v ((prv mainnet ++ prv testnet ++ prv testnet)
                      ++ (pub mainnet ++ pub testnet ++ pub testnet)) ->
                length v = 4%nat).
Proof.
  intros prv pub.
  assert (H4 : forall net, network.assert_valid net = Returned tt ->
                 forall v, In v (prv net) \/ In v (pub net) ->
                           length v = 4%nat).
  { intros net Hv v Hin.
    unfold network.assert_valid in Hv. apply check_sizes_Returned in Hv.
    rewrite Forall_forall in Hv.
    assert (Ka : forall key,
              In key [network.attr_bip32_prv;
                      network.attr_bip32_pub;
                      network.attr_slip132_p2wpkh_prv;
                      network.attr_slip132_p2wpkh_pub;
                      network.attr_slip132_p2wpkh_p2sh_prv;
                      network.attr_slip132_p2wpkh_p2sh_pub;
                      network.attr_slip132_p2wsh_prv;
                      network.attr_slip132_p2wsh_pub;
                      network.attr_slip132_p2wsh_p2sh_prv;
                      network.attr_slip132_p2wsh_p2sh_pub] ->
              v = network.getattr net key -> length v = 4%nat).
    { intros key Hk ->. apply (Hv (key, 4%nat)). cbn in Hk |- *.
      repeat (destruct Hk as [<-|Hk]; [tauto|]). contradiction. }
    cbn [prv pub In] in Hin.
    destruct Hin as [[<-|[<-|[<-|[<-|[<-|[]]]]]]|[<-|[<-|[<-|[<-|[<-|[]]]]]]].
    - apply (Ka network.attr_bip32_prv); [cbn [In]; tauto | reflexivity].
    - apply (Ka network.attr_slip132_p2wsh_p2sh_prv);
        [cbn [In]; tauto | reflexivity].
    - apply (Ka network.attr_slip132_p2wpkh_p2sh_prv);
        [cbn [In]; tauto | reflexivity].
    - apply (Ka network.attr_slip132_p2wpkh_prv);
        [cbn [In]; tauto | reflexivity].
    - apply (Ka network.attr_slip132_p2wsh_prv);
        [cbn [In]; tauto | reflexivity].
    - apply (Ka network.attr_bip32_pub); [cbn [In]; tauto | reflexivity].
    - apply (Ka network.attr_slip132_p2wsh_p2sh_pub);
        [cbn [In]; tauto | reflexivity].
    - apply (Ka network.attr_slip132_p2wpkh_p2sh_pub);
        [cbn [In]; tauto | reflexivity].
    - apply (Ka network.attr_slip132_p2wpkh_pub);
        [cbn [In]; tauto | reflexivity].
    - apply (Ka network.attr_slip132_p2wsh_pub);
        [cbn [In]; tauto | reflexivity]. }
  split; [reflexivity|]. split; [reflexivity|]. split; [reflexivity|].
  split; [reflexivity|]. split; [reflexivity|]. split; [reflexivity|].
  intros Hm Ht v Hin.
  apply in_app_or in Hin. destruct Hin as [Hin|Hin];
    apply in_app_or in Hin; destruct Hin as [Hin|Hin];
    try (apply in_app_or in Hin; destruct Hin as [Hin|Hin]);
    first [ apply (H4 mainnet Hm v); tauto | apply (H4 testnet Ht v); tauto ].
Qed.

Lemma item_repeated (a b c : list byte) (i : nat) :
  network.item (repeat a 5 ++ repeat b 5 ++ repeat c 5) i
  = if (i <? 5)%nat then Returned a
    else if (i <? 10)%nat then Returned b
    else if (i <? 15)%nat then Returned c
    else Failed network.OutOfRange.
Proof.
  do 15 (destruct i as [|i]; [reflexivity|]).
  unfold network.item. cbn [repeat app nth_error].
  now destruct i.
Qed.

Lemma index_of_table (v : bytes) (m t : list bytes) :
  length m = 5%nat -> length t = 5%nat ->
  (In v m -> exists i, index_of v (m ++ t ++ t) = Some i /\ (i < 5)%nat)
  /\ (~ In v m -> In v t ->
      exists i, index_of v (m ++ t ++ t) = Some i /\ (5 <= i < 10)%nat)
  /\ (~ In v m -> ~ In v t -> index_of v (m ++ t ++ t) = None).
Proof.
  intros Hm Ht. rewrite !index_of_app. splits.
  - intros Hin. destruct (index_of_In v m Hin) as (i & -> & Hi).
    exists i. split; [reflexivity|lia].
  - intros Hn Hin. rewrite (index_of_None v m Hn).
    destruct (index_of_In v t Hin) as (i & -> & Hi).
    cbn [option_map]. eexists. split; [reflexivity|lia].
  - intros Hn Hn'. now rewrite (index_of_None v m Hn), (index_of_None v t Hn').
Qed.

(** X14 — The network of a version tag: [network_from_xkeyversion] looks
    the tag up in the table of private versions and, when it is not there,
    in that of public versions.  It returns [mainnet] for a tag of mainnet,
    [testnet] for a tag of testnet that mainnet does not have, and fails
    with the error of [list.index] for any other tag; it never returns
    [regtest] and never indexes the table of networks out of range.
    [curve_from_xkeyversion] returns the curve of the network found and
    fails when none is. *)
Theorem network_from_xkeyversion_table (v : bytes) :
  let prv := fun net : network.Network Curve =>
    [network.bip32_prv net; network.slip132_p2wsh_p2sh_prv net;
     network.slip132_p2wpkh_p2sh_prv net; network.slip132_p2wpkh_prv net;
     network.slip132_p2wsh_prv net] in
  let pub := fun net : network.Network Curve =>
    [network.bip32_pub net; network.slip132_p2wsh_p2sh_pub net;
     network.slip132_p2wpkh_p2sh_pub net; network.slip132_p2wpkh_pub net;
     network.slip132_p2wsh_pub net] in
  let result := network.network_from_xkeyversion mainnet testnet regtest v in
  let main := Returned ["m"; "a"; "i"; "n"; "n"; "e"; "t"]%byte in
  let test := Returned ["t"; "e"; "s"; "t"; "n"; "e"; "t"]%byte in
  (In v (prv mainnet) -> result = main)
  /\ (~ In v (prv mainnet) -> In v (prv testnet) -> result = test)
  /\ (~ In v (prv mainnet ++ prv testnet) ->
      (In v (pub mainnet) -> result = main)
      /\ (~ In v (pub mainnet) -> In v (pub testnet) -> result = test)
      /\ (~ In v (pub mainnet ++ pub testnet) ->
          result = Failed network.NotInList))
  /\ result <> Returned ["r"; "e"; "g"; "t"; "e"; "s"; "t"]%byte
  /\ result <> Failed network.OutOfRange
  /\ (let curve :=
        network.curve_from_xkeyversion mainnet testnet regtest v in
      (result = main -> curve = Returned (network.curve mainnet))
      /\ (result = test -> curve = Returned (network.curve testnet))
      /\ (forall e, result = Failed e -> curve = Failed e)).
Proof.
  intros prv pub result main test.
  assert (Hres : result
            = (index <-- match index_of v (prv mainnet ++ prv testnet
                                           ++ prv testnet) with
                         | Some i => Returned i
                         | None =>
                             match index_of v (pub mainnet ++ pub testnet
                                               ++ pub testnet) with
                             | Some i => Returned i
                             | None => Failed network.NotInList
                             end
                         end ;;
               network.item
                 (repeat ["m"; "a"; "i"; "n"; "n"; "e"; "t"]%byte 5
                  ++ repeat ["t"; "e"; "s"; "t"; "n"; "e"; "t"]%byte 5
                  ++ repeat ["r"; "e"; "g"; "t"; "e"; "s"; "t"]%byte 5)
                 index)) by reflexivity.
  destruct (index_of_table v (prv mainnet) (prv testnet) eq_refl eq_refl)
    as (P1 & P2 & P3).
  destruct (index_of_table v (pub mainnet) (pub testnet) eq_refl eq_refl)
    as (Q1 & Q2 & Q3).
  assert (Hlow : forall i, (i < 5)%nat ->
            network.item
              (repeat ["m"; "a"; "i"; "n"; "n"; "e"; "t"]%byte 5
               ++ repeat ["t"; "e"; "s"; "t"; "n"; "e"; "t"]%byte 5
               ++ repeat ["r"; "e"; "g"; "t"; "e"; "s"; "t"]%byte 5) i
            = main).
  { intros i Hi. rewrite item_repeated.
    now replace (i <? 5)%nat with true by (symmetry; apply Nat.ltb_lt; lia). }
  assert (Hmid : forall i, (5 <= i < 10)%nat ->
            network.item
              (repeat ["m"; "a"; "i"; "n"; "n"; "e"; "t"]%byte 5
               ++ repeat ["t"; "e"; "s"; "t"; "n"; "e"; "t"]%byte 5
               ++ repeat ["r"; "e"; "g"; "t"; "e"; "s"; "t"]%byte 5) i
            = test).
  { intros i Hi. rewrite item_repeated.
    replace (i <? 5)%nat with false by (symmetry; apply Nat.ltb_ge; lia).
    now replace (i <? 10)%nat with true
      by (symmetry; apply Nat.ltb_lt; lia). }
  assert (H1 : In v (prv mainnet) -> result = main).
  { intros Hin. destruct (P1 Hin) as (i & Hi & Hlt).
    rewrite Hres, Hi. cbn [obind]. now apply Hlow. }
  assert (H2 : ~ In v (prv mainnet) -> In v (prv testnet) -> result = test).
  { intros Hn Hin. destruct (P2 Hn Hin) as (i & Hi & Hlt).
    rewrite Hres, Hi. cbn [obind]. now apply Hmid. }
  assert (Hsplit : forall a b : list bytes,
            ~ In v (a ++ b) -> ~ In v a /\ ~ In v b).
  { intros a b Hn. split; intros X; apply Hn; apply in_or_app;
      [left|right]; exact X. }
  assert (H3 : ~ In v (prv mainnet ++ prv testnet) ->
               In v (pub mainnet) -> result = main).
  { intros Hn Hin. destruct (Q1 Hin) as (i & Hi & Hlt).
    destruct (Hsplit _ _ Hn) as [Ha Hb].
    rewrite Hres, (P3 Ha Hb), Hi. cbn [obind]. now apply Hlow. }
  assert (H4 : ~ In v (prv mainnet ++ prv testnet) ->
               ~ In v (pub mainnet) -> In v (pub testnet) -> result = test).
  { intros Hn Hn' Hin. destruct (Q2 Hn' Hin) as (i & Hi & Hlt).
    destruct (Hsplit _ _ Hn) as [Ha Hb].
    rewrite Hres, (P3 Ha Hb), Hi. cbn [obind]. now apply Hmid. }
  assert (H5 : ~ In v (prv mainnet ++ prv testnet) ->
               ~ In v (pub mainnet ++ pub testnet) ->
               result = Failed network.NotInList).
  { intros Hn Hn'.
    destruct (Hsplit _ _ Hn) as [Ha Hb].
    destruct (Hsplit _ _ Hn') as [Ha' Hb'].
    rewrite Hres, (P3 Ha Hb), (Q3 Ha' Hb'). reflexivity. }
  assert (Hcases : result = main \/ result = test
                   \/ result = Failed network.NotInList).
  { assert (D : forall l : list bytes, In v l \/ ~ In v l).
    { intros l. destruct (mem v l) eqn:E; [left|right].
      - now apply mem_In.
      - now apply mem_not_In. }
    assert (Hjoin : forall a b : list bytes,
              ~ In v a -> ~ In v b -> ~ In v (a ++ b)).
    { intros a b Ha Hb X. apply in_app_or in X.
      destruct X as [X|X]; [exact (Ha X) | exact (Hb X)]. }
    destruct (D (prv mainnet)) as [A|A]; [left; exact (H1 A)|].
    destruct (D (prv testnet)) as [B|B]; [right; left; exact (H2 A B)|].
    pose proof (Hjoin _ _ A B) as AB.
    destruct (D (pub mainnet)) as [A'|A']; [left; exact (H3 AB A')|].
    destruct (D (pub testnet)) as [B'|B'];
      [right; left; exact (H4 AB A' B')|].
    right. right. exact (H5 AB (Hjoin _ _ A' B')). }
  split; [exact H1|]. split; [exact H2|]. split.
  - intros Hn. split; [exact (H3 Hn)|]. split; [exact (H4 Hn) | exact (H5 Hn)].
  - assert (Hnot : result <> Returned ["r"; "e"; "g"; "t"; "e"; "s"; "t"]%byte
                   /\ result <> Failed network.OutOfRange).
    { clear -Hcases.
      split; destruct Hcases as [-> |[-> | ->]]; subst main test;
        discriminate. }
    split; [exact (proj1 Hnot)|]. split; [exact (proj2 Hnot)|].
    intros curve. subst curve. unfold network.curve_from_xkeyversion.
    change (network.network_from_xkeyversion mainnet testnet regtest v)
      with result.
    split; [|split].
    + intros ->. reflexivity.
    + intros ->. reflexivity.
    + intros e ->. reflexivity.
Qed.

(** X15 — Names of networks: [xprvversions_from_network] and
    [xpubversions_from_network] strip and lower the name before they look
    it up, so that blanks around the name and the case of its letters do
    not count; they return the five tags of the network (BIP32, P2WSH-P2SH,
    P2WPKH-P2SH, P2WPKH, P2WSH) for the names of mainnet, testnet and
    regtest and fail with a [KeyError] for any other name. *)
Theorem versions_from_network_names (name : list byte) :
  let prv := fun net : network.Network Curve =>
    [network.bip32_prv net; network.slip132_p2wsh_p2sh_prv net;
     network.slip132_p2wpkh_p2sh_prv net; network.slip132_p2wpkh_prv net;
     network.slip132_p2wsh_prv net] in
  let pub := fun net : network.Network Curve =>
    [network.bip32_pub net; network.slip132_p2wsh_p2sh_pub net;
     network.slip132_p2wpkh_p2sh_pub net; network.slip132_p2wpkh_pub net;
     network.slip132_p2wsh_pub net] in
  let xprv := network.xprvversions_from_network mainnet testnet regtest in
  let xpub := network.xpubversions_from_network mainnet testnet regtest in
  (forall pre post other,
     forallb is_space pre = true -> forallb is_space post = true ->
     network.lower other = network.lower name ->
     xprv (pre ++ other ++ post) = xprv name
     /\ xpub (pre ++ other ++ post) = xpub name)
  /\ (forall net,
        In (network.lower (strip name), net)
          (network.NETWORKS mainnet testnet regtest) ->
        xprv name = Returned (prv net) /\ xpub name = Returned (pub net))
  /\ (~ In (network.lower (strip name))
          (network._NETWORKS mainnet testnet regtest) ->
      xprv name = Failed network.KeyError
      /\ xpub name = Failed network.KeyError).
Proof.
  intros prv pub xprv xpub. splits.
  - intros pre post other Hpre Hpost Hl.
    assert (E : network.lower (strip (pre ++ other ++ post))
                = network.lower (strip name)).
    { rewrite (strip_blanks pre other post Hpre Hpost).
      now rewrite <- !strip_lower, Hl. }
    subst xprv xpub.
    unfold network.xprvversions_from_network,
      network.xpubversions_from_network.
    cbv zeta. rewrite E. split; reflexivity.
  - intros net Hin. subst xprv xpub.
    unfold network.xprvversions_from_network,
      network.xpubversions_from_network, network.NETWORKS in *.
    cbv zeta. cbn [In] in Hin.
    destruct Hin as [Hin|[Hin|[Hin|[]]]]; inversion Hin as [[Hn Hv]];
      cbn [network.lookup bytes_eqb byte_eqb Byte.eqb andb obind];
      split; reflexivity.
  - intros Hn. subst xprv xpub.
    unfold network.xprvversions_from_network,
      network.xpubversions_from_network, network._NETWORKS,
      network.NETWORKS in *.
    cbv zeta. cbn [map fst In] in Hn.
    cbn [network.lookup].
    destruct (bytes_eqb _ (network.lower (strip name))) eqn:E1;
      [apply bytes_eqb_eq in E1; tauto|].
    destruct (bytes_eqb _ (network.lower (strip name))) eqn:E2 in |- *;
      [apply bytes_eqb_eq in E2; tauto|].
    destruct (bytes_eqb _ (network.lower (strip name))) eqn:E3 in |- *;
      [apply bytes_eqb_eq in E3; tauto|].
    split; reflexivity.
Qed.

End NetworkFacts.

(** *** Instances: the networks of the examples *)

Lemma network_assert_valid_witness :
  network.assert_valid NetworkModel.regtest = Returned tt
  /\ length (network.slip132_p2wpkh_prv NetworkModel.regtest) = 4%nat.
Proof.
  assert (H : network.assert_valid NetworkModel.regtest = Returned tt)
    by reflexivity.
  split; [exact H|].
  destruct (proj1 (proj2 (network_assert_valid NetworkModel.regtest)) H)
    as (_ & _ & _ & _ & _ & K).
  apply (K network.attr_slip132_p2wpkh_prv). cbn [In]. tauto.
Defined.

(** The tables of the model of the collaborators are those that the module
    builds from these networks. *)
Lemma version_tables_witness :
  network.XPRV_VERSIONS_ALL NetworkModel.mainnet NetworkModel.testnet
    NetworkModel.regtest
  = Returned (@_XPRV_VERSIONS_ALL Model.collaborators)
  /\ network.XPUB_VERSIONS_ALL NetworkModel.mainnet NetworkModel.testnet
       NetworkModel.regtest
     = Returned (@_XPUB_VERSIONS_ALL Model.collaborators)
  /\ (forall v, In v (@_XPRV_VERSIONS_ALL Model.collaborators
                      ++ @_XPUB_VERSIONS_ALL Model.collaborators) ->
                length v = 4%nat).
Proof.
  pose proof (version_tables NetworkModel.mainnet NetworkModel.testnet
                NetworkModel.regtest) as (H1 & H2 & _ & _ & _ & _ & H4).
  split; [exact H1|]. split; [exact H2|].
  exact (H4 eq_refl eq_refl).
Defined.

Lemma network_from_xkeyversion_table_witness :
  network.network_from_xkeyversion NetworkModel.mainnet NetworkModel.testnet
    NetworkModel.regtest [x04; x5f; x18; xbc]
  = Returned ["t"; "e"; "s"; "t"; "n"; "e"; "t"]%byte.
Proof.
  refine (proj1 (proj2 (network_from_xkeyversion_table NetworkModel.mainnet
                          NetworkModel.testnet NetworkModel.regtest
                          [x04; x5f; x18; xbc])) _ _).
  - intros H. cbn in H.
    repeat (destruct H as [H|H]; [discriminate|]). exact H.
  - cbn. tauto.
Defined.

Lemma versions_from_network_names_witness :
  network.xprvversions_from_network NetworkModel.mainnet
    NetworkModel.testnet NetworkModel.regtest
    ([x20] ++ ["T"; "e"; "s"; "t"; "N"; "E"; "T"]%byte ++ [x0a])
  = network.xprvversions_from_network NetworkModel.mainnet
      NetworkModel.testnet NetworkModel.regtest
      ["t"; "e"; "s"; "t"; "n"; "e"; "t"]%byte.
Proof.
  exact (proj1 (proj1 (versions_from_network_names NetworkModel.mainnet
                         NetworkModel.testnet NetworkModel.regtest
                         ["t"; "e"; "s"; "t"; "n"; "e"; "t"]%byte)
                  [x20] [x0a] ["T"; "e"; "s"; "t"; "N"; "E"; "T"]%byte
                  eq_refl eq_refl eq_refl)).
Defined.

(** ** The master key of an Electrum mnemonic *)

Section ElectrumFacts.

Context {C : Collaborators} (L : Laws C).
Variable Mnemonic : Type.
Variable _seed_from_mnemonic :
  Mnemonic -> list byte -> result (list byte * bytes).
Variable _NETWORKS : list (list byte).
Variables _XPRV_PREFIXES _P2WPKH_PRV_PREFIXES : list bytes.
Variable int_path : Z -> BIP32DerPath.

(** The key that [_rootxprv_from_seed] returns is a valid private key of
    depth 0. *)
Lemma root_key_valid (seed ver : String) (root : BIP32KeyData) :
  _rootxprv_from_seed seed ver = Ok root ->
  valid_xprv root /\ depth root = 0.
Proof.
  intros H. unfold _rootxprv_from_seed in H.
  apply bind_Ok in H. destruct H as (sb & _ & H).
  do 2 inv_raise H.
  apply bind_Ok in H. destruct H as (v & _ & H). inv_raise H. b2p.
  apply new_BIP32KeyData_inv in H. destruct H as [-> Hval].
  split; [|reflexivity]. split; assumption.
Qed.

(** X16 — The master key of an Electrum mnemonic: a key is returned only
    for a network of the list and a mnemonic of version "standard" or
    "segwit".  For "standard" the result is that of [_rootxprv_from_seed]
    on the seed with the network's entry of [_XPRV_PREFIXES]: the root key,
    at depth 0 with index 0.  For "segwit", with [root] the root key of
    the seed for the network's entry of [_P2WPKH_PRV_PREFIXES], the key
    returned is the private child of [root] at the hardened index
    0x80000000 (the path "m/0h"), the key that [_derive] gives from [root]:
    the version of [root], depth 1, the first 4 bytes of the hash160 of the
    public point of [root] as parent fingerprint, index 0x80000000, and,
    with [IL] and [IR] the halves of HMAC-SHA512 keyed by the chain code of
    [root] on its key bytes followed by the index, chain code [IR] and key
    bytes 0x00 followed by [(q + int(IL)) mod n], [q] being the scalar of
    [root]; and this key is returned whenever the root key is.  Any other
    version of mnemonic, on a known network, fails with the
    unmanaged-version error. *)
Theorem electrum_master_key (mnemonic : Mnemonic)
    (passphrase : option (list byte)) (network : list byte) :
  let result :=
    _mxprv_from_electrum_mnemonic Mnemonic _seed_from_mnemonic _NETWORKS
      _XPRV_PREFIXES _P2WPKH_PRV_PREFIXES int_path mnemonic passphrase
      network in
  indexes_from_bip32_path (int_path 0x80000000) = Ok [0x80000000] ->
  (forall k, result = Returned k ->
     exists ver seed i,
       _seed_from_mnemonic mnemonic (or_empty passphrase)
       = Ok (ver, seed)
       /\ index_of network _NETWORKS = Some i
       /\ ((ver = ["s"; "t"; "a"; "n"; "d"; "a"; "r"; "d"]%byte
            /\ exists xversion,
                 nth_error _XPRV_PREFIXES i = Some xversion
                 /\ _rootxprv_from_seed (PyBytes seed) (PyBytes xversion)
                    = Ok k
                 /\ depth k = 0 /\ index k = 0)
           \/ (ver = ["s"; "e"; "g"; "w"; "i"; "t"]%byte
               /\ exists xversion root Q_bytes,
                    nth_error _P2WPKH_PRV_PREFIXES i = Some xversion
                    /\ _rootxprv_from_seed (PyBytes seed) (PyBytes xversion)
                       = Ok root
                    /\ depth root = 0
                    /\ bytes_from_point (mult (from_bytes (tl (key root))))
                       = Ok Q_bytes
                    /\ (let hmac_ :=
                          hmac_sha512 (chain_code root)
                            (key root ++ be_bytes 4 0x80000000) in
                        k = mkBIP32KeyData (version root) 1
                              (firstn 4 (hash160 Q_bytes)) 0x80000000
                              (skipn 32 hmac_)
                              (x00 :: be_bytes 32
                                        ((from_bytes (tl (key root))
                                          + from_bytes (firstn 32 hmac_))
                                         mod ec_n)))
                    /\ (exists xk,
                          _derive (KeyData root) (int_path 0x80000000) None
                          = Ok xk
                          /\ xdata xk = k)
                    /\ depth k = 1 /\ index k = 0x80000000
                    /\ version k = version root
                    /\ byte0 (key k) = Ok 0)))
  /\ (forall ver seed i,
        _seed_from_mnemonic mnemonic (or_empty passphrase)
        = Ok (ver, seed) ->
        index_of network _NETWORKS = Some i ->
        ver <> ["s"; "t"; "a"; "n"; "d"; "a"; "r"; "d"]%byte ->
        ver <> ["s"; "e"; "g"; "w"; "i"; "t"]%byte ->
        result = Failed UnmanagedElectrumVersion)
  /\ (forall seed i xversion,
        _seed_from_mnemonic mnemonic (or_empty passphrase)
        = Ok (["s"; "t"; "a"; "n"; "d"; "a"; "r"; "d"]%byte, seed) ->
        index_of network _NETWORKS = Some i ->
        nth_error _XPRV_PREFIXES i = Some xversion ->
        result = lift (_rootxprv_from_seed (PyBytes seed)
                         (PyBytes xversion)))
  /\ (forall seed i xversion root,
        _seed_from_mnemonic mnemonic (or_empty passphrase)
        = Ok (["s"; "e"; "g"; "w"; "i"; "t"]%byte, seed) ->
        index_of network _NETWORKS = Some i ->
        nth_error _P2WPKH_PRV_PREFIXES i = Some xversion ->
        _rootxprv_from_seed (PyBytes seed) (PyBytes xversion) = Ok root ->
        exists Q_bytes,
          bytes_from_point (mult (from_bytes (tl (key root)))) = Ok Q_bytes
          /\ result = Returned (prv_child root 0x80000000 Q_bytes)).
Proof.
  intros result Hpath. subst result. unfold _mxprv_from_electrum_mnemonic.
  assert (Hstep : forall x root Q_bytes,
            key_data x = Ok root -> valid_xprv root -> depth root = 0 ->
            bytes_from_point (mult (from_bytes (tl (key root))))
            = Ok Q_bytes ->
            _derive x (int_path 0x80000000) None
            = Ok (mkExtended (prv_child root 0x80000000 Q_bytes)
                    ((from_bytes (tl (key root))
                      + from_bytes
                          (firstn 32 (prv_digest root 0x80000000 Q_bytes)))
                     mod ec_n) INF)).
  { intros x root Q_bytes Hx Hvalid Hdepth HQ.
    apply (_derive_prv_step L x root _ 0x80000000 Q_bytes);
      try assumption; lia. }
  split; [|split; [|split]].
  - intros k H.
    apply obind_Returned in H. destruct H as ([ver seed] & Hs & H).
    apply lift_Returned in Hs.
    apply obind_Returned in H. destruct H as (i & Hi & H).
    destruct (index_of network _NETWORKS) as [i'|]; [|discriminate].
    assert (i' = i) by congruence. subst i'.
    exists ver, seed, i. split; [exact Hs|]. split; [reflexivity|].
    destruct (bytes_eqb ver _) eqn:E1.
    + apply bytes_eqb_eq in E1. left. split; [exact E1|].
      apply obind_Returned in H. destruct H as (xv & Hxv & H).
      destruct (nth_error _XPRV_PREFIXES i) as [xv'|]; [|discriminate].
      assert (xv' = xv) by congruence. subst xv'.
      apply lift_Returned in H. exists xv.
      split; [reflexivity|]. split; [exact H|].
      unfold _rootxprv_from_seed in H.
      apply bind_Ok in H. destruct H as (sb & _ & H).
      do 2 inv_raise H.
      apply bind_Ok in H. destruct H as (v & _ & H). inv_raise H.
      apply new_BIP32KeyData_inv in H. destruct H as [-> _].
      split; reflexivity.
    + destruct (bytes_eqb ver _) eqn:E2 in H; [|discriminate].
      apply bytes_eqb_eq in E2. right. split; [exact E2|].
      apply obind_Returned in H. destruct H as (xv & Hxv & H).
      destruct (nth_error _P2WPKH_PRV_PREFIXES i) as [xv'|];
        [|discriminate].
      assert (xv' = xv) by congruence. subst xv'.
      apply obind_Returned in H. destruct H as (s & Hroot & H).
      apply lift_Returned in Hroot.
      apply obind_Returned in H. destruct H as (xk & Hd & H).
      apply lift_Returned in Hd. assert (k = xdata xk) by congruence.
      subst k. clear H.
      unfold rootxprv_from_seed in Hroot.
      apply bind_Ok in Hroot. destruct Hroot as (root & Hroot & Hs').
      apply (b58encode_str_inv L) in Hs'. destruct Hs' as [Hinv ->].
      destruct (root_key_valid _ _ _ Hroot) as [Hvalid Hdepth].
      destruct (_xpub_from_xprv_valid L (KeyData root) root eq_refl Hvalid)
        as (_ & _ & Q_bytes & _ & _ & HQ & _).
      rewrite (Hstep (KeyStr (PyStr (base58_b58encode (wire root)))) root
                 Q_bytes (b58decode_str_wire L root true Hinv) Hvalid
                 Hdepth HQ) in Hd.
      apply Ok_inj in Hd. subst xk. cbn [xdata].
      exists xv, root, Q_bytes.
      split; [reflexivity|]. split; [exact Hroot|].
      split; [exact Hdepth|]. split; [exact HQ|].
      split.
      { cbv zeta. unfold prv_child, prv_digest. rewrite Hdepth.
        reflexivity. }
      split.
      { eexists. split; [now apply (Hstep (KeyData root) root Q_bytes)|].
        reflexivity. }
      unfold prv_child.
      cbn [version depth parent_fingerprint index chain_code key byte0].
      rewrite Hdepth. splits; reflexivity.
  - intros ver seed i Hs Hi H1 H2. rewrite Hs. cbn [lift obind].
    rewrite Hi. cbn [obind].
    replace (bytes_eqb ver ["s"; "t"; "a"; "n"; "d"; "a"; "r"; "d"]%byte)
      with false by (symmetry; now apply bytes_eqb_neq).
    replace (bytes_eqb ver ["s"; "e"; "g"; "w"; "i"; "t"]%byte)
      with false by (symmetry; now apply bytes_eqb_neq).
    reflexivity.
  - intros seed i xv Hs Hi Hxv. rewrite Hs. cbn [lift obind].
    rewrite Hi. cbn [obind]. rewrite bytes_eqb_refl, Hxv. reflexivity.
  - intros seed i xv root Hs Hi Hxv Hroot. rewrite Hs. cbn [lift obind].
    rewrite Hi. cbn [obind].
    replace (bytes_eqb ["s"; "e"; "g"; "w"; "i"; "t"]%byte
               ["s"; "t"; "a"; "n"; "d"; "a"; "r"; "d"]%byte)
      with false by reflexivity.
    rewrite bytes_eqb_refl, Hxv. cbn [obind].
    destruct (root_key_valid _ _ _ Hroot) as [Hvalid Hdepth].
    destruct (valid_xprv_facts L root Hvalid) as (Hinv & _).
    destruct (_xpub_from_xprv_valid L (KeyData root) root eq_refl Hvalid)
      as (_ & _ & Q_bytes & _ & _ & HQ & _).
    exists Q_bytes. split; [exact HQ|].
    unfold rootxprv_from_seed. rewrite Hroot. cbn [bind].
    rewrite (b58encode_str_wire L root Hinv). cbn [lift obind].
    rewrite (Hstep (KeyStr (PyStr (base58_b58encode (wire root)))) root
               Q_bytes (b58decode_str_wire L root true Hinv) Hvalid Hdepth
               HQ).
    reflexivity.
Qed.

End ElectrumFacts.

Lemma electrum_master_key_witness :
  exists root Q_bytes,
    _rootxprv_from_seed (C := Model.collaborators) (PyBytes Model.seed)
      (PyBytes [x04; xb2; x43; x0c]) = Ok root
    /\ _mxprv_from_electrum_mnemonic (C := Model.collaborators) bool
         AccountModel._seed_from_mnemonic AccountModel._NETWORKS
         AccountModel._XPRV_PREFIXES AccountModel._P2WPKH_PRV_PREFIXES
         AccountModel.int_path true None
         ["m"; "a"; "i"; "n"; "n"; "e"; "t"]%byte
       = Returned (prv_child (C := Model.collaborators) root 0x80000000
                     Q_bytes).
Proof.
  assert (H : exists root,
            _rootxprv_from_seed (C := Model.collaborators)
              (PyBytes Model.seed) (PyBytes [x04; xb2; x43; x0c]) = Ok root)
    by (eexists; vm_compute; reflexivity).
  destruct H as [root Hroot].
  destruct (proj2 (proj2 (proj2
              (electrum_master_key model_laws bool
                 AccountModel._seed_from_mnemonic AccountModel._NETWORKS
                 AccountModel._XPRV_PREFIXES
                 AccountModel._P2WPKH_PRV_PREFIXES AccountModel.int_path
                 true None ["m"; "a"; "i"; "n"; "n"; "e"; "t"]%byte
                 eq_refl)))
              Model.seed 0%nat [x04; xb2; x43; x0c] root eq_refl eq_refl
              eq_refl Hroot) as (Q_bytes & _ & Hres).
  exists root, Q_bytes. split; [exact Hroot | exact Hres].
Defined.

(** ** Blocks *)

Section HeaderFlags.

Context {Time : Type}.

Lemma shiftr_29 (v : Z) : Z.shiftr v 29 = 1 <-> 2 ^ 29 <= v < 2 ^ 30.
Proof.
  rewrite Z.shiftr_div_pow2 by lia.
  change (2 ^ 29) with 536870912. change (2 ^ 30) with 1073741824.
  pose proof (Z.div_mod v 536870912 ltac:(lia)) as H.
  pose proof (Z.mod_pos_bound v 536870912 ltac:(lia)) as Hm.
  split; intros Hv.
  - rewrite Hv in H. lia.
  - symmetry. apply Z.div_unique with (r := v - 536870912); lia.
Qed.

Lemma land_shiftr_bit (v n : Z) :
  0 <= n -> (Z.land (Z.shiftr v n) 1 =? 1) = Z.testbit v n.
Proof.
  intros Hn. change 1 with (Z.ones 1) at 1. rewrite Z.land_ones by lia.
  change (2 ^ 1) with 2. rewrite <- Z.bit0_mod, Z.shiftr_spec by lia.
  rewrite Z.add_0_l. now destruct (Z.testbit v n).
Qed.

(** X17 — The signalling flags of a block header: [bip9] holds exactly for
    the versions from 2^29 to 2^30 - 1 (top three of 32 bits equal to 001),
    [bip141] exactly when moreover bit 1 of the version is set and [bip91]
    exactly when moreover bit 4 is set too; so [bip91] implies [bip141],
    which implies [bip9], and no negative version and no version of more
    than 30 bits signals anything. *)
Theorem header_flags (self : blocks.BlockHeader Time) :
  let v := blocks.version self in
  (blocks.bip9 self = true <-> 2 ^ 29 <= v < 2 ^ 30)
  /\ (blocks.bip141 self = true
      <-> 2 ^ 29 <= v < 2 ^ 30 /\ Z.testbit v 1 = true)
  /\ (blocks.bip91 self = true
      <-> 2 ^ 29 <= v < 2 ^ 30 /\ Z.testbit v 1 = true
          /\ Z.testbit v 4 = true)
  /\ (blocks.bip91 self = true -> blocks.bip141 self = true)
  /\ (blocks.bip141 self = true -> blocks.bip9 self = true).
Proof.
  intros v. unfold blocks.bip91, blocks.bip141, blocks.bip9. fold v.
  rewrite !land_shiftr_bit by lia.
  rewrite !andb_true_iff, Z.eqb_eq, shiftr_29.
  splits; tauto.
Qed.

End HeaderFlags.

Section MerkleFacts.

Variable hash256 : bytes -> bytes.
Variable Tx : Type.
Variable txid : Tx -> bytes.

Lemma pair_hashes_length (n : nat) (hashes : list bytes) :
  (length hashes <= n)%nat ->
  length (blocks.pair_hashes hash256 hashes) = (length hashes / 2)%nat.
Proof.
  revert hashes. induction n as [|n IH]; intros hashes Hn.
  - destruct hashes; [reflexivity | cbn [length] in Hn; lia].
  - destruct hashes as [|a [|b rest]]; try reflexivity.
    cbn [blocks.pair_hashes length].
    rewrite IH by (cbn [length] in Hn; lia).
    change (S (S (length rest))) with (2 + length rest)%nat.
    replace (2 + length rest)%nat with (length rest + 1 * 2)%nat by lia.
    rewrite Nat.div_add by lia. lia.
Qed.

Lemma rounds_one (fuel : nat) (h : bytes) :
  blocks.rounds hash256 fuel [h] = Some [h].
Proof. destruct fuel; reflexivity. Qed.

Lemma rounds_empty (fuel : nat) : blocks.rounds hash256 fuel [] = None.
Proof. induction fuel as [|fuel IH]; [reflexivity | exact IH]. Qed.

Lemma rounds_step (fuel : nat) (hashes : list bytes) :
  length hashes <> 1%nat ->
  blocks.rounds hash256 (S fuel) hashes
  = blocks.rounds hash256 fuel
      (blocks.pair_hashes hash256
         (if negb (length hashes mod 2 =? 0)%nat
          then hashes ++ [last hashes []] else hashes)).
Proof.
  intros H. cbn [blocks.rounds].
  now replace (length hashes =? 1)%nat with false
    by (symmetry; now apply Nat.eqb_neq).
Qed.

Lemma rounds_terminate (fuel : nat) (hashes : list bytes) :
  hashes <> [] -> (length hashes <= S fuel)%nat ->
  exists h, blocks.rounds hash256 fuel hashes = Some [h].
Proof.
  revert hashes. induction fuel as [|fuel IH]; intros hashes Hne Hlen.
  - destruct hashes as [|h [|]]; [congruence | | cbn [length] in Hlen; lia].
    exists h. reflexivity.
  - destruct (Nat.eq_dec (length hashes) 1) as [E|E].
    + destruct hashes as [|h [|]]; try discriminate.
      exists h. apply rounds_one.
    + rewrite rounds_step by exact E.
      assert (Hl : (2 <= length hashes)%nat).
      { destruct hashes as [|? [|]]; [congruence | cbn in E; lia |].
        cbn [length]. lia. }
      pose proof (Nat.div_mod_eq (length hashes) 2) as Hdm.
      pose proof (Nat.mod_upper_bound (length hashes) 2) as Hub.
      apply IH.
      * intros Hnil. apply (f_equal (@length bytes)) in Hnil.
        rewrite (pair_hashes_length _ _ (Nat.le_refl _)) in Hnil.
        destruct (length hashes mod 2 =? 0)%nat eqn:Ev; cbn [negb] in Hnil;
          rewrite ?length_app in Hnil; cbn [length] in Hnil.
        -- assert (1 <= length hashes / 2)%nat
             by (apply Nat.div_le_lower_bound; lia). lia.
        -- assert (1 <= (length hashes + 1) / 2)%nat
             by (apply Nat.div_le_lower_bound; lia). lia.
      * rewrite (pair_hashes_length _ _ (Nat.le_refl _)).
        destruct (length hashes mod 2 =? 0)%nat eqn:Ev; cbn [negb];
          rewrite ?length_app; cbn [length].
        -- apply Nat.Div0.div_le_upper_bound. lia.
        -- apply Nat.eqb_neq in Ev.
           apply Nat.Div0.div_le_upper_bound. lia.
Qed.

Lemma rounds_more_fuel (fuel : nat) (hashes r : list bytes) :
  blocks.rounds hash256 fuel hashes = Some r ->
  blocks.rounds hash256 (S fuel) hashes = Some r.
Proof.
  revert hashes. induction fuel as [|fuel IH]; intros hashes H.
  - cbn [blocks.rounds] in *.
    destruct (length hashes =? 1)%nat; [exact H | discriminate].
  - destruct (Nat.eq_dec (length hashes) 1) as [E|E].
    + cbn [blocks.rounds] in *. rewrite E in *. exact H.
    + rewrite rounds_step in H by exact E.
      rewrite rounds_step by exact E. now apply IH.
Qed.

(** X18 — The loop of [merkle_root]: on a list that is not empty the loop
    ends, after at most as many rounds as there are transactions, and more
    rounds allowed change nothing; the root of one transaction is its
    [txid]; on the empty list the loop never ends, the length of the list
    staying 0 round after round. *)
Theorem merkle_root_loop :
  (forall transactions, transactions <> [] ->
     exists root,
       forall fuel, (length transactions <= S fuel)%nat ->
         blocks.merkle_root hash256 Tx txid fuel transactions = Some root)
  /\ (forall t fuel,
        blocks.merkle_root hash256 Tx txid fuel [t] = Some (txid t))
  /\ (forall fuel, blocks.merkle_root hash256 Tx txid fuel [] = None).
Proof.
  splits.
  - intros transactions Hne.
    set (hashes := map (fun t => rev (txid t)) transactions).
    assert (Hh : hashes <> [])
      by (subst hashes; destruct transactions; [congruence|discriminate]).
    assert (Hlen : length hashes = length transactions)
      by (subst hashes; apply length_map).
    assert (Hpos : (1 <= length transactions)%nat)
      by (destruct transactions; [congruence | cbn [length]; lia]).
    destruct (rounds_terminate (length transactions - 1) hashes Hh)
      as [h Hr]; [unfold bytes in *; lia|].
    exists (rev h). intros fuel Hf. unfold blocks.merkle_root. fold hashes.
    assert (Hmore : forall d,
              blocks.rounds hash256 (length transactions - 1 + d) hashes
              = Some [h]).
    { induction d as [|d IHd]; [now rewrite Nat.add_0_r|].
      rewrite Nat.add_succ_r. now apply rounds_more_fuel. }
    replace fuel
      with (length transactions - 1 + (fuel - (length transactions - 1)))%nat
      by lia.
    now rewrite Hmore.
  - intros t fuel. unfold blocks.merkle_root. cbn [map].
    rewrite rounds_one. cbn [hd]. now rewrite rev_involutive.
  - intros fuel. unfold blocks.merkle_root. cbn [map].
    now rewrite rounds_empty.
Qed.

(** X19 — The last transaction counted twice: a list of an odd number of
    transactions, three or more, has the Merkle root of the list with its
    last transaction repeated at the end; the loop pairs the last hash with
    itself. *)
Theorem merkle_root_duplicate (transactions : list Tx) (t : Tx)
    (fuel : nat) :
  (2 <= length transactions)%nat ->
  (length transactions mod 2 = 0)%nat ->
  blocks.merkle_root hash256 Tx txid fuel (transactions ++ [t; t])
  = blocks.merkle_root hash256 Tx txid fuel (transactions ++ [t]).
Proof.
  intros Hlen Hev. unfold blocks.merkle_root. rewrite !map_app. cbn [map].
  set (hs := map (fun x => rev (txid x)) transactions).
  set (h := rev (txid t)).
  assert (Hhs : length hs = length transactions)
    by (subst hs; apply length_map).
  assert (E : blocks.rounds hash256 fuel (hs ++ [h; h])
              = blocks.rounds hash256 fuel (hs ++ [h])); [|now rewrite E].
  destruct fuel as [|fuel].
  - cbn [blocks.rounds]. rewrite !length_app. cbn [length].
    replace (length hs + 2 =? 1)%nat with false
      by (symmetry; apply Nat.eqb_neq; lia).
    now replace (length hs + 1 =? 1)%nat with false
      by (symmetry; apply Nat.eqb_neq; lia).
  - rewrite !rounds_step by (rewrite length_app; cbn [length]; lia).
    rewrite !length_app. cbn [length].
    replace ((length hs + 2) mod 2 =? 0)%nat with true.
    + replace ((length hs + 1) mod 2 =? 0)%nat with false.
      * cbn [negb]. rewrite last_last, <- app_assoc. reflexivity.
      * symmetry. apply Nat.eqb_neq.
        rewrite Nat.Div0.add_mod, Hhs, Hev by lia. cbn. lia.
    + symmetry. apply Nat.eqb_eq.
      rewrite Nat.Div0.add_mod, Hhs, Hev by lia. reflexivity.
Qed.

End MerkleFacts.

(** *** Instances: a header that signals BIP141 and three transactions *)

Lemma header_flags_witness :
  blocks.bip141
    (blocks.mkBlockHeader unit 0x20000002 [] [] tt [] 0) = true
  /\ blocks.bip91
       (blocks.mkBlockHeader unit 0x20000002 [] [] tt [] 0) <> true.
Proof.
  pose proof (header_flags
                (blocks.mkBlockHeader unit 0x20000002 [] [] tt [] 0))
    as (_ & H141 & H91 & _).
  split.
  - apply (proj2 H141). cbn [blocks.version]. split; [lia | reflexivity].
  - intros H. apply (proj1 H91) in H. cbn [blocks.version] in H.
    destruct H as (_ & _ & H). discriminate.
Defined.

Lemma merkle_root_loop_witness :
  exists root,
    forall fuel, (3 <= S fuel)%nat ->
      blocks.merkle_root (Model.pad 32) bytes (fun t => t) fuel
        [[x01]; [x02]; [x03]] = Some root.
Proof.
  refine (proj1 (merkle_root_loop (Model.pad 32) bytes (fun t => t))
            [[x01]; [x02]; [x03]] _).
  discriminate.
Defined.

Lemma merkle_root_duplicate_witness :
  blocks.merkle_root (Model.pad 32) bytes (fun t => t) 3
    ([[x01]; [x02]] ++ [[x03]; [x03]])
  = blocks.merkle_root (Model.pad 32) bytes (fun t => t) 3
      ([[x01]; [x02]] ++ [[x03]]).
Proof.
  apply (merkle_root_duplicate (Model.pad 32) bytes (fun t => t)
           [[x01]; [x02]] [x03] 3).
  - cbn [length]. lia.
  - reflexivity.
Defined.

(** ** Wallet import format and addresses *)

Lemma obind_Failed {E A B} (r : outcome E A) (f : A -> outcome E B) (e : E) :
  r = Failed e -> obind r f = Failed e.
Proof. intros ->. reflexivity. Qed.

Section WifFacts.

Import wifaddress.

Context {lib : Library} (K : Contracts lib).

Lemma networks_index (network : list byte) (i : nat) :
  index_of network _NETWORKS = Some i ->
  (i = 0%nat /\ network = ["m"; "a"; "i"; "n"; "n"; "e"; "t"]%byte)
  \/ (i = 1%nat /\ network = ["t"; "e"; "s"; "t"; "n"; "e"; "t"]%byte)
  \/ (i = 2%nat /\ network = ["r"; "e"; "g"; "t"; "e"; "s"; "t"]%byte).
Proof.
  unfold _NETWORKS. cbn [index_of].
  destruct (bytes_eqb _ network) eqn:E0.
  { apply bytes_eqb_eq in E0. intros H. left. split; congruence. }
  destruct (bytes_eqb _ network) eqn:E1 in |- *.
  { apply bytes_eqb_eq in E1. intros H. right. left. cbn in H.
    split; congruence. }
  destruct (bytes_eqb _ network) eqn:E2 in |- *.
  { apply bytes_eqb_eq in E2. intros H. right. right. cbn in H.
    split; congruence. }
  discriminate.
Qed.

Lemma q_fits (q : Z) : 0 < q < n -> 0 <= q < 256 ^ Z.of_nat nsize.
Proof. pose proof n_range. lia. Qed.

(** The payload of a WIF read back: prefix [p], key [q], flag *)
Lemma wif_payload (p : byte) (q : Z) (compressed : bool) (i : nat) :
  0 < q < n ->
  index_of [p] _WIF_PREFIXES = Some i -> (i < 2)%nat ->
  forall net, nth_error _NETWORKS i = Some net ->
  prvkey_from_wif
    (PyBytes (encode (([p] ++ be_bytes nsize q)
                      ++ (if compressed then [x01] else []))))
  = Returned (q, compressed, net).
Proof.
  intros Hq Hi Hlt net Hnet. unfold prvkey_from_wif.
  cbn [stripped]. rewrite decode_encode. cbn [lift obind].
  cbn [app firstn]. unfold index. rewrite Hi. cbn [obind].
  assert (Hc : item _CURVES i = Returned tt).
  { unfold item, _CURVES. destruct i as [|[|]]; try reflexivity. lia. }
  rewrite Hc. cbn [obind].
  pose proof (be_bytes_length nsize q) as Hlen.
  pose proof (q_fits q Hq) as Hfit.
  assert (Hrange : negb ((0 <? q) && (q <? n)) = false).
  { apply negb_false_iff, andb_true_iff. split; apply Z.ltb_lt; lia. }
  destruct compressed.
  - cbn [length]. rewrite length_app, Hlen. cbn [length].
    replace (S (nsize + 1) =? nsize + 2)%nat with true
      by (symmetry; apply Nat.eqb_eq; lia).
    change (p :: be_bytes nsize q ++ [x01])
      with ((p :: be_bytes nsize q) ++ [x01]).
    rewrite last_last. change (Z_of_byte x01 =? 1) with true.
    cbn [negb skipn app].
    replace (S (nsize + 1) - 2)%nat with (nsize + 0)%nat by lia.
    rewrite <- Hlen at 1. rewrite firstn_app_2. cbn [firstn].
    rewrite app_nil_r, int_from_octets_bytes. cbn [lift obind].
    rewrite from_be_bytes by exact Hfit. rewrite Hrange.
    unfold item. rewrite Hnet. reflexivity.
  - rewrite app_nil_r. cbn [length]. rewrite Hlen.
    replace (S nsize =? nsize + 2)%nat with false
      by (symmetry; apply Nat.eqb_neq; lia).
    replace (S nsize =? nsize + 1)%nat with true
      by (symmetry; apply Nat.eqb_eq; lia).
    cbn [skipn]. rewrite int_from_octets_bytes. cbn [lift obind].
    rewrite from_be_bytes by exact Hfit. rewrite Hrange.
    unfold item. rewrite Hnet. reflexivity.
Qed.

(** X20 — The WIF round trip: for a network of the list and a private key
    [q] with [0 < q < n], given as an integer or as its [nsize] bytes,
    [wif_from_prvkey] returns a WIF that [prvkey_from_wif] reads back as
    the same key and the same compression flag; the network read back is
    [mainnet] for mainnet and [testnet] for testnet and for regtest, which
    has the prefix of testnet. *)
Theorem wif_round_trip (q : Z) (compressed : bool) (network : list byte)
    (i : nat) :
  index_of network _NETWORKS = Some i ->
  0 < q < n ->
  exists wif,
    wif_from_prvkey (KeyInt q) compressed network = Returned wif
    /\ wif_from_prvkey (KeyOctets (PyBytes (be_bytes nsize q))) compressed
         network = Returned wif
    /\ prvkey_from_wif (PyBytes wif)
       = Returned (q, compressed,
                   if (i =? 0)%nat
                   then ["m"; "a"; "i"; "n"; "n"; "e"; "t"]%byte
                   else ["t"; "e"; "s"; "t"; "n"; "e"; "t"]%byte).
Proof.
  intros Hi Hq. pose proof (q_fits q Hq) as Hfit.
  assert (Hrange : negb ((0 <? q) && (q <? n)) = false).
  { apply negb_false_iff, andb_true_iff. split; apply Z.ltb_lt; lia. }
  assert (Hw : forall p, item _WIF_PREFIXES i = Returned [p] ->
            wif_from_prvkey (KeyInt q) compressed network
            = Returned (encode (([p] ++ be_bytes nsize q)
                                ++ (if compressed then [x01] else [])))
            /\ wif_from_prvkey (KeyOctets (PyBytes (be_bytes nsize q)))
                 compressed network
               = Returned (encode (([p] ++ be_bytes nsize q)
                                   ++ (if compressed then [x01] else [])))).
  { intros p Hp. unfold wif_from_prvkey, index. rewrite Hi. cbn [obind].
    rewrite Hp. cbn [obind].
    assert (Hc : item _CURVES i = Returned tt).
    { destruct (networks_index network i Hi) as [[-> _]|[[-> _]|[-> _]]];
        reflexivity. }
    rewrite Hc. cbn [obind].
    rewrite octets_from_int_fits by exact Hfit. cbn [lift obind].
    rewrite from_be_bytes by exact Hfit. rewrite Hrange.
    split; reflexivity. }
  destruct (networks_index network i Hi) as [[-> _]|[[-> _]|[-> _]]].
  - destruct (Hw x80 eq_refl) as [H1 H2]. eexists.
    split; [exact H1|]. split; [exact H2|].
    apply (wif_payload x80 q compressed 0 Hq eq_refl); [lia|reflexivity].
  - destruct (Hw xef eq_refl) as [H1 H2]. eexists.
    split; [exact H1|]. split; [exact H2|].
    apply (wif_payload xef q compressed 1 Hq eq_refl); [lia|reflexivity].
  - destruct (Hw xef eq_refl) as [H1 H2]. eexists.
    split; [exact H1|]. split; [exact H2|].
    apply (wif_payload xef q compressed 1 Hq eq_refl); [lia|reflexivity].
Qed.

Lemma index_Returned (v : bytes) (table : list bytes) (i : nat) :
  index v table = Returned i -> index_of v table = Some i.
Proof.
  unfold index. destruct (index_of v table); [congruence|discriminate].
Qed.

Lemma lift_Returned' {A} (r : result A) (a : A) :
  lift r = Returned a -> r = Ok a.
Proof. destruct r; cbn [lift]; congruence. Qed.

(** X21 — What the WIF functions refuse: [wif_from_prvkey] fails with the
    error of [list.index] for a network that is not of the list, whatever
    the key, and with the out-of-range error for a key that is not in
    [1 .. n-1], given as bytes or as an integer that fits [nsize] bytes;
    [prvkey_from_wif] returns only keys in [1 .. n-1], of networks
    [mainnet] and [testnet], never [regtest], from payloads of [nsize + 1]
    bytes, or of [nsize + 2] bytes that end with 0x01. *)
Theorem wif_refusals (compressed : bool) (network : list byte) :
  (index_of network _NETWORKS = None ->
   forall key, wif_from_prvkey key compressed network = Failed NotInList)
  /\ (forall i, index_of network _NETWORKS = Some i ->
        (forall b, ~ 0 < from_bytes b < n ->
           wif_from_prvkey (KeyOctets (PyBytes b)) compressed network
           = Failed PrvKeyNotInRange)
        /\ (forall q, 0 <= q < 256 ^ Z.of_nat nsize -> ~ 0 < q < n ->
              wif_from_prvkey (KeyInt q) compressed network
              = Failed PrvKeyNotInRange))
  /\ (forall wif prv c net,
        prvkey_from_wif wif = Returned (prv, c, net) ->
        0 < prv < n
        /\ (net = ["m"; "a"; "i"; "n"; "n"; "e"; "t"]%byte
            \/ net = ["t"; "e"; "s"; "t"; "n"; "e"; "t"]%byte)
        /\ exists payload,
             decode (stripped wif) None = Ok payload
             /\ (if c
                 then length payload = (nsize + 2)%nat
                      /\ last payload x00 = x01
                 else length payload = (nsize + 1)%nat)).
Proof.
  split; [|split].
  - intros Hn key. unfold wif_from_prvkey, index. now rewrite Hn.
  - intros i Hi.
    assert (Hp : exists p, item _WIF_PREFIXES i = Returned p
                           /\ item _CURVES i = Returned tt).
    { destruct (networks_index network i Hi) as [[-> _]|[[-> _]|[-> _]]];
        eexists; split; reflexivity. }
    destruct Hp as (p & Hp & Hc).
    assert (Hout : forall v, ~ 0 < v < n ->
                     negb ((0 <? v) && (v <? n)) = true).
    { intros v Hv. apply negb_true_iff, andb_false_iff.
      destruct (Z.ltb_spec 0 v); [|now left].
      right. apply Z.ltb_ge. lia. }
    pose proof n_range as Hn.
    split.
    + intros b Hb. unfold wif_from_prvkey, index. rewrite Hi. cbn [obind].
      rewrite Hp. cbn [obind]. rewrite Hc. cbn [obind].
      now rewrite (Hout _ Hb).
    + intros q Hfit Hq. unfold wif_from_prvkey, index. rewrite Hi.
      cbn [obind]. rewrite Hp. cbn [obind]. rewrite Hc. cbn [obind].
      rewrite octets_from_int_fits by exact Hfit. cbn [lift obind].
      now rewrite (Hout q Hq).
  - intros wif prv c net H. unfold prvkey_from_wif in H.
    apply obind_Returned in H. destruct H as (payload & Hd & H).
    apply lift_Returned' in Hd.
    apply obind_Returned in H. destruct H as (i & Hi & H).
    apply index_Returned in Hi.
    apply obind_Returned in H. destruct H as (ec & _ & H).
    apply obind_Returned in H. destruct H as ([c' prv'] & Hcp & H).
    destruct (negb ((0 <? prv') && (prv' <? n))) eqn:Er; [discriminate|].
    apply obind_Returned in H. destruct H as (net' & Hnet & H).
    assert (prv' = prv /\ c' = c /\ net' = net) as (-> & -> & ->)
      by (repeat split; congruence).
    clear H. b2p.
    split; [lia|]. split.
    + unfold _WIF_PREFIXES in Hi. cbn [index_of] in Hi.
      destruct (bytes_eqb [x80] (firstn 1 payload)).
      { assert (i = 0%nat) by congruence. subst i. cbn in Hnet.
        left. congruence. }
      destruct (bytes_eqb [xef] (firstn 1 payload)).
      { cbn in Hi. assert (i = 1%nat) by congruence. subst i.
        cbn in Hnet. right. congruence. }
      discriminate.
    + exists payload. split; [exact Hd|].
      destruct (length payload =? nsize + 2)%nat eqn:E2.
      * apply Nat.eqb_eq in E2.
        destruct (negb (Z_of_byte (last payload x00) =? 1)) eqn:E1;
          [discriminate|].
        apply obind_Returned in Hcp. destruct Hcp as (v & _ & Hcp).
        assert (c = true) by congruence. subst c.
        split; [exact E2|]. b2p. now apply Z_of_byte_inj.
      * destruct (length payload =? nsize + 1)%nat eqn:E1;
          [|discriminate].
        apply Nat.eqb_eq in E1.
        apply obind_Returned in Hcp. destruct Hcp as (v & _ & Hcp).
        assert (c = false) by congruence. subst c. exact E1.
Qed.

(** X22 — The round trip of an address: for a network of the list,
    [p2pkh_address] and [p2sh_address] return an address whose payload is
    the prefix of the network and the 20-byte hash; read back with the same
    network, [h160_from_p2pkh_address] and [h160_from_p2sh_address] return
    that hash for mainnet and testnet, and fail with the other-network
    error for regtest, whose prefix is read as testnet: an address made for
    regtest is read back with [testnet] only. *)
Theorem address_round_trip (o : String) (h : bytes) (network : list byte)
    (i : nat) :
  h160 o = Ok h ->
  index_of network _NETWORKS = Some i ->
  let read_back := fun r : outcome exn bytes =>
    if (i <? 2)%nat then r = Returned h else r = Failed OtherNetwork in
  (exists address,
     p2pkh_address o network = Returned address
     /\ read_back (h160_from_p2pkh_address (PyBytes address) network)
     /\ ((0 < i)%nat ->
         h160_from_p2pkh_address (PyBytes address)
           ["t"; "e"; "s"; "t"; "n"; "e"; "t"]%byte = Returned h))
  /\ (exists address,
        p2sh_address o network = Returned address
        /\ read_back (h160_from_p2sh_address (PyBytes address) network)
        /\ ((0 < i)%nat ->
            h160_from_p2sh_address (PyBytes address)
              ["t"; "e"; "s"; "t"; "n"; "e"; "t"]%byte = Returned h)).
Proof.
  intros Hh Hi read_back. subst read_back.
  pose proof (h160_length o h Hh) as Hlen.
  assert (Hsize : forall p : byte, length ([p] ++ h) = 21%nat)
    by (intros p; cbn [app length]; lia).
  unfold p2pkh_address, p2sh_address, h160_from_p2pkh_address,
    h160_from_p2sh_address, index.
  rewrite Hi. cbn [obind stripped].
  destruct (networks_index network i Hi)
    as [[-> ->]|[[-> ->]|[-> ->]]];
    cbn [item _P2PKH_PREFIXES _P2SH_PREFIXES nth_error obind];
    rewrite Hh; cbn [lift obind];
    (split; eexists; (split; [reflexivity|]);
     rewrite (decode_encode_size _ 21%nat (Hsize _));
     cbn [lift obind app firstn skipn];
     (split; [reflexivity | intros Hpos; try lia; reflexivity])).
Qed.

End WifFacts.

(** *** Instances in the library of the examples *)

Lemma wif_model_contracts : wifaddress.Contracts WifModel.library.
Proof.
  constructor; cbn [WifModel.library wifaddress.nsize wifaddress.n
                    wifaddress.octets_from_int wifaddress.int_from_octets
                    wifaddress.h160 wifaddress.encode wifaddress.decode].
  - pose proof model_n_bounds as H. change (Z.of_nat 32) with 32. lia.
  - intros v size Hv. now apply to_bytes_Ok.
  - reflexivity.
  - intros o h H. apply bind_Ok in H. destruct H as (b & _ & H).
    apply Ok_inj in H. subst h. apply model_pad_length.
  - intros p. unfold WifModel.decode.
    now rewrite (proj1 (model_text_decode p)).
  - intros p size Hlen. unfold WifModel.decode.
    rewrite (proj1 (model_text_decode p)). cbn [bind].
    now replace (length p =? size)%nat with true
      by (symmetry; now apply Nat.eqb_eq).
Qed.

Lemma wif_round_trip_witness :
  exists wif,
    wifaddress.wif_from_prvkey (lib := WifModel.library)
      (wifaddress.KeyInt 5) true
      ["r"; "e"; "g"; "t"; "e"; "s"; "t"]%byte = Returned wif
    /\ wifaddress.prvkey_from_wif (lib := WifModel.library) (PyBytes wif)
       = Returned (5, true, ["t"; "e"; "s"; "t"; "n"; "e"; "t"]%byte).
Proof.
  assert (Hq : 0 < 5 < wifaddress.n (Library := WifModel.library))
    by (split; reflexivity).
  destruct (wif_round_trip wif_model_contracts 5 true
              ["r"; "e"; "g"; "t"; "e"; "s"; "t"]%byte 2 eq_refl Hq)
    as (wif & H1 & _ & H2).
  exists wif. split; assumption.
Defined.

Lemma wif_refusals_witness :
  wifaddress.wif_from_prvkey (lib := WifModel.library)
    (wifaddress.KeyOctets (PyBytes [x00; x00])) true
    ["m"; "a"; "i"; "n"; "n"; "e"; "t"]%byte
  = Failed wifaddress.PrvKeyNotInRange.
Proof.
  refine (proj1 (proj1 (proj2 (wif_refusals wif_model_contracts true
                                 ["m"; "a"; "i"; "n"; "n"; "e"; "t"]%byte))
                   0%nat eq_refl) [x00; x00] _).
  intros [H _]. vm_compute in H. discriminate.
Defined.

Lemma address_round_trip_witness :
  exists address,
    wifaddress.p2pkh_address (lib := WifModel.library) (PyBytes [x02; x05])
      ["r"; "e"; "g"; "t"; "e"; "s"; "t"]%byte = Returned address
    /\ wifaddress.h160_from_p2pkh_address (lib := WifModel.library)
         (PyBytes address) ["r"; "e"; "g"; "t"; "e"; "s"; "t"]%byte
       = Failed wifaddress.OtherNetwork
    /\ wifaddress.h160_from_p2pkh_address (lib := WifModel.library)
         (PyBytes address) ["t"; "e"; "s"; "t"; "n"; "e"; "t"]%byte
       = Returned (Model.pad 20 [x02; x05]).
Proof.
  destruct (proj1 (address_round_trip wif_model_contracts
                     (PyBytes [x02; x05]) (Model.pad 20 [x02; x05])
                     ["r"; "e"; "g"; "t"; "e"; "s"; "t"]%byte 2
                     eq_refl eq_refl))
    as (address & H1 & H2 & H3).
  exists address. split; [exact H1|]. split; [exact H2|].
  apply H3. lia.
Defined.
